(** * HAI-Backend: the conversation intent resolver and its context machine

    A shallow embedding of [app/services/chat.py], [app/api/chat.py],
    [app/core/llm.py], [app/utils/helpers.py], [app/crud],
    [app/services/memory.py] and [app/api/memory.py], with the
    properties the design document states about them.

    Conventions of the embedding.
    - A Python [str] is a Rocq [string]; [str.lower] acts on the ASCII
      letters, which is what it does on ASCII text.
    - A Python [dict] used as a map is a [gmap]; the ordered dict that is
      iterated ([intent_patterns]) is an association list.
    - [Optional[T]] is [option T]; Python truthiness of such a value is
      written out ([truthy]).
    - The clock, the entropy source and the database are threaded through
      a small state-and-exception monad [M].
    - A table is the list of its rows in insertion order.  The column
      [id] is its primary key: an INSERT under an id that is taken
      raises [IntegrityError].  The id of a new row is made of four
      random bytes, so the theorems about whole turns say what happens
      in both cases; [ids_fresh] is a condition under which no insert is
      refused. *)

From Stdlib Require Import Ascii String NArith ZArith Lia.
From Stdlib.Init Require Import Byte.
From stdpp Require Import base gmap strings list sorting pretty.


(* ===================================================================== *)
(** * Python string primitives *)
(* ===================================================================== *)

Module Py.

(** [c.lower()] for one character: the letters A..Z move to a..z. *)
Definition lower_char (c : ascii) : ascii :=
  let n := N_of_ascii c in
  if ((65 <=? n) && (n <=? 90))%N then ascii_of_N (n + 32) else c.

(** [s.lower()] *)
Fixpoint lower (s : string) : string :=
  match s with
  | EmptyString => EmptyString
  | String c s' => String (lower_char c) (lower s')
  end.

(** [s.startswith(p)], returning the rest of [s] after [p]. *)
Fixpoint strip_prefix (p s : string) : option string :=
  match p with
  | EmptyString => Some s
  | String a p' =>
      match s with
      | EmptyString => None
      | String b s' => if Ascii.eqb a b then strip_prefix p' s' else None
      end
  end.

Definition startswith (s p : string) : bool :=
  match strip_prefix p s with Some _ => true | None => false end.

(** [sub in s] *)
Fixpoint contains (sub s : string) : bool :=
  if startswith s sub then true
  else match s with
       | EmptyString => false
       | String _ s' => contains sub s'
       end.

(** [s.replace(old, new)] for a non-empty [old]: every occurrence, found
    from the left and not overlapping, is replaced.  [skip] counts the
    characters of a matched occurrence still to be dropped. *)
Fixpoint replace_from (skip : nat) (old new s : string) : string :=
  match s with
  | EmptyString => EmptyString
  | String c s' =>
      match skip with
      | S k => replace_from k old new s'
      | O =>
          if startswith s old
          then new +:+ replace_from (String.length old - 1) old new s'
          else String c (replace_from 0 old new s')
      end
  end.

Definition replace (s old new : string) : string := replace_from 0 old new s.

(** Truthiness of an [Optional[str]]: [None] and the empty string are
    false. *)
Definition truthy (o : option string) : bool :=
  match o with
  | None => false
  | Some EmptyString => false
  | Some (String _ _) => true
  end.

End Py.

(* ===================================================================== *)
(** * The regular expressions of the pattern table *)
(* ===================================================================== *)

(** Every pattern of [intent_patterns] is a sequence of literal words
    separated by [.*].  Under [re.search] without flags the dot matches
    any character but the newline. *)
Module Re.

Inductive token :=
| Lit (w : string)
| DotStar.

Definition regex := list token.

Definition newline : ascii := "010"%char.

(** Does [p] match a prefix of [s]? *)
Fixpoint match_here (p : regex) : string → bool :=
  match p with
  | [] => fun _ => true
  | Lit w :: r =>
      fun s => match Py.strip_prefix w s with
               | Some s' => match_here r s'
               | None => false
               end
  | DotStar :: r =>
      fix star (s : string) : bool :=
        if match_here r s then true
        else match s with
             | EmptyString => false
             | String c s' => if Ascii.eqb c newline then false else star s'
             end
  end.

(** [re.search(p, s)] as a truth value: a match at some position. *)
Fixpoint search (p : regex) (s : string) : bool :=
  if match_here p s then true
  else match s with
       | EmptyString => false
       | String _ s' => search p s'
       end.

(** The language of a pattern: the strings it matches exactly. *)
Fixpoint denotes (p : regex) (s : string) : Prop :=
  match p with
  | [] => s = EmptyString
  | Lit w :: r => ∃ s', s = w +:+ s' ∧ denotes r s'
  | DotStar :: r =>
      ∃ g s', s = g +:+ s' ∧ Py.contains (String newline EmptyString) g = false
              ∧ denotes r s'
  end.

End Re.

(* ===================================================================== *)
(** * [ChatService.detect_intent] *)
(* ===================================================================== *)

Abbreviation Context := (gmap string string).

Import Re.

(** [self.intent_patterns], in the order the dict literal lists it. *)
Definition intent_patterns : list (string * list regex) :=
  [ ("save_memory",
      [ [Lit "save"; DotStar; Lit "memory"];
        [Lit "want"; DotStar; Lit "save"; DotStar; Lit "memory"];
        [Lit "keep"; DotStar; Lit "memory"];
        [Lit "remember"; DotStar; Lit "this"];
        [Lit "store"; DotStar; Lit "memory"] ]);
    ("search_memory",
      [ [Lit "search"; DotStar; Lit "memory"];
        [Lit "find"; DotStar; Lit "memory"];
        [Lit "look"; DotStar; Lit "for"; DotStar; Lit "memory"];
        [Lit "show"; DotStar; Lit "memory"];
        [Lit "show"; DotStar; Lit "photos"];
        [Lit "find"; DotStar; Lit "photos"] ]);
    ("delete_memory",
      [ [Lit "delete"; DotStar; Lit "memory"];
        [Lit "remove"; DotStar; Lit "memory"];
        [Lit "don't"; DotStar; Lit "want"; DotStar; Lit "keep"];
        [Lit "delete"; DotStar; Lit "photo"];
        [Lit "remove"; DotStar; Lit "photo"] ]);
    ("edit_memory",
      [ [Lit "edit"; DotStar; Lit "memory"];
        [Lit "change"; DotStar; Lit "memory"];
        [Lit "update"; DotStar; Lit "memory"];
        [Lit "modify"; DotStar; Lit "memory"];
        [Lit "change"; DotStar; Lit "description"] ]);
    ("update_name",
      [ [Lit "change"; DotStar; Lit "name"];
        [Lit "update"; DotStar; Lit "name"];
        [Lit "new"; DotStar; Lit "name"];
        [Lit "call"; DotStar; Lit "me"];
        [Lit "name"; DotStar; Lit "should"; DotStar; Lit "be"] ]);
    ("update_avatar",
      [ [Lit "change"; DotStar; Lit "picture"];
        [Lit "update"; DotStar; Lit "avatar"];
        [Lit "new"; DotStar; Lit "profile"];
        [Lit "change"; DotStar; Lit "profile"; DotStar; Lit "picture"];
        [Lit "update"; DotStar; Lit "profile"] ]);
    ("update_password",
      [ [Lit "change"; DotStar; Lit "password"];
        [Lit "update"; DotStar; Lit "password"];
        [Lit "new"; DotStar; Lit "password"];
        [Lit "reset"; DotStar; Lit "password"];
        [Lit "forgot"; DotStar; Lit "password"] ]) ].

(** [current_context and key in current_context], then
    [current_context[key]]: [None] and the empty dict are falsy. *)
Definition ctx_item (key : string) (current_context : option Context)
  : option string :=
  match current_context with
  | None => None
  | Some c => if bool_decide (c = ∅) then None else c !! key
  end.

(** The inner loop [for pattern in patterns: if re.search(...)]. *)
Fixpoint any_pattern (patterns : list regex) (text_lower : string) : bool :=
  match patterns with
  | [] => false
  | pattern :: rest =>
      if Re.search pattern text_lower then true
      else any_pattern rest text_lower
  end.

(** The outer loop [for intent, patterns in self.intent_patterns.items()]. *)
Fixpoint scan_patterns (table : list (string * list regex))
    (text_lower : string) : option string :=
  match table with
  | [] => None
  | (intent, patterns) :: rest =>
      if any_pattern patterns text_lower then Some intent
      else scan_patterns rest text_lower
  end.

(** The branch under [# 检查是否有记忆ID]: with a memory in focus, the
    edit words are looked for first, then the delete words; [None] when
    the branch does not return. *)
Definition focus_intent (current_context : option Context)
    (text_lower : string) : option string :=
  match ctx_item "memory_id" current_context with
  | Some _ =>
      if Py.contains "change" text_lower || Py.contains "edit" text_lower
         || Py.contains "update" text_lower
      then Some "edit_memory"
      else if Py.contains "delete" text_lower
              || Py.contains "remove" text_lower
      then Some "delete_memory"
      else None
  | None => None
  end.

Definition detect_intent (text : string) (current_context : option Context)
  : string :=
  let text_lower := Py.lower text in
  match ctx_item "expected_intent" current_context with
  | Some expected_intent => expected_intent
  | None =>
      match focus_intent current_context text_lower with
      | Some intent => intent
      | None =>
          match scan_patterns intent_patterns text_lower with
          | Some intent => intent
          | None => "chat"
          end
      end
  end.

(* ===================================================================== *)
(** * The data model *)
(* ===================================================================== *)

(** JSON values as they occur in message metadata.  [VDate t] stands for
    [t.isoformat()] of a timestamp column. *)
Inductive value :=
| VNone
| VBool (b : bool)
| VStr (s : string)
| VList (l : list string)
| VDate (t : N).

Abbreviation Meta := (gmap string value).

Definition opt_str (o : option string) : value :=
  match o with Some s => VStr s | None => VNone end.

(** [app/schemas/chat.py] *)
Record ChatMessageRequest := {
  text : string;
  imageUrl : option string;
  memoryId : option string;
  extra : Meta
}.

Record ChatMessageResponse := {
  msgId : string;
  sender : string;
  intent : string;
  content : string;
  meta : Meta;
  timestamp : N
}.

(** [app/models/user.py], the columns the chat service reads. *)
Module User.
Record t := {
  id : string;
  name : string;
  is_active : bool
}.
End User.

(** [app/models/memory.py] *)
Module Memory.
Record t := {
  id : string;
  user_id : string;
  image_url : option string;
  description : option string;
  title : option string;
  labels : list string;
  memory_date : N;
  created_at : N;
  updated_at : option N;
  is_deleted : bool;
  is_favorite : bool
}.

Definition to_dict (self : t) : Meta :=
  list_to_map
    [ ("id", VStr (id self));
      ("user_id", VStr (user_id self));
      ("image_url", opt_str (image_url self));
      ("description", opt_str (description self));
      ("title", opt_str (title self));
      ("labels", VList (labels self));
      ("memory_date", VDate (memory_date self));
      ("created_at", VDate (created_at self));
      ("updated_at",
        match updated_at self with Some u => VDate u | None => VNone end);
      ("is_deleted", VBool (is_deleted self));
      ("is_favorite", VBool (is_favorite self)) ].
End Memory.

(** [app/models/message.py]; [timestamp] is in whole seconds. *)
Module Message.
Record t := {
  id : string;
  user_id : string;
  msgId : string;
  sender : string;
  intent : string;
  content : string;
  meta : Meta;
  memory_id : option string;
  timestamp : N
}.
End Message.

(** The entry [Message.to_dict] builds for the history. *)
Record MessageDict := {
  d_msgId : string;
  d_sender : string;
  d_intent : string;
  d_content : string;
  d_meta : Meta;
  d_memory_id : option string;
  d_timestamp : N
}.

Definition message_to_dict (self : Message.t) : MessageDict :=
  {| d_msgId := Message.msgId self;
     d_sender := Message.sender self;
     d_intent := Message.intent self;
     d_content := Message.content self;
     d_meta := Message.meta self;
     d_memory_id := Message.memory_id self;
     d_timestamp := Message.timestamp self |}.

(* ===================================================================== *)
(** * The environment: database, clock and entropy *)
(* ===================================================================== *)

(** [clock n] is the [n]-th reading of the wall clock, in milliseconds
    since the epoch; [entropy n] the [n]-th byte the operating system's
    random source hands out.  [like] is the database engine's evaluation
    of the text filter of [MemoryCRUD.search]. *)
Record World := {
  users : list User.t;
  memories : list Memory.t;
  messages : list Message.t;
  clock : nat → N;
  ticks : nat;
  entropy : nat → byte;
  draws : nat;
  like : string → Memory.t → bool
}.

(** What the code raises: the application's [MemoryNotFoundError], and
    the [IntegrityError] with which the database refuses a row whose
    primary key is taken; [table] names the table. *)
Inductive exn :=
| MemoryNotFoundError (detail : string)
| IntegrityError (table : string).

Inductive result (A : Type) :=
| Ok (a : A)
| Raise (e : exn).
Arguments Ok {A} a.
Arguments Raise {A} e.

(** Computations that read and change the world and may raise. *)
Definition M (A : Type) : Type := World → result A * World.

Global Instance M_ret : MRet M := λ A a w, (Ok a, w).
Global Instance M_bind : MBind M := λ A B f m w,
  match m w with
  | (Ok a, w') => f a w'
  | (Raise e, w') => (Raise e, w')
  end.

Definition raise {A} (e : exn) : M A := λ w, (Raise e, w).
Definition get_world : M World := λ w, (Ok w, w).

(** [datetime.now()], in milliseconds. *)
Definition now_ms : M N := λ w,
  (Ok (clock w (ticks w)),
   {| users := users w; memories := memories w; messages := messages w;
      clock := clock w; ticks := S (ticks w);
      entropy := entropy w; draws := draws w; like := like w |}).

(** One byte of [os.urandom]. *)
Definition random_byte : M byte := λ w,
  (Ok (entropy w (draws w)),
   {| users := users w; memories := memories w; messages := messages w;
      clock := clock w; ticks := ticks w;
      entropy := entropy w; draws := S (draws w); like := like w |}).

Fixpoint token_bytes (n : nat) : M (list byte) :=
  match n with
  | O => mret []
  | S k => b ← random_byte; bs ← token_bytes k; mret (b :: bs)
  end.

(* ===================================================================== *)
(** * [app/utils/helpers.py] *)
(* ===================================================================== *)

Definition hex_digit (n : N) : ascii :=
  if (n <? 10)%N then ascii_of_N (48 + n) else ascii_of_N (87 + n).

Definition hex_of_byte (b : byte) : string :=
  let n := Byte.to_N b in
  String (hex_digit (n / 16)) (String (hex_digit (n mod 16)) EmptyString).

(** [bytes.hex()] *)
Fixpoint hex (bs : list byte) : string :=
  match bs with
  | [] => EmptyString
  | b :: rest => hex_of_byte b +:+ hex rest
  end.

(** [secrets.token_hex(n)] *)
Definition token_hex (n : nat) : M string :=
  bs ← token_bytes n; mret (hex bs).

(** [uuid.uuid4().hex[:8]]: sixteen random bytes are drawn, the first
    four of them (which carry no version or variant bits) are shown. *)
Definition uuid4_hex8 : M string :=
  bs ← token_bytes 16; mret (hex (take 4 bs)).

(** The identifier built from a clock reading and a random draw. *)
Definition format_message_id (prefix : string) (timestamp : N)
    (random_part : string) : string :=
  prefix +:+ "-" +:+ pretty timestamp +:+ "-" +:+ random_part.

Definition generate_message_id (prefix : string) : M string :=
  timestamp ← now_ms;
  random_part ← token_hex 4;
  mret (format_message_id prefix timestamp random_part).

Definition generate_ai_message_id : M string := generate_message_id "ai".

Definition with_memories (w : World) (ms : list Memory.t) : World :=
  {| users := users w; memories := ms; messages := messages w;
     clock := clock w; ticks := ticks w;
     entropy := entropy w; draws := draws w; like := like w |}.

Definition with_messages (w : World) (ms : list Message.t) : World :=
  {| users := users w; memories := memories w; messages := ms;
     clock := clock w; ticks := ticks w;
     entropy := entropy w; draws := draws w; like := like w |}.

(** [db.add(row); db.commit()].  The column [id] is the primary key of
    its table: the INSERT of a row whose id is taken raises
    [IntegrityError] and stores nothing.  (The foreign keys are not
    enforced by the SQLite database the application is configured
    with.) *)
Definition db_add_memory (memory : Memory.t) : M unit :=
  λ w, if decide (Memory.id memory ∈ Memory.id <$> memories w)
       then (Raise (IntegrityError "memories"), w)
       else (Ok tt, with_memories w (memories w ++ [memory])).

Definition db_add_message (message : Message.t) : M unit :=
  λ w, if decide (Message.id message ∈ Message.id <$> messages w)
       then (Raise (IntegrityError "messages"), w)
       else (Ok tt, with_messages w (messages w ++ [message])).

(** [extract_labels_from_text], on ASCII text.  The order in which a
    Python [set] lists its elements is not fixed; the order of
    [remove_dups] stands for it. *)
Definition is_space (c : ascii) : bool :=
  let n := N_of_ascii c in
  (((9 <=? n) && (n <=? 13)) || ((28 <=? n) && (n <=? 32)))%N.

Definition is_word (c : ascii) : bool :=
  let n := N_of_ascii c in
  (((48 <=? n) && (n <=? 57)) || ((65 <=? n) && (n <=? 90))
   || ((97 <=? n) && (n <=? 122)) || (n =? 95))%N.

Fixpoint clean (s : string) : string :=
  match s with
  | EmptyString => EmptyString
  | String c s' =>
      String (if is_word c || is_space c then c else " "%char) (clean s')
  end.

(** [s.split()]; [cur] is the word being read, last character first. *)
Fixpoint split_from (cur : string) (s : string) : list string :=
  let flush := match cur with
               | EmptyString => []
               | _ => [String.rev cur]
               end in
  match s with
  | EmptyString => flush
  | String c s' =>
      if is_space c then flush ++ split_from EmptyString s'
      else split_from (String c cur) s'
  end.

Definition split (s : string) : list string := split_from EmptyString s.

Definition stop_words : list string :=
  [ "the"; "a"; "an"; "and"; "or"; "but"; "in"; "on"; "at"; "to";
    "for"; "of"; "with"; "by"; "as"; "is"; "are"; "was"; "were";
    "be"; "been"; "being"; "have"; "has"; "had"; "do"; "does"; "did";
    "will"; "would"; "should"; "could"; "can"; "may"; "might"; "must" ].

Definition extract_labels_from_text (text : string) : list string :=
  let text_clean := clean (Py.lower text) in
  let words := split text_clean in
  let keywords :=
    filter (λ word, 3 < String.length word ∧ word ∉ stop_words) words in
  let unique_keywords := take 10 (remove_dups keywords) in
  unique_keywords.

(* ===================================================================== *)
(** * [app/core/llm.py]: the response template catalog *)
(* ===================================================================== *)

Inductive template :=
| Fixed (s : string)
| Variants (l : list string).

Definition chat_variants : list string :=
  [ "Hello! How can I help you today?";
    "Hi there! What can I do for you?";
    "Greetings! I'm here to assist you." ].

Definition intent_responses : gmap string template :=
  list_to_map
    [ ("chat", Variants chat_variants);
      ("save_memory", Fixed
        "Of course. Please upload a photo you'd like to save as a memory.");
      ("add_description", Fixed
        "Your photo is ready. Whenever you're comfortable, you can tell me a few simple words about this memory.");
      ("memory_saved", Fixed
        "That's a beautiful memory. I've saved it for you, and you can revisit or edit it anytime.");
      ("search_memory", Fixed "Here are the memories I found:");
      ("confirm_delete", Fixed
        "Of course. Are you sure you want to delete this? You can delete just the photo or the entire memory.");
      ("memory_deleted", Fixed
        "Alright, I've deleted this photo for you. You can always add it again later if you wish.");
      ("edit_memory", Fixed
        "Absolutely-you can change anything you want. What would you like to update: the title, the description?");
      ("ask_new_value", Fixed "What would you like it to say instead?");
      ("memory_updated", Fixed
        "That's beautiful. I've updated your memory exactly as you described it. You can edit it again anytime-you're always in control.");
      ("update_name", Fixed
        "Of course. Your current name is {current_name}. What would you like it to be?");
      ("name_changed", Fixed
        "Got it-I've updated your name to {new_name}. You can change it again anytime if you wish.");
      ("update_avatar", Fixed
        "Great. When you're ready, please choose a photo from your gallery. I'll only change your avatar after you confirm.");
      ("avatar_updated", Fixed
        "All done. Your profile photo has been updated-you can always change it again whenever you like.");
      ("update_password", Fixed
        "No problem. To keep your account safe, I'll guide you step by step. Please enter your new password.");
      ("confirm_password", Fixed
        "Great. Just one more step-please type it again to confirm.");
      ("password_updated", Fixed
        "Perfect. Your password has been updated safely. If you ever forget it, I'll help you recover it. You're doing everything correctly—no need to worry.") ].

(** The slot substitution applied to a template that is a [str]. *)
Definition fill_slots (content_template : string)
    (user_data context : option Context) : string :=
  let content := content_template in
  let content :=
    match ctx_item "current_name" user_data with
    | Some current_name => Py.replace content "{current_name}" current_name
    | None => content
    end in
  match ctx_item "new_name" context with
  | Some new_name => Py.replace content "{new_name}" new_name
  | None => content
  end.

(** The content of the response: only a template that is a single
    string is ever written into it ([isinstance(content_template, str)]);
    otherwise the initial [""] stays. *)
Definition render_content (intent : string)
    (user_data context : option Context) : string :=
  match intent_responses !! intent with
  | Some (Fixed content_template) =>
      fill_slots content_template user_data context
  | Some (Variants _) => ""
  | None => ""
  end.

Definition intent_meta (intent : string) : Meta :=
  if decide (intent = "save_memory") then {[ "needImage" := VBool true ]}
  else if decide (intent = "confirm_delete")
  then {[ "options" := VList ["photo"; "memory"] ]}
  else if decide (intent = "edit_memory")
  then {[ "fields" := VList ["title"; "description"] ]}
  else ∅.

Definition generate_response (intent : string)
    (user_data context : option Context) : M ChatMessageResponse :=
  msg_id ← generate_ai_message_id;
  now ← now_ms;
  let timestamp := (now / 1000)%N in
  mret {| msgId := msg_id;
          sender := "ai";
          intent := intent;
          content := render_content intent user_data context;
          meta := intent_meta intent;
          timestamp := timestamp |}.

(* ===================================================================== *)
(** * [app/crud]: the persistence calls the chat service makes *)
(* ===================================================================== *)

(** [UserCRUD.get_by_id] *)
Definition user_crud_get_by_id (user_id : string) : M (option User.t) :=
  w ← get_world;
  mret (head (filter (λ u, User.id u = user_id ∧ User.is_active u = true)
                     (users w))).

(** [MemoryCRUD.get_by_id] with [include_deleted=False] *)
Definition memory_crud_get_by_id (memory_id : string) : M (option Memory.t) :=
  w ← get_world;
  mret (head (filter (λ m, Memory.id m = memory_id
                           ∧ Memory.is_deleted m = false)
                     (memories w))).

(** [MemoryCRUD.create]: the row gets its id and its dates when it is
    inserted. *)
Definition memory_crud_create (user_id : string)
    (image_url description title : option string)
    (labels : option (list string)) : M Memory.t :=
  let labels :=
    match description, labels with
    | Some (String _ _ as d), (None | Some []) =>
        Some (extract_labels_from_text d)
    | _, _ => labels
    end in
  suffix ← uuid4_hex8;
  now ← now_ms;
  let memory :=
    {| Memory.id := "mem-" +:+ suffix;
       Memory.user_id := user_id;
       Memory.image_url := image_url;
       Memory.description := description;
       Memory.title := title;
       Memory.labels := default [] labels;
       Memory.memory_date := (now / 1000)%N;
       Memory.created_at := (now / 1000)%N;
       Memory.updated_at := None;
       Memory.is_deleted := false;
       Memory.is_favorite := false |} in
  _ ← db_add_memory memory;
  mret memory.

Definition created_first (a b : Memory.t) : Prop :=
  (Memory.created_at b ≤ Memory.created_at a)%N.

Global Instance created_first_dec : RelDecision created_first :=
  λ a b, decide (Memory.created_at b ≤ Memory.created_at a)%N.

(** [MemoryCRUD.search] with [skip=0] *)
Definition memory_crud_search (user_id query : string) (limit : nat)
  : M (list Memory.t) :=
  w ← get_world;
  let search_query := Py.lower query in
  mret (take limit
         (merge_sort created_first
           (filter (λ m, Memory.user_id m = user_id
                         ∧ Memory.is_deleted m = false
                         ∧ like w search_query m = true)
                   (memories w)))).

(** [MessageCRUD.create] *)
Definition message_crud_create (user_id msg_id sender intent content : string)
    (meta : option Meta) : M Message.t :=
  suffix ← uuid4_hex8;
  now ← now_ms;
  let message :=
    {| Message.id := "msg-" +:+ suffix;
       Message.user_id := user_id;
       Message.msgId := msg_id;
       Message.sender := sender;
       Message.intent := intent;
       Message.content := content;
       Message.meta := default ∅ meta;
       Message.memory_id := None;
       Message.timestamp := (now / 1000)%N |} in
  _ ← db_add_message message;
  mret message.

(** [MessageCRUD.create_user_message] *)
Definition message_crud_create_user_message (user_id content intent : string)
    (meta : option Meta) : M Message.t :=
  msg_id ← generate_message_id "user";
  message_crud_create user_id msg_id "user" intent content meta.

Definition newer_first (a b : Message.t) : Prop :=
  (Message.timestamp b ≤ Message.timestamp a)%N.

Global Instance newer_first_dec : RelDecision newer_first :=
  λ a b, decide (Message.timestamp b ≤ Message.timestamp a)%N.

(** The rows of one user, [db.query(Message).filter(user_id == ...)]. *)
Definition user_messages (w : World) (user_id : string) : list Message.t :=
  filter (λ m, Message.user_id m = user_id) (messages w).

(** [MessageCRUD.get_conversation_history]: newest first, cut at
    [limit], turned round. *)
Definition get_conversation_history (w : World) (user_id : string)
    (limit : nat) : list MessageDict :=
  let messages := take limit (merge_sort newer_first (user_messages w user_id)) in
  message_to_dict <$> reverse messages.

(* ===================================================================== *)
(** * [ChatService]: the handlers and the dispatcher *)
(* ===================================================================== *)

(** Every handler ends by storing the reply and returning it. *)
Definition save_ai_message (user_id : string)
    (ai_response : ChatMessageResponse) : M ChatMessageResponse :=
  _ ← message_crud_create user_id (msgId ai_response) "ai"
        (intent ai_response) (content ai_response) (Some (meta ai_response));
  mret ai_response.

Definition set_meta (key : string) (v : value)
    (r : ChatMessageResponse) : ChatMessageResponse :=
  {| msgId := msgId r; sender := sender r; intent := intent r;
     content := content r; meta := <[key := v]> (meta r);
     timestamp := timestamp r |}.

Definition update_meta (entries : Meta)
    (r : ChatMessageResponse) : ChatMessageResponse :=
  {| msgId := msgId r; sender := sender r; intent := intent r;
     content := content r; meta := entries ∪ meta r;
     timestamp := timestamp r |}.

Definition handle_normal_chat (user_id : string)
    (request : ChatMessageRequest) : M ChatMessageResponse :=
  user ← user_crud_get_by_id user_id;
  let user_data : Context :=
    match user with
    | Some u => {[ "current_name" := User.name u ]}
    | None => ∅
    end in
  ai_response ← generate_response "chat" (Some user_data) None;
  save_ai_message user_id ai_response.

Definition handle_save_memory (user_id : string)
    (request : ChatMessageRequest) (current_context : option Context)
  : M ChatMessageResponse :=
  ai_response ←
    (if Py.truthy (imageUrl request) then
       let image := default "" (imageUrl request) in
       memory ← memory_crud_create user_id (imageUrl request) None None None;
       ai_response ← generate_response "add_description" None
         (Some {[ "memory_id" := Memory.id memory; "image_url" := image ]});
       mret (set_meta "imageUrl" (VStr image)
              (set_meta "memoryId" (VStr (Memory.id memory)) ai_response))
     else
       generate_response "save_memory" None None);
  save_ai_message user_id ai_response.

Definition handle_search_memory (user_id : string)
    (request : ChatMessageRequest) : M ChatMessageResponse :=
  let search_keywords := Py.lower (text request) in
  memories ← memory_crud_search user_id search_keywords 5;
  ai_response ← generate_response "search_memory" None None;
  let ai_response :=
    match memories with
    | first :: _ => update_meta (Memory.to_dict first) ai_response
    | [] => ai_response
    end in
  save_ai_message user_id ai_response.

Definition handle_delete_memory (user_id : string)
    (request : ChatMessageRequest) (current_context : option Context)
  : M ChatMessageResponse :=
  let memory_id := memoryId request in
  ai_response ←
    (if negb (Py.truthy memory_id) then
       generate_response "confirm_delete" None None
     else
       ai_response ← generate_response "confirm_delete" None None;
       mret (set_meta "memoryId" (VStr (default "" memory_id)) ai_response));
  save_ai_message user_id ai_response.

Definition handle_edit_memory (user_id : string)
    (request : ChatMessageRequest) (current_context : option Context)
  : M ChatMessageResponse :=
  let memory_id := memoryId request in
  ai_response ←
    (if negb (Py.truthy memory_id) then
       generate_response "edit_memory" None None
     else
       memory ← memory_crud_get_by_id (default "" memory_id);
       match memory with
       | None => raise (MemoryNotFoundError "Memory not found")
       | Some _ =>
           ai_response ← generate_response "edit_memory" None None;
           mret (set_meta "memoryId" (VStr (default "" memory_id))
                   ai_response)
       end);
  save_ai_message user_id ai_response.

Definition handle_update_name (user_id : string)
    (request : ChatMessageRequest) (current_context : option Context)
  : M ChatMessageResponse :=
  user ← user_crud_get_by_id user_id;
  ai_response ← generate_response "update_name"
    (Some {[ "current_name" :=
               match user with Some u => User.name u | None => "User" end ]})
    None;
  save_ai_message user_id ai_response.

Definition handle_update_avatar (user_id : string)
    (request : ChatMessageRequest) (current_context : option Context)
  : M ChatMessageResponse :=
  ai_response ← generate_response "update_avatar" None None;
  save_ai_message user_id ai_response.

Definition handle_update_password (user_id : string)
    (request : ChatMessageRequest) (current_context : option Context)
  : M ChatMessageResponse :=
  ai_response ← generate_response "update_password" None None;
  save_ai_message user_id ai_response.

Definition dispatch (intent : string) (user_id : string)
    (request : ChatMessageRequest) (current_context : option Context)
  : M ChatMessageResponse :=
  if decide (intent = "save_memory") then
    handle_save_memory user_id request current_context
  else if decide (intent = "search_memory") then
    handle_search_memory user_id request
  else if decide (intent = "delete_memory") then
    handle_delete_memory user_id request current_context
  else if decide (intent = "edit_memory") then
    handle_edit_memory user_id request current_context
  else if decide (intent = "update_name") then
    handle_update_name user_id request current_context
  else if decide (intent = "update_avatar") then
    handle_update_avatar user_id request current_context
  else if decide (intent = "update_password") then
    handle_update_password user_id request current_context
  else
    handle_normal_chat user_id request.

Definition process_message (user_id : string) (request : ChatMessageRequest)
    (current_context : option Context) : M ChatMessageResponse :=
  user_msg ← message_crud_create_user_message user_id (text request) "user"
    (Some {[ "imageUrl" := opt_str (imageUrl request) ]});
  let intent := detect_intent (text request) current_context in
  dispatch intent user_id request current_context.

(* ===================================================================== *)
(** * [app/api/chat.py]: the endpoint and the context store *)
(* ===================================================================== *)

Abbreviation Contexts := (gmap string Context).

Definition continuation_intents : list string :=
  [ "save_memory"; "add_description"; "edit_memory"; "confirm_delete";
    "update_password" ].

Definition completion_intents : list string :=
  [ "memory_saved"; "memory_deleted"; "memory_updated"; "name_changed";
    "avatar_updated"; "password_updated" ].

(** The block under [# 更新上下文]: what the store becomes once the
    response is known. *)
Definition update_context (conversation_contexts : Contexts)
    (user_id : string) (request : ChatMessageRequest)
    (response_intent : string) : Contexts :=
  let user_context : Context := default ∅ (conversation_contexts !! user_id) in
  if decide (response_intent ∈ continuation_intents) then
    let user_context := <["expected_intent" := response_intent]> user_context in
    let user_context :=
      if Py.truthy (memoryId request)
      then <["memory_id" := default "" (memoryId request)]> user_context
      else user_context in
    <[user_id := user_context]> conversation_contexts
  else if decide (response_intent ∈ completion_intents) then
    delete user_id conversation_contexts
  else
    conversation_contexts.

Inductive http_result :=
| Response (r : ChatMessageResponse)
| HTTPException (status_code : N) (cause : exn).

(** [send_chat_message]: the reply (or the error), the store and the
    world after the request. *)
Definition send_chat_message (conversation_contexts : Contexts)
    (current_user_id : string) (request : ChatMessageRequest) (w : World)
  : http_result * Contexts * World :=
  let user_context : Context :=
    default ∅ (conversation_contexts !! current_user_id) in
  match process_message current_user_id request (Some user_context) w with
  | (Ok response, w') =>
      (Response response,
       update_context conversation_contexts current_user_id request
         (intent response),
       w')
  | (Raise e, w') => (HTTPException 500 e, conversation_contexts, w')
  end.

(** [get_conversation_context] *)
Definition get_conversation_context (conversation_contexts : Contexts)
    (current_user_id : string) : Context :=
  default ∅ (conversation_contexts !! current_user_id).

(** [clear_conversation_context] *)
Definition clear_conversation_context (conversation_contexts : Contexts)
    (current_user_id : string) : Contexts :=
  delete current_user_id conversation_contexts.

(* ===================================================================== *)
(** * Vocabulary of the properties *)
(* ===================================================================== *)

(** [w] occurs in [t] as a substring. *)
Definition occurs_in (w t : string) : Prop := ∃ a b, t = a +:+ w +:+ b.

(** The pattern is found somewhere in the text. *)
Definition found (p : regex) (t : string) : Prop :=
  ∃ a m b, t = a +:+ m +:+ b ∧ denotes p m.

(** The key is absent from the context the classifier is given. *)
Definition no_key (key : string) (current_context : option Context) : Prop :=
  match current_context with
  | Some c => c !! key = None
  | None => True
  end.

(** The intents [process_message] has a branch for. *)
Definition dispatched_intents : list string :=
  [ "save_memory"; "search_memory"; "delete_memory"; "edit_memory";
    "update_name"; "update_avatar"; "update_password" ].

(** A memory the lookup of [MemoryCRUD.get_by_id] can find. *)
Definition memory_exists (w : World) (memory_id : string) : Prop :=
  ∃ m, m ∈ memories w ∧ Memory.id m = memory_id ∧ Memory.is_deleted m = false.

(** Chronological order of history entries. *)
Definition not_after (a b : MessageDict) : Prop :=
  (d_timestamp a ≤ d_timestamp b)%N.

(** A run of the endpoint over a sequence of requests, each with the id
    of the user who sends it. *)
Fixpoint run_turns (cs : Contexts) (w : World)
    (turns : list (string * ChatMessageRequest)) : Contexts * World :=
  match turns with
  | [] => (cs, w)
  | (uid, req) :: rest =>
      let '(_, cs', w') := send_chat_message cs uid req w in
      run_turns cs' w' rest
  end.

(** The next [n] bytes the random source will hand out. *)
Definition drawn (n : nat) (w : World) : list byte :=
  (λ i, entropy w (i + draws w)) <$> seq 0 n.

(** The world after [t] more clock readings and [d] more random bytes. *)
Definition advance (t d : nat) (w : World) : World :=
  {| users := users w; memories := memories w; messages := messages w;
     clock := clock w; ticks := t + ticks w;
     entropy := entropy w; draws := d + draws w; like := like w |}.

(** Reading two hexadecimal digits back. *)
Definition hex_value (c : ascii) : N :=
  let n := N_of_ascii c in
  if (n <? 58)%N then (n - 48)%N else (n - 87)%N.

Definition unhex_byte (s : string) : option byte :=
  match s with
  | String a (String b EmptyString) =>
      Byte.of_N (16 * hex_value a + hex_value b)
  | _ => None
  end.

(** [wp m w Q]: run from [w], the computation [m] returns a value and a
    world that satisfy [Q]; in particular it does not raise. *)
Definition wp {A} (m : M A) (w : World) (Q : A → World → Prop) : Prop :=
  ∃ a w', m w = (Ok a, w') ∧ Q a w'.

(* ===================================================================== *)
(** * Example worlds and requests *)
(* ===================================================================== *)

Definition alex : User.t :=
  {| User.id := "u1"; User.name := "Alex"; User.is_active := true |}.

(** A database with one user and nothing else; the clock advances by
    one millisecond per reading and the random source counts up from
    zero, so that the ids drawn in a row are all different. *)
Definition world0 : World :=
  {| users := [alex]; memories := []; messages := [];
     clock := λ n, (1700000000000 + N.of_nat n)%N; ticks := 0;
     entropy := λ n, byte_of_ascii (ascii_of_nat n);
     draws := 0;
     like := λ _ _, false |}.

(** The same database under a clock that stands still and a random
    source that repeats itself. *)
Definition frozen_world : World :=
  {| users := [alex]; memories := []; messages := [];
     clock := λ _, 1700000000000%N; ticks := 0;
     entropy := λ _, Byte.xab; draws := 0;
     like := λ _ _, false |}.

(** A plain text message. *)
Definition say (t : string) : ChatMessageRequest :=
  {| text := t; imageUrl := None; memoryId := None; extra := ∅ |}.


(** Requests that name a memory nobody has stored. *)
Definition delete_unknown : ChatMessageRequest :=
  {| text := "please delete this memory"; imageUrl := None;
     memoryId := Some "mem-404"; extra := ∅ |}.

Definition edit_unknown : ChatMessageRequest :=
  {| text := "please edit this memory"; imageUrl := None;
     memoryId := Some "mem-404"; extra := ∅ |}.

(** Two users talking in turn. *)
Definition three_turns : list (string * ChatMessageRequest) :=
  [ ("u1", say "yes, delete the photo");
    ("u2", say "I want to save a memory");
    ("u1", say "please search memory of my trip") ].

(* ===================================================================== *)
(** * [app/utils/helpers.py]: the text helpers *)
(* ===================================================================== *)

(** [s[:n]] for a count [n]. *)
Fixpoint str_take (n : nat) (s : string) : string :=
  match n, s with
  | S k, String c s' => String c (str_take k s')
  | _, _ => EmptyString
  end.

(** [s[:k]] for any integer [k]: a negative [k] counts from the end. *)
Definition slice_to (k : Z) (s : string) : string :=
  if (0 <=? k)%Z then str_take (Z.to_nat k) s
  else str_take (String.length s - Z.to_nat (- k)) s.

(** [all(P(c) for c in s)] and [any(P(c) for c in s)] *)
Fixpoint str_all (P : ascii → bool) (s : string) : bool :=
  match s with
  | EmptyString => true
  | String c s' => P c && str_all P s'
  end.

Fixpoint str_any (P : ascii → bool) (s : string) : bool :=
  match s with
  | EmptyString => false
  | String c s' => P c || str_any P s'
  end.

Fixpoint str_map (f : ascii → ascii) (s : string) : string :=
  match s with
  | EmptyString => EmptyString
  | String c s' => String (f c) (str_map f s')
  end.

(** [truncate_text] *)
Definition truncate_text (text : string) (max_length : Z) : string :=
  if (Z.of_nat (String.length text) <=? max_length)%Z then text
  else slice_to (max_length - 3) text +:+ "...".

(** [validate_username]: [re.match] of [^[a-zA-Z0-9_]{3,20}$].  The
    class is repeated greedily, at most twenty times; [$] holds at the
    end of the string and before a newline that ends it. *)
Fixpoint class_run (limit : nat) (s : string) : nat * string :=
  match limit, s with
  | S k, String c s' =>
      if is_word c then
        let '(n, rest) := class_run k s' in (S n, rest)
      else (0, s)
  | _, _ => (0, s)
  end.

Definition validate_username (username : string) : bool :=
  let '(n, rest) := class_run 20 username in
  (3 <=? n)
  && (bool_decide (rest = EmptyString)
      || bool_decide (rest = String newline EmptyString)).

(** [sanitize_filename], with [os.path.basename] of a POSIX system and
    [\w] on ASCII text. *)
Definition is_slash (c : ascii) : bool := Ascii.eqb c "/".

Fixpoint basename (p : string) : string :=
  match p with
  | EmptyString => EmptyString
  | String c p' =>
      if str_any is_slash p' then basename p'
      else if is_slash c then p'
      else p
  end.

Definition sanitize_char (c : ascii) : ascii :=
  if is_word c || Ascii.eqb c "." || Ascii.eqb c "-" then c else "_"%char.

Definition sanitize_filename (filename : string) : string :=
  let filename := basename filename in
  let filename := str_map sanitize_char filename in
  str_take 255 filename.

Definition is_upper (c : ascii) : bool :=
  let n := N_of_ascii c in ((65 <=? n) && (n <=? 90))%N.

Definition is_ascii (c : ascii) : bool := (N_of_ascii c <? 128)%N.

(** The characters a label is made of: lower-case letters, digits and
    the underscore. *)
Definition is_label_char (c : ascii) : bool := is_word c && negb (is_upper c).

(* ===================================================================== *)
(** * [app/crud]: the message and memory tables *)
(* ===================================================================== *)

(** [MessageCRUD.get_by_id] *)
Definition message_crud_get_by_id (message_id : string)
  : M (option Message.t) :=
  w ← get_world;
  mret (head (filter (λ m, Message.id m = message_id) (messages w))).

(** [MessageCRUD.get_by_msg_id] *)
Definition message_crud_get_by_msg_id (msg_id : string)
  : M (option Message.t) :=
  w ← get_world;
  mret (head (filter (λ m, Message.msgId m = msg_id) (messages w))).

(** [MessageCRUD.create_ai_message] *)
Definition message_crud_create_ai_message (user_id content intent : string)
    (meta : option Meta) : M Message.t :=
  msg_id ← generate_message_id "ai";
  message_crud_create user_id msg_id "ai" intent content meta.

(** [db.delete(message); db.commit()]: the row with the primary key of
    [message] goes. *)
Definition db_delete_message (message : Message.t) : M unit :=
  λ w, (Ok tt,
        with_messages w
          (filter (λ m, Message.id m ≠ Message.id message) (messages w))).

(** [MessageCRUD.delete] *)
Definition message_crud_delete (message_id : string) : M bool :=
  message ← message_crud_get_by_id message_id;
  match message with
  | None => mret false
  | Some message => _ ← db_delete_message message; mret true
  end.

(** [MessageCRUD.count_user_messages] *)
Definition message_crud_count_user_messages (user_id : string) : M nat :=
  w ← get_world;
  mret (length (user_messages w user_id)).

(** [MemoryCRUD.get_by_id] with its [include_deleted] parameter. *)
Definition memory_crud_get_by_id_with (memory_id : string)
    (include_deleted : bool) : M (option Memory.t) :=
  w ← get_world;
  mret (head (filter (λ m, Memory.id m = memory_id
                           ∧ (include_deleted = true
                              ∨ Memory.is_deleted m = false))
                     (memories w))).

(** [MemoryCRUD.get_user_memories] *)
Definition memory_crud_get_user_memories (user_id : string)
    (skip limit : nat) (include_deleted : bool) : M (list Memory.t) :=
  w ← get_world;
  mret (take limit (drop skip
         (merge_sort created_first
           (filter (λ m, Memory.user_id m = user_id
                         ∧ (include_deleted = true
                            ∨ Memory.is_deleted m = false))
                   (memories w))))).

(** [MemoryCRUD.get_recent_memories] *)
Definition memory_crud_get_recent_memories (user_id : string) (limit : nat)
  : M (list Memory.t) :=
  w ← get_world;
  mret (take limit
         (merge_sort created_first
           (filter (λ m, Memory.user_id m = user_id
                         ∧ Memory.is_deleted m = false)
                   (memories w)))).

(** [MemoryCRUD.count_user_memories] *)
Definition memory_crud_count_user_memories (user_id : string) : M nat :=
  w ← get_world;
  mret (length (filter (λ m, Memory.user_id m = user_id
                             ∧ Memory.is_deleted m = false)
                       (memories w))).

(** [memory.image_url = None] *)
Definition clear_image (m : Memory.t) : Memory.t :=
  {| Memory.id := Memory.id m; Memory.user_id := Memory.user_id m;
     Memory.image_url := None;
     Memory.description := Memory.description m;
     Memory.title := Memory.title m; Memory.labels := Memory.labels m;
     Memory.memory_date := Memory.memory_date m;
     Memory.created_at := Memory.created_at m;
     Memory.updated_at := Memory.updated_at m;
     Memory.is_deleted := Memory.is_deleted m;
     Memory.is_favorite := Memory.is_favorite m |}.

(** [memory.is_deleted = True] *)
Definition mark_deleted (m : Memory.t) : Memory.t :=
  {| Memory.id := Memory.id m; Memory.user_id := Memory.user_id m;
     Memory.image_url := Memory.image_url m;
     Memory.description := Memory.description m;
     Memory.title := Memory.title m; Memory.labels := Memory.labels m;
     Memory.memory_date := Memory.memory_date m;
     Memory.created_at := Memory.created_at m;
     Memory.updated_at := Memory.updated_at m;
     Memory.is_deleted := true;
     Memory.is_favorite := Memory.is_favorite m |}.

(** [onupdate=func.now()] of the column [updated_at]. *)
Definition touch (now : N) (m : Memory.t) : Memory.t :=
  {| Memory.id := Memory.id m; Memory.user_id := Memory.user_id m;
     Memory.image_url := Memory.image_url m;
     Memory.description := Memory.description m;
     Memory.title := Memory.title m; Memory.labels := Memory.labels m;
     Memory.memory_date := Memory.memory_date m;
     Memory.created_at := Memory.created_at m;
     Memory.updated_at := Some now;
     Memory.is_deleted := Memory.is_deleted m;
     Memory.is_favorite := Memory.is_favorite m |}.

Global Instance memory_eq_dec : EqDecision Memory.t.
Proof. solve_decision. Defined.

(** [db.commit()] after a change of one memory: the row with its
    primary key is rewritten. *)
Definition db_update_memory (memory_id : string) (f : Memory.t → Memory.t)
  : M unit :=
  λ w, (Ok tt,
        with_memories w
          ((λ m, if decide (Memory.id m = memory_id) then f m else m)
             <$> memories w)).

(** [MemoryCRUD.delete].  A commit that changes no column writes
    nothing, so [updated_at] moves only when the row does. *)
Definition memory_crud_delete (memory_id delete_type : string) : M bool :=
  memory ← memory_crud_get_by_id_with memory_id true;
  match memory with
  | None => mret false
  | Some memory =>
      let change :=
        if decide (delete_type = "photo") then clear_image
        else mark_deleted in
      if decide (change memory = memory) then mret true
      else
        now ← now_ms;
        _ ← db_update_memory (Memory.id memory)
              (λ m, touch (now / 1000)%N (change m));
        mret true
  end.

(** [MemoryCRUD.user_owns_memory], as the truth value its callers
    test. *)
Definition memory_crud_user_owns_memory (user_id memory_id : string)
  : M bool :=
  memory ← memory_crud_get_by_id memory_id;
  mret (match memory with
        | Some m => bool_decide (Memory.user_id m = user_id)
        | None => false
        end).

(* ===================================================================== *)
(** * [app/services/memory.py] and [app/api/memory.py] *)
(* ===================================================================== *)

(** [MemoryService.get_memory] *)
Definition memory_service_get_memory (memory_id : string) : M Meta :=
  memory ← memory_crud_get_by_id memory_id;
  match memory with
  | None =>
      raise (MemoryNotFoundError ("Memory " +:+ memory_id +:+ " not found"))
  | Some memory => mret (Memory.to_dict memory)
  end.

Definition memory_service_delete_memory (memory_id delete_type : string)
  : M Meta :=
  success ← memory_crud_delete memory_id delete_type;
  if (success : bool) then
    mret (list_to_map
            [ ("success", VBool true);
              ("message",
                VStr (if decide (delete_type = "memory")
                      then "Memory deleted successfully"
                      else "Photo deleted successfully"));
              ("memoryId", VStr memory_id) ] : Meta)
  else
    raise (MemoryNotFoundError ("Memory " +:+ memory_id +:+ " not found")).

Definition memory_service_get_user_memories (user_id : string)
    (skip limit : nat) : M (list Meta) :=
  memories ← memory_crud_get_user_memories user_id skip limit false;
  mret (Memory.to_dict <$> memories).

(** [app/api/memory.py]: what an endpoint function returns, or the
    status and detail of the [HTTPException] it raises. *)
Inductive api_result (A : Type) :=
| Returned (a : A)
| Raised (status_code : N) (detail : string)
| Failed (cause : exn).
Global Arguments Returned {A} a.
Global Arguments Raised {A} status_code detail.
Global Arguments Failed {A} cause.

(** A service error is an [HTTPException] already: the clause
    [except HTTPException as e: raise e] passes it on as it is.  Any
    other exception is answered with status 500 and a detail that
    quotes it ([Failed]). *)
Definition reraise {A} (e : exn) : api_result A :=
  match e with
  | MemoryNotFoundError detail => Raised 404 detail
  | IntegrityError _ => Failed e
  end.

(** [get_memory] of the memory API *)
Definition memory_api_get_memory (current_user_id memory_id : string)
    (w : World) : api_result Meta * World :=
  match memory_crud_user_owns_memory current_user_id memory_id w with
  | (Ok false, w) =>
      (Raised 403 "You don't have permission to access this memory", w)
  | (Ok true, w) =>
      match memory_service_get_memory memory_id w with
      | (Ok memory, w) => (Returned memory, w)
      | (Raise e, w) => (reraise e, w)
      end
  | (Raise e, w) => (reraise e, w)
  end.

(** [delete_memory] of the memory API *)
Definition memory_api_delete_memory
    (current_user_id memory_id delete_type : string)
    (w : World) : api_result Meta * World :=
  match memory_crud_user_owns_memory current_user_id memory_id w with
  | (Ok false, w) =>
      (Raised 403 "You don't have permission to delete this memory", w)
  | (Ok true, w) =>
      match memory_service_delete_memory memory_id delete_type w with
      | (Ok result, w) => (Returned result, w)
      | (Raise e, w) => (reraise e, w)
      end
  | (Raise e, w) => (reraise e, w)
  end.

(* ===================================================================== *)
(** * Vocabulary of the properties of whole turns and tables *)
(* ===================================================================== *)

(** From [w] to [w'] the clock was read [t] times, the database gained
    the memories [new_memories] and the messages [new_messages], in this
    order, and nothing else changed in it. *)
Definition db_step (t : nat) (w w' : World) (new_memories : list Memory.t)
    (new_messages : list Message.t) : Prop :=
  users w' = users w ∧ like w' = like w
  ∧ clock w' = clock w ∧ ticks w' = t + ticks w
  ∧ memories w' = memories w ++ new_memories
  ∧ messages w' = messages w ++ new_messages.

(** The eight hexadecimal digits [uuid.uuid4().hex[:8]] shows when it is
    called after [k] more random bytes have been handed out. *)
Definition uuid_at (k : nat) (w : World) : string :=
  hex ((λ i, entropy w (i + (k + draws w))) <$> seq 0 4).

(** The ids to come are fresh: wherever among the next [n] random bytes
    the id of a new row starts, it is not the id of a stored message or
    memory, and ids that start at different bytes are different. *)
Definition ids_fresh (n : nat) (w : World) : Prop :=
  let ids := (λ k, uuid_at k w) <$> seq 0 n in
  NoDup ids
  ∧ Forall (λ s, ("msg-" +:+ s ∉ Message.id <$> messages w)
                 ∧ ("mem-" +:+ s ∉ Memory.id <$> memories w)) ids.

(** The random bytes one turn of [process_message] draws at most: four
    for each msgId and sixteen for each row id, of the two messages and
    of the memory a photo creates. *)
Definition turn_draws : nat := 56.

(** What a run of [m] from [w] ends in: [Q] on a returned value, [E] on
    a raised exception.  The run draws at most [d] random bytes; ids
    that were fresh for the next [n] bytes stay fresh for the rest of
    them, and with fresh ids no insert is refused. *)
Definition run {A} (n d : nat) (m : M A) (w : World)
    (Q : A → World → Prop) (E : exn → World → Prop) : Prop :=
  match m w with
  | (Ok a, w') => Q a w' ∧ (ids_fresh n w → ids_fresh (n - d) w')
  | (Raise e, w') =>
      E e w' ∧ (ids_fresh n w → d ≤ n → ∀ table, e ≠ IntegrityError table)
  end.

(** The row [process_message] stores for the inbound message. *)
Definition user_row (uid : string) (req : ChatMessageRequest)
    (u : Message.t) : Prop :=
  Message.user_id u = uid
  ∧ Message.sender u = "user"
  ∧ Message.intent u = "user"
  ∧ Message.content u = text req
  ∧ Message.meta u = {[ "imageUrl" := opt_str (imageUrl req) ]}
  ∧ ∃ t h, Message.msgId u = format_message_id "user" t h.

(** The row a handler stores for the response it returns. *)
Definition ai_row (uid : string) (r : ChatMessageResponse)
    (a : Message.t) : Prop :=
  Message.user_id a = uid
  ∧ Message.sender a = "ai"
  ∧ Message.msgId a = msgId r
  ∧ Message.intent a = intent r
  ∧ Message.content a = content r
  ∧ Message.meta a = meta r.

(** The intent of the response as it follows from the classified intent
    and the request. *)
Definition response_intent_of (classified : string)
    (req : ChatMessageRequest) : string :=
  if decide (classified = "save_memory") then
    if Py.truthy (imageUrl req) then "add_description" else "save_memory"
  else if decide (classified = "delete_memory") then "confirm_delete"
  else if decide (classified ∈ dispatched_intents) then classified
  else "chat".

(** What the handler [h] of a message classified [i] ends in.  It
    returns the reply it has stored as the last row, after at most one
    new memory, with a property [P] of its own; or it raises: the
    database has refused a row, or the edit handler has not found the
    memory and nothing has happened yet. *)
Definition replies (n : nat) (uid i : string) (req : ChatMessageRequest)
    (h : M ChatMessageResponse) (w : World)
    (P : ChatMessageResponse → list Memory.t → Prop) : Prop :=
  run n 36 h w
    (λ r w', ∃ t mems a,
       t ≤ 3 ∧ db_step (S t) w w' mems [a] ∧ length mems ≤ 1
       ∧ ai_row uid r a
       ∧ Message.timestamp a = (clock w (t + ticks w) / 1000)%N
       ∧ intent r = response_intent_of i req
       ∧ P r mems)
    (λ e w', ∃ t mems,
       t ≤ 4 ∧ db_step t w w' mems [] ∧ length mems ≤ 1
       ∧ ((∃ table, e = IntegrityError table)
          ∨ (e = MemoryNotFoundError "Memory not found"
             ∧ t = 0 ∧ mems = [] ∧ i = "edit_memory"
             ∧ ∃ mid, memoryId req = Some mid ∧ mid ≠ ""
                      ∧ ¬ memory_exists w mid))).

(** What the save handler has done when it returns [r]: with an image
    (a non-empty [imageUrl]) it has created one memory that holds this
    image and nothing else, and names it in the metadata; without one
    it has created nothing and asks for the image. *)
Definition save_reply (uid : string) (req : ChatMessageRequest)
    (r : ChatMessageResponse) (mems : list Memory.t) : Prop :=
  match imageUrl req with
  | Some (String _ _ as url) =>
      ∃ memory,
        mems = [memory] ∧
        Memory.user_id memory = uid ∧
        Memory.image_url memory = Some url ∧
        Memory.title memory = None ∧
        Memory.description memory = None ∧
        Memory.labels memory = [] ∧
        meta r !! "memoryId" = Some (VStr (Memory.id memory)) ∧
        meta r !! "imageUrl" = Some (VStr url)
  | _ => mems = [] ∧ meta r !! "needImage" = Some (VBool true)
  end.

(** The active user with this id, as [UserCRUD.get_by_id] finds it. *)
Definition find_user (w : World) (uid : string) : option User.t :=
  head (filter (λ u, User.id u = uid ∧ User.is_active u = true) (users w)).

(** The memories [MemoryCRUD.search] selects for a query, before they
    are ordered and cut. *)
Definition matching_memories (w : World) (uid query : string)
  : list Memory.t :=
  filter (λ m, Memory.user_id m = uid ∧ Memory.is_deleted m = false
               ∧ like w (Py.lower query) m = true) (memories w).

(** The primary key of the table [memories]. *)
Definition memory_ids_unique (w : World) : Prop :=
  NoDup (Memory.id <$> memories w).

(** The row of [memory_id], deleted or not. *)
Definition memory_row (w : World) (memory_id : string) (m : Memory.t) : Prop :=
  m ∈ memories w ∧ Memory.id m = memory_id.

(** The change [MemoryCRUD.delete] makes to the row. *)
Definition deletion (delete_type : string) : Memory.t → Memory.t :=
  if decide (delete_type = "photo") then clear_image else mark_deleted.

Definition not_found (memory_id : string) : exn :=
  MemoryNotFoundError ("Memory " +:+ memory_id +:+ " not found").

(* ===================================================================== *)
(** * Example data for the memory table *)
(* ===================================================================== *)

(** A memory of the first user. *)
Definition beach : Memory.t :=
  {| Memory.id := "mem-0001"; Memory.user_id := "u1";
     Memory.image_url := Some "/u/beach.jpg";
     Memory.description := Some "a day at the beach";
     Memory.title := None; Memory.labels := ["beach"];
     Memory.memory_date := 1700000000; Memory.created_at := 1700000000;
     Memory.updated_at := None;
     Memory.is_deleted := false; Memory.is_favorite := false |}.

(** Another user's memory. *)
Definition sunset : Memory.t :=
  {| Memory.id := "mem-0002"; Memory.user_id := "u2";
     Memory.image_url := Some "/u/sunset.jpg";
     Memory.description := None;
     Memory.title := Some "Sunset"; Memory.labels := [];
     Memory.memory_date := 1700000500; Memory.created_at := 1700000500;
     Memory.updated_at := None;
     Memory.is_deleted := false; Memory.is_favorite := false |}.

(** A database with two memories of two users. *)
Definition album : World :=
  {| users := [alex]; memories := [beach; sunset]; messages := [];
     clock := λ n, (1700000900000 + N.of_nat n)%N; ticks := 0;
     entropy := λ n, byte_of_ascii (ascii_of_nat n);
     draws := 0;
     like := λ _ _, false |}.

(** A conversation store in which the first user is about to give a
    new password. *)
Definition awaiting_password : Contexts :=
  {[ "u1" := {[ "expected_intent" := "update_password" ]} ]}.

(* ===================================================================== *)
(** * Facts about the string primitives *)
(* ===================================================================== *)

Lemma str_app_cons (c : ascii) (s t : string) :
  String c s +:+ t = String c (s +:+ t).
Proof. reflexivity. Qed.

Lemma str_app_nil_l (s : string) : EmptyString +:+ s = s.
Proof. reflexivity. Qed.

Lemma str_app_nil_r (s : string) : s +:+ EmptyString = s.
Proof. induction s as [|c s IH]; [done|]. by rewrite str_app_cons, IH. Qed.

Lemma str_app_assoc (s t u : string) : (s +:+ t) +:+ u = s +:+ (t +:+ u).
Proof. induction s as [|c s IH]; [done|]. by rewrite !str_app_cons, IH. Qed.

Lemma str_length_app (s t : string) :
  String.length (s +:+ t) = String.length s + String.length t.
Proof. induction s as [|c s IH]; [done|]. rewrite str_app_cons. simpl. lia. Qed.

(** Two concatenations with left parts of the same length agree part by
    part. *)
Lemma str_app_inj_length (s1 s2 t1 t2 : string) :
  String.length s1 = String.length s2 →
  s1 +:+ t1 = s2 +:+ t2 → s1 = s2 ∧ t1 = t2.
Proof.
  revert s2. induction s1 as [|c s1 IH]; intros [|d s2] Hlen Heq;
    try discriminate Hlen.
  - done.
  - rewrite !str_app_cons in Heq. injection Heq as -> Heq.
    injection Hlen as Hlen. destruct (IH s2 Hlen Heq) as [-> ->]; done.
Qed.

Lemma strip_prefix_spec (p s r : string) :
  Py.strip_prefix p s = Some r ↔ s = p +:+ r.
Proof.
  revert s. induction p as [|a p IH]; intros s; simpl.
  - rewrite str_app_nil_l. split; congruence.
  - rewrite str_app_cons. destruct s as [|b s]; [split; discriminate|].
    destruct (Ascii.eqb_spec a b) as [->|Hne].
    + rewrite IH. split; congruence.
    + split; [discriminate|congruence].
Qed.

Lemma startswith_spec (s p : string) :
  Py.startswith s p = true ↔ ∃ r, s = p +:+ r.
Proof.
  unfold Py.startswith. destruct (Py.strip_prefix p s) as [r|] eqn:E.
  - apply strip_prefix_spec in E. naive_solver.
  - split; [done|]. intros [r Hr]. apply strip_prefix_spec in Hr. congruence.
Qed.

Lemma contains_unfold (sub s : string) :
  Py.contains sub s =
  if Py.startswith s sub then true
  else match s with
       | EmptyString => false
       | String _ s' => Py.contains sub s'
       end.
Proof. destruct s; reflexivity. Qed.

Lemma contains_spec (sub s : string) :
  Py.contains sub s = true ↔ occurs_in sub s.
Proof.
  unfold occurs_in. induction s as [|c s IH]; rewrite contains_unfold.
  - destruct (Py.startswith "" sub) eqn:E.
    + apply startswith_spec in E as [r Hr]. split; [|done].
      intros _. exists "", r. by rewrite str_app_nil_l.
    + split; [done|]. intros ([|??] & b & Hb); [|done].
      rewrite str_app_nil_l in Hb.
      assert (Py.startswith "" sub = true) by (apply startswith_spec; eauto).
      congruence.
  - destruct (Py.startswith (String c s) sub) eqn:E.
    + apply startswith_spec in E as [r Hr]. split; [|done].
      intros _. exists "", r. by rewrite str_app_nil_l.
    + rewrite IH. split.
      * intros (a & b & ->). exists (String c a), b. by rewrite str_app_cons.
      * intros ([|d a] & b & Hb).
        -- rewrite str_app_nil_l in Hb.
           assert (Py.startswith (String c s) sub = true)
             by (apply startswith_spec; eauto).
           congruence.
        -- rewrite str_app_cons in Hb. injection Hb as -> ->. eauto.
Qed.

Lemma startswith_char (a c : ascii) (g : string) :
  Py.startswith (String c g) (String a EmptyString) = Ascii.eqb a c.
Proof. unfold Py.startswith. simpl. by destruct (Ascii.eqb a c). Qed.

(** A string without a newline, through [contains]. *)
Lemma no_newline_cons (c : ascii) (g : string) :
  Py.contains (String newline EmptyString) (String c g) = false ↔
  c ≠ newline ∧ Py.contains (String newline EmptyString) g = false.
Proof.
  rewrite contains_unfold, startswith_char.
  destruct (Ascii.eqb_spec newline c) as [<-|Hne].
  - split; [discriminate|]. by intros [? _].
  - split; [|by intros [_ ?]]. intros ?. split; congruence.
Qed.

Lemma match_here_star_unfold (r : regex) (s : string) :
  match_here (DotStar :: r) s =
  if match_here r s then true
  else match s with
       | EmptyString => false
       | String c s' =>
           if Ascii.eqb c newline then false else match_here (DotStar :: r) s'
       end.
Proof. destruct s; reflexivity. Qed.

(** [match_here] decides whether some prefix of the text is in the
    language of the pattern. *)
Lemma match_here_spec (p : regex) (s : string) :
  match_here p s = true ↔ ∃ m b, s = m +:+ b ∧ denotes p m.
Proof.
  revert s. induction p as [|[w|] r IH]; intros s.
  - simpl. split; [|done]. intros _. exists "", s. by rewrite str_app_nil_l.
  - simpl. destruct (Py.strip_prefix w s) as [s'|] eqn:E.
    + apply strip_prefix_spec in E as ->. rewrite IH. split.
      * intros (m & b & -> & Hm). exists (w +:+ m), b.
        rewrite str_app_assoc. eauto.
      * intros (m & b & Heq & m' & -> & Hm). rewrite str_app_assoc in Heq.
        apply (inj (String.app w)) in Heq as ->. eauto.
    + split; [done|]. intros (m & b & -> & m' & -> & Hm).
      rewrite str_app_assoc in E.
      assert (Py.strip_prefix w (w +:+ m' +:+ b) = Some (m' +:+ b))
        by by apply strip_prefix_spec.
      congruence.
  - induction s as [|c s IHs]; rewrite match_here_star_unfold.
    + destruct (match_here r "") eqn:E.
      * apply IH in E as (m & b & Heq & Hm). split; [|done]. intros _.
        exists m, b. split; [done|]. exists "", m. by rewrite str_app_nil_l.
      * split; [done|]. intros (m & b & Heq & g & m' & -> & Hg & Hm).
        destruct g as [|??]; [|done]. rewrite str_app_nil_l in Heq.
        assert (match_here r "" = true) by (apply IH; eauto). congruence.
    + destruct (match_here r (String c s)) eqn:E.
      * apply IH in E as (m & b & Heq & Hm). split; [|done]. intros _.
        exists m, b. split; [done|]. exists "", m. by rewrite str_app_nil_l.
      * destruct (Ascii.eqb_spec c newline) as [->|Hne].
        -- split; [done|]. intros (m & b & Heq & g & m' & -> & Hg & Hm).
           destruct g as [|d g].
           ++ rewrite str_app_nil_l in Heq.
              assert (match_here r (String newline s) = true)
                by (apply IH; eauto).
              congruence.
           ++ rewrite !str_app_cons in Heq. injection Heq as <- _.
              apply no_newline_cons in Hg as [? _]. done.
        -- rewrite IHs. split.
           ++ intros (m & b & -> & g & m' & -> & Hg & Hm).
              exists (String c (g +:+ m')), b. split; [done|].
              exists (String c g), m'. split; [done|].
              split; [|done]. by apply no_newline_cons.
           ++ intros (m & b & Heq & g & m' & -> & Hg & Hm).
              destruct g as [|d g].
              ** rewrite str_app_nil_l in Heq.
                 assert (match_here r (String c s) = true)
                   by (apply IH; eauto).
                 congruence.
              ** rewrite !str_app_cons in Heq. injection Heq as <- ->.
                 apply no_newline_cons in Hg as [_ Hg].
                 exists (g +:+ m'), b. split; [done|]. by exists g, m'.
Qed.

Lemma search_unfold (p : regex) (s : string) :
  Re.search p s =
  if match_here p s then true
  else match s with
       | EmptyString => false
       | String _ s' => Re.search p s'
       end.
Proof. destruct s; reflexivity. Qed.

Lemma search_spec (p : regex) (t : string) :
  Re.search p t = true ↔ found p t.
Proof.
  unfold found. induction t as [|c t IH]; rewrite search_unfold.
  - destruct (match_here p "") eqn:E.
    + apply match_here_spec in E as (m & b & Heq & Hm). split; [|done].
      intros _. exists "", m, b. by rewrite str_app_nil_l.
    + split; [done|]. intros ([|??] & m & b & Heq & Hm); [|done].
      rewrite str_app_nil_l in Heq.
      assert (match_here p "" = true) by (apply match_here_spec; eauto).
      congruence.
  - destruct (match_here p (String c t)) eqn:E.
    + apply match_here_spec in E as (m & b & Heq & Hm). split; [|done].
      intros _. exists "", m, b. by rewrite str_app_nil_l.
    + rewrite IH. split.
      * intros (a & m & b & -> & Hm). exists (String c a), m, b.
        by rewrite str_app_cons.
      * intros ([|d a] & m & b & Heq & Hm).
        -- rewrite str_app_nil_l in Heq.
           assert (match_here p (String c t) = true)
             by (apply match_here_spec; eauto).
           congruence.
        -- rewrite str_app_cons in Heq. injection Heq as <- ->. eauto.
Qed.

Global Instance occurs_in_dec (w t : string) : Decision (occurs_in w t).
Proof.
  refine (cast_if (decide (Py.contains w t = true)));
    abstract (by rewrite <- contains_spec).
Defined.

Global Instance found_dec (p : regex) (t : string) : Decision (found p t).
Proof.
  refine (cast_if (decide (Re.search p t = true)));
    abstract (by rewrite <- search_spec).
Defined.

(** Settle a decidable closed proposition by evaluating its decision
    procedure. *)
Ltac by_decide :=
  lazy zeta;
  lazymatch goal with
  | |- ?P => apply (bool_decide_unpack P); vm_compute; exact I
  end.

(* ===================================================================== *)
(** * The classifier *)
(* ===================================================================== *)

Lemma ctx_item_lookup (key : string) (c : Context) :
  ctx_item key (Some c) = c !! key.
Proof.
  unfold ctx_item. case_bool_decide as Hc; [|done].
  subst c. by rewrite lookup_empty.
Qed.

Lemma ctx_item_no_key (key : string) (current_context : option Context) :
  no_key key current_context → ctx_item key current_context = None.
Proof.
  destruct current_context as [c|]; [|done].
  intros H. by rewrite ctx_item_lookup.
Qed.

Lemma any_pattern_spec (patterns : list regex) (t : string) :
  any_pattern patterns t = true ↔ ∃ p, p ∈ patterns ∧ found p t.
Proof.
  induction patterns as [|q qs IH]; simpl.
  - split; [done|]. intros (p & Hp & _). by apply elem_of_nil in Hp.
  - destruct (Re.search q t) eqn:E.
    + split; [|done]. intros _. exists q.
      split; [apply elem_of_cons; by left|]. by apply search_spec.
    + rewrite IH. split.
      * intros (p & Hp & Hf). exists p.
        split; [apply elem_of_cons; by right|done].
      * intros (p & Hp & Hf). apply elem_of_cons in Hp as [->|Hp].
        -- apply search_spec in Hf. congruence.
        -- by exists p.
Qed.

Lemma any_pattern_none (patterns : list regex) (t : string) :
  any_pattern patterns t = false ↔ ∀ p, p ∈ patterns → ¬ found p t.
Proof.
  rewrite <- not_true_iff_false, any_pattern_spec. split.
  - intros H p Hp Hf. apply H. by exists p.
  - intros H (p & Hp & Hf). by apply (H p).
Qed.

(** The scan returns the first entry one of whose patterns is found. *)
Lemma scan_patterns_first (table : list (string * list regex)) (t : string)
    (k : nat) (intent : string) (patterns : list regex) :
  table !! k = Some (intent, patterns) →
  any_pattern patterns t = true →
  (∀ j i ps, j < k → table !! j = Some (i, ps) → any_pattern ps t = false) →
  scan_patterns table t = Some intent.
Proof.
  revert k. induction table as [|[i0 ps0] rest IH]; intros k Hk Hany Hbefore.
  - by rewrite lookup_nil in Hk.
  - simpl. destruct k as [|k].
    + injection Hk as -> ->. by rewrite Hany.
    + rewrite (Hbefore 0 i0 ps0) by (done || lia).
      apply (IH k); [done..|].
      intros j i ps Hj Hlk. apply (Hbefore (S j) i ps); [lia|done].
Qed.

Lemma scan_patterns_none (table : list (string * list regex)) (t : string) :
  (∀ i ps, (i, ps) ∈ table → any_pattern ps t = false) →
  scan_patterns table t = None.
Proof.
  induction table as [|[i0 ps0] rest IH]; intros H; [done|].
  simpl. rewrite (H i0 ps0) by (apply elem_of_cons; by left).
  apply IH. intros i ps Hin. apply (H i). apply elem_of_cons. by right.
Qed.

Lemma scan_patterns_range (table : list (string * list regex)) (t : string)
    (intent : string) :
  scan_patterns table t = Some intent → intent ∈ table.*1.
Proof.
  induction table as [|[i0 ps0] rest IH]; [done|].
  rewrite fmap_cons, elem_of_cons. simpl.
  destruct (any_pattern ps0 t).
  - intros [= ->]. by left.
  - intros H. right. by apply IH.
Qed.

(** Without the two context keys the classifier is the table scan with
    the [chat] default. *)
Lemma detect_intent_no_context (text : string)
    (current_context : option Context) :
  no_key "expected_intent" current_context →
  no_key "memory_id" current_context →
  detect_intent text current_context =
  default "chat" (scan_patterns intent_patterns (Py.lower text)).
Proof.
  intros H1 H2. unfold detect_intent, focus_intent.
  rewrite (ctx_item_no_key _ _ H1), (ctx_item_no_key _ _ H2).
  by destruct (scan_patterns _ _).
Qed.

(** C1: if the context carries an expected intent, the classifier
    returns exactly that intent, whatever the text says; so a context
    expecting [confirm_delete] classifies every text as
    [confirm_delete]. *)
Theorem detect_intent_expected (text : string) (c : Context)
    (expected : string) :
  c !! "expected_intent" = Some expected →
  detect_intent text (Some c) = expected.
Proof.
  intros H. unfold detect_intent. by rewrite ctx_item_lookup, H.
Qed.

Lemma detect_intent_expected_witness :
  detect_intent "please save this memory"
    (Some {[ "expected_intent" := "confirm_delete" ]}) = "confirm_delete".
Proof. apply detect_intent_expected. vm_compute. reflexivity. Defined.

(** C3: with no expected intent but a memory in focus, a lower-cased
    text containing "change", "edit" or "update" is classified
    [edit_memory]; otherwise one containing "delete" or "remove" is
    classified [delete_memory].  The pattern table is not consulted in
    either case. *)
Theorem detect_intent_memory_in_focus (text : string) (c : Context)
    (mid : string) :
  c !! "expected_intent" = None →
  c !! "memory_id" = Some mid →
  let t := Py.lower text in
  let edit_word :=
    occurs_in "change" t ∨ occurs_in "edit" t ∨ occurs_in "update" t in
  let delete_word := occurs_in "delete" t ∨ occurs_in "remove" t in
  (edit_word → detect_intent text (Some c) = "edit_memory") ∧
  (¬ edit_word → delete_word → detect_intent text (Some c) = "delete_memory").
Proof.
  intros Hexp Hmid t edit_word delete_word.
  unfold detect_intent, focus_intent.
  rewrite !ctx_item_lookup, Hexp, Hmid. fold t.
  assert (Py.contains "change" t || Py.contains "edit" t
          || Py.contains "update" t = true ↔ edit_word) as Hedit.
  { unfold edit_word. rewrite !orb_true_iff, !contains_spec. tauto. }
  assert (Py.contains "delete" t || Py.contains "remove" t = true
          ↔ delete_word) as Hdel.
  { unfold delete_word. rewrite !orb_true_iff, !contains_spec. tauto. }
  destruct (_ || _ || _) eqn:E1.
  - split; [done|]. intros Hn. destruct Hn. by apply Hedit.
  - split; [intros He; apply Hedit in He; congruence|].
    intros _ Hd. apply Hdel in Hd. by rewrite Hd.
Qed.

Lemma detect_intent_memory_in_focus_witness :
  detect_intent "I want to delete this photo"
    (Some {[ "memory_id" := "mem-1" ]}) = "delete_memory".
Proof.
  refine (proj2 (detect_intent_memory_in_focus
                   "I want to delete this photo"
                   {[ "memory_id" := "mem-1" ]} "mem-1" _ _) _ _).
  - vm_compute. reflexivity.
  - vm_compute. reflexivity.
  - by_decide.
  - by_decide.
Defined.

(** The in-focus branch wins over the table: this text is a
    [save_memory] request for the table, and a [delete_memory] request
    once a memory is in focus. *)
Example focus_before_table :
  detect_intent "save the memory, delete the rest" None = "save_memory" ∧
  detect_intent "save the memory, delete the rest"
    (Some {[ "memory_id" := "mem-1" ]}) = "delete_memory".
Proof. split; vm_compute; reflexivity. Qed.

(** C4: with neither key in the context, the classifier scans the table
    in the order save_memory, search_memory, delete_memory, edit_memory,
    update_name, update_avatar, update_password and returns the intent of
    the first entry one of whose patterns is found in the lower-cased
    text; if no pattern is found it returns [chat].  It always returns. *)
Theorem detect_intent_table_scan (text : string)
    (current_context : option Context) :
  no_key "expected_intent" current_context →
  no_key "memory_id" current_context →
  let t := Py.lower text in
  intent_patterns.*1 =
    [ "save_memory"; "search_memory"; "delete_memory"; "edit_memory";
      "update_name"; "update_avatar"; "update_password" ] ∧
  (∀ k intent patterns,
     intent_patterns !! k = Some (intent, patterns) →
     (∃ p, p ∈ patterns ∧ found p t) →
     (∀ j intent' patterns' p, j < k →
        intent_patterns !! j = Some (intent', patterns') →
        p ∈ patterns' → ¬ found p t) →
     detect_intent text current_context = intent) ∧
  ((∀ intent patterns p,
      (intent, patterns) ∈ intent_patterns → p ∈ patterns → ¬ found p t) →
   detect_intent text current_context = "chat") ∧
  (detect_intent text current_context = "chat" ∨
   detect_intent text current_context ∈ intent_patterns.*1).
Proof.
  intros H1 H2 t. rewrite (detect_intent_no_context _ _ H1 H2). fold t.
  split; [done|]. split; [|split].
  - intros k intent patterns Hk Hsome Hbefore.
    rewrite (scan_patterns_first _ t k intent patterns); [done|done|..].
    + by apply any_pattern_spec.
    + intros j i ps Hj Hlk. apply any_pattern_none.
      intros p Hp. by apply (Hbefore j i ps p).
  - intros Hnone. rewrite scan_patterns_none; [done|].
    intros i ps Hin. apply any_pattern_none. intros p Hp.
    by apply (Hnone i ps p).
  - destruct (scan_patterns intent_patterns t) as [i|] eqn:E; [|by left].
    right. by apply scan_patterns_range in E.
Qed.

Lemma detect_intent_table_scan_witness :
  detect_intent "please search memory of my trip" None = "search_memory".
Proof.
  refine (proj1 (proj2 (detect_intent_table_scan
            "please search memory of my trip" None I I))
            1 "search_memory" _ eq_refl _ _).
  - exists [Lit "search"; DotStar; Lit "memory"].
    split; [apply elem_of_cons; by left|].
    by_decide.
  - intros j intent' patterns' p Hj Hlk Hp.
    destruct j as [|j]; [|lia]. injection Hlk as <- <-.
    revert p Hp. apply Forall_forall. by_decide.
Defined.

(* ===================================================================== *)
(** * Reasoning about computations in [M] *)
(* ===================================================================== *)

(** The operations are reasoned about through their specifications;
    [simpl] leaves them folded. *)
Global Arguments detect_intent : simpl never.
Global Arguments generate_message_id : simpl never.
Global Arguments generate_response : simpl never.
Global Arguments message_crud_create : simpl never.
Global Arguments message_crud_create_user_message : simpl never.
Global Arguments memory_crud_create : simpl never.
Global Arguments memory_crud_get_by_id : simpl never.
Global Arguments user_crud_get_by_id : simpl never.
Global Arguments save_ai_message : simpl never.
Global Arguments dispatch : simpl never.
Global Arguments process_message : simpl never.
Global Arguments update_context : simpl never.
Global Arguments send_chat_message : simpl never.

Section wp_rules.
Context {A B : Type}.

Lemma wp_ret (a : A) (w : World) (Q : A → World → Prop) :
  Q a w → wp (mret a) w Q.
Proof. intros H. by exists a, w. Qed.

Lemma wp_bind (m : M A) (f : A → M B) (w : World)
    (Q : B → World → Prop) :
  wp m w (λ a w', wp (f a) w' Q) → wp (m ≫= f) w Q.
Proof.
  intros (a & w' & Hm & b & w'' & Hf & HQ). exists b, w''.
  split; [|done]. unfold mbind, M_bind. by rewrite Hm.
Qed.

Lemma wp_mono (m : M A) (w : World) (Q Q' : A → World → Prop) :
  wp m w Q → (∀ a w', Q a w' → Q' a w') → wp m w Q'.
Proof. intros (a & w' & Hm & HQ) H. exists a, w'. auto. Qed.

(** An exception raised by the first computation ends the sequence. *)
Lemma bind_raise (m : M A) (f : A → M B) (w w' : World) (e : exn) :
  m w = (Raise e, w') → (m ≫= f) w = (Raise e, w').
Proof. intros Hm. unfold mbind, M_bind. by rewrite Hm. Qed.

Lemma bind_ok (m : M A) (f : A → M B) (w w' : World) (a : A) :
  m w = (Ok a, w') → (m ≫= f) w = f a w'.
Proof. intros Hm. unfold mbind, M_bind. by rewrite Hm. Qed.
End wp_rules.

(** Use a known specification [H] for the first computation of a
    sequence and continue with its postcondition. *)
Ltac wp_step H :=
  apply wp_bind; eapply wp_mono; [apply H|]; cbv beta.

Lemma wp_get_world (w : World) :
  wp get_world w (λ a w', a = w ∧ w' = w).
Proof. by exists w, w. Qed.

Lemma wp_now_ms (w : World) :
  wp now_ms w (λ t w', t = clock w (ticks w) ∧ memories w' = memories w).
Proof. by eexists _, _. Qed.

Lemma wp_random_byte (w : World) :
  wp random_byte w (λ _ w', memories w' = memories w).
Proof. by eexists _, _. Qed.

Lemma wp_token_bytes (n : nat) (w : World) :
  wp (token_bytes n) w (λ bs w', length bs = n ∧ memories w' = memories w).
Proof.
  revert w. induction n as [|n IH]; intros w; simpl.
  - by apply wp_ret.
  - wp_step wp_random_byte. intros b w1 H1.
    wp_step IH. intros bs w2 [Hlen H2].
    apply wp_ret. simpl. split; [by rewrite Hlen|congruence].
Qed.

Lemma wp_uuid4_hex8 (w : World) :
  wp uuid4_hex8 w (λ _ w', memories w' = memories w).
Proof.
  unfold uuid4_hex8. wp_step wp_token_bytes. intros bs w1 [_ H1].
  by apply wp_ret.
Qed.

Lemma wp_generate_message_id (prefix : string) (w : World) :
  wp (generate_message_id prefix) w (λ _ w', memories w' = memories w).
Proof.
  unfold generate_message_id. wp_step wp_now_ms. intros t w1 [_ H1].
  unfold token_hex. apply wp_bind. wp_step wp_token_bytes.
  intros bs w2 [_ H2]. apply wp_ret. apply wp_ret. congruence.
Qed.

Lemma wp_generate_response (intent0 : string)
    (user_data context : option Context) (w : World) :
  wp (generate_response intent0 user_data context) w
     (λ r w', intent r = intent0
              ∧ content r = render_content intent0 user_data context
              ∧ meta r = intent_meta intent0
              ∧ sender r = "ai"
              ∧ memories w' = memories w).
Proof.
  unfold generate_response, generate_ai_message_id.
  wp_step wp_generate_message_id. intros msg_id w1 H1.
  wp_step wp_now_ms. intros t w2 [_ H2].
  apply wp_ret. simpl. repeat split; congruence.
Qed.

Lemma wp_user_crud_get_by_id (user_id : string) (w : World) :
  wp (user_crud_get_by_id user_id) w (λ _ w', w' = w).
Proof.
  unfold user_crud_get_by_id. wp_step wp_get_world. intros ? ? [-> ->].
  by apply wp_ret.
Qed.

Lemma advance_advance (t1 d1 t2 d2 : nat) (w : World) :
  advance t2 d2 (advance t1 d1 w) = advance (t1 + t2) (d1 + d2) w.
Proof. unfold advance. cbn. f_equal; lia. Qed.

Lemma token_bytes_run (n : nat) (w : World) :
  token_bytes n w = (Ok (drawn n w), advance 0 n w).
Proof.
  revert w. induction n as [|n IH]; intros w.
  - by destruct w.
  - cbn [token_bytes].
    rewrite (bind_ok _ _ w (advance 0 1 w) (entropy w (draws w))) by done.
    rewrite (bind_ok _ _ _ _ _ (IH (advance 0 1 w))).
    rewrite advance_advance. unfold mret, M_ret. f_equal. f_equal.
    unfold drawn. cbn [seq fmap list_fmap]. f_equal.
    rewrite <- fmap_S_seq, <- list_fmap_compose.
    apply list_fmap_ext. intros _ i _. cbn. f_equal. lia.
Qed.

Lemma uuid4_hex8_run (w : World) :
  uuid4_hex8 w = (Ok (hex (take 4 (drawn 16 w))), advance 0 16 w).
Proof.
  unfold uuid4_hex8. by rewrite (bind_ok _ _ _ _ _ (token_bytes_run 16 w)).
Qed.

Lemma now_ms_run (w : World) :
  now_ms w = (Ok (clock w (ticks w)), advance 1 0 w).
Proof. reflexivity. Qed.

(** The generator reads the clock once and draws four bytes. *)
Lemma generate_message_id_run (prefix : string) (w : World) :
  generate_message_id prefix w
  = (Ok (format_message_id prefix (clock w (ticks w)) (hex (drawn 4 w))),
     advance 1 4 w).
Proof. reflexivity. Qed.

(** The renderer takes its msgId from the generator and reads the clock
    once more for the timestamp. *)
Lemma generate_response_run (i : string) (user_data context : option Context)
    (w : World) :
  generate_response i user_data context w
  = (Ok {| msgId := format_message_id "ai" (clock w (ticks w))
                      (hex (drawn 4 w));
           sender := "ai";
           intent := i;
           content := render_content i user_data context;
           meta := intent_meta i;
           timestamp := (clock w (S (ticks w)) / 1000)%N |},
     advance 2 4 w).
Proof. reflexivity. Qed.

Lemma user_crud_get_by_id_run (uid : string) (w : World) :
  user_crud_get_by_id uid w = (Ok (find_user w uid), w).
Proof. reflexivity. Qed.

Lemma memory_crud_get_by_id_run (mid : string) (w : World) :
  memory_crud_get_by_id mid w
  = (Ok (head (filter (λ m, Memory.id m = mid ∧ Memory.is_deleted m = false)
                      (memories w))), w).
Proof. reflexivity. Qed.

Lemma memory_crud_search_run (uid query : string) (limit : nat) (w : World) :
  memory_crud_search uid query limit w
  = (Ok (take limit (merge_sort created_first (matching_memories w uid query))),
     w).
Proof. reflexivity. Qed.

Lemma get_by_id_found (w : World) (mid : string) :
  is_Some (head (filter (λ m, Memory.id m = mid ∧ Memory.is_deleted m = false)
                        (memories w)))
  ↔ memory_exists w mid.
Proof.
  unfold memory_exists. split.
  - intros [m Hm]. exists m. apply head_Some_elem_of in Hm.
    apply list_elem_of_filter in Hm as [[? ?] ?]. done.
  - intros (m & Hin & Hid & Hdel).
    destruct (filter _ (memories w)) as [|m0 l] eqn:E; [|by eexists].
    assert (m ∈ filter (λ m, Memory.id m = mid ∧ Memory.is_deleted m = false)
                  (memories w)) as H by (by apply list_elem_of_filter).
    rewrite E in H. by apply elem_of_nil in H.
Qed.

(* ===================================================================== *)
(** * Rows, ids and both outcomes of a computation *)
(* ===================================================================== *)

Lemma db_step_refl (w : World) : db_step 0 w w [] [].
Proof. unfold db_step. by rewrite !app_nil_r. Qed.

Lemma db_step_trans (t1 t2 : nat) (w1 w2 w3 : World)
    (ms1 ms2 : list Memory.t) (gs1 gs2 : list Message.t) :
  db_step t1 w1 w2 ms1 gs1 → db_step t2 w2 w3 ms2 gs2 →
  db_step (t1 + t2) w1 w3 (ms1 ++ ms2) (gs1 ++ gs2).
Proof.
  intros (Hu1 & Hl1 & Hc1 & Ht1 & Hm1 & Hg1) (Hu2 & Hl2 & Hc2 & Ht2 & Hm2 & Hg2).
  unfold db_step.
  rewrite Hu2, Hu1, Hl2, Hl1, Hc2, Hc1, Hm2, Hm1, Hg2, Hg1, !app_assoc.
  repeat split; try done. lia.
Qed.

Lemma db_step_advance (t d : nat) (w : World) :
  db_step t w (advance t d w) [] [].
Proof.
  unfold db_step. cbn [advance users like clock ticks memories messages].
  by rewrite !app_nil_r.
Qed.

(** ** Fresh ids *)

Lemma str_app_inv_head (p a b : string) : p +:+ a = p +:+ b → a = b.
Proof.
  induction p as [|c p IH]; [done|].
  rewrite !str_app_cons. intros [= H]. by apply IH.
Qed.

Lemma uuid_at_drawn (w : World) : hex (take 4 (drawn 16 w)) = uuid_at 0 w.
Proof. reflexivity. Qed.

Lemma uuid_at_shift (k d : nat) (w w' : World) :
  entropy w' = entropy w → draws w' = d + draws w →
  uuid_at k w' = uuid_at (k + d) w.
Proof.
  intros He Hd. unfold uuid_at. rewrite He, Hd. f_equal.
  apply list_fmap_ext. intros _ i _. f_equal. lia.
Qed.

Lemma ids_fresh_spec (n : nat) (w : World) :
  ids_fresh n w ↔
    (∀ j k, j < k → k < n → uuid_at j w ≠ uuid_at k w)
    ∧ (∀ k, k < n → "msg-" +:+ uuid_at k w ∉ Message.id <$> messages w)
    ∧ (∀ k, k < n → "mem-" +:+ uuid_at k w ∉ Memory.id <$> memories w).
Proof.
  unfold ids_fresh. cbv zeta. rewrite Forall_fmap, Forall_seq. split.
  - intros [Hnd Hall]. split; [|split].
    + intros j k Hjk Hk Heq.
      assert (j = k); [|lia].
      apply (proj1 (NoDup_alt _) Hnd j k (uuid_at j w)).
      * rewrite list_lookup_fmap, lookup_seq_lt by lia. done.
      * rewrite list_lookup_fmap, lookup_seq_lt by lia. by rewrite Heq.
    + intros k Hk. apply (Hall k). lia.
    + intros k Hk. apply (Hall k). lia.
  - intros (Hne & Hmsg & Hmem). split.
    + apply NoDup_fmap_2_strong; [|apply NoDup_seq].
      intros j k Hj Hk Heq. apply elem_of_seq in Hj, Hk.
      destruct (decide (j = k)) as [|Hjk]; [done|]. exfalso.
      destruct (decide (j < k)).
      * apply (Hne j k); [lia..|done].
      * apply (Hne k j); [lia..|done].
    + intros k Hk. split; [apply Hmsg|apply Hmem]; lia.
Qed.

Global Instance ids_fresh_dec (n : nat) (w : World) : Decision (ids_fresh n w).
Proof. unfold ids_fresh. apply _. Defined.

Lemma ids_fresh_le (n m : nat) (w : World) :
  ids_fresh n w → m ≤ n → ids_fresh m w.
Proof.
  rewrite !ids_fresh_spec. intros (Hne & Hmsg & Hmem) Hle.
  split; [|split]; intros; [apply Hne|apply Hmsg|apply Hmem]; lia.
Qed.

(** The ids stay fresh when [d] bytes are drawn and each row stored
    meanwhile took its id from one of them. *)
Lemma ids_fresh_step (n d : nat) (w w' : World) :
  ids_fresh n w →
  entropy w' = entropy w → draws w' = d + draws w →
  (∀ x, x ∈ Message.id <$> messages w' →
     x ∈ Message.id <$> messages w
     ∨ ∃ j, j < d ∧ x = "msg-" +:+ uuid_at j w) →
  (∀ x, x ∈ Memory.id <$> memories w' →
     x ∈ Memory.id <$> memories w
     ∨ ∃ j, j < d ∧ x = "mem-" +:+ uuid_at j w) →
  ids_fresh (n - d) w'.
Proof.
  rewrite !ids_fresh_spec. intros (Hne & Hmsg & Hmem) He Hd Hgs Hms.
  split; [|split].
  - intros j k Hjk Hk. rewrite !(uuid_at_shift _ d w w') by done.
    apply Hne; lia.
  - intros k Hk Hin. rewrite (uuid_at_shift _ d w w') in Hin by done.
    destruct (Hgs _ Hin) as [Hold|(j & Hj & Heq)].
    + revert Hold. apply Hmsg. lia.
    + apply str_app_inv_head in Heq. symmetry in Heq. revert Heq.
      apply Hne; lia.
  - intros k Hk Hin. rewrite (uuid_at_shift _ d w w') in Hin by done.
    destruct (Hms _ Hin) as [Hold|(j & Hj & Heq)].
    + revert Hold. apply Hmem. lia.
    + apply str_app_inv_head in Heq. symmetry in Heq. revert Heq.
      apply Hne; lia.
Qed.

Lemma ids_fresh_advance (n t d : nat) (w : World) :
  ids_fresh n w → ids_fresh (n - d) (advance t d w).
Proof.
  intros H. apply (ids_fresh_step n d w); [done..| |]; intros x Hx; by left.
Qed.

(** ** The rules of [run] *)

Section run_rules.
Context {A B : Type}.

Lemma run_ret (n : nat) (a : A) (w : World) (Q : A → World → Prop)
    (E : exn → World → Prop) :
  Q a w → run n 0 (mret a) w Q E.
Proof. intros H. split; [done|]. by rewrite Nat.sub_0_r. Qed.

Lemma run_raise (n : nat) (e : exn) (w : World) (Q : A → World → Prop)
    (E : exn → World → Prop) :
  E e w → (∀ table, e ≠ IntegrityError table) → run n 0 (raise e) w Q E.
Proof. intros H Hne. split; [done|]. intros _ _. exact Hne. Qed.

Lemma run_bind (n d1 d2 : nat) (m : M A) (f : A → M B) (w : World)
    (Q : B → World → Prop) (E : exn → World → Prop) :
  run n d1 m w (λ a w', run (n - d1) d2 (f a) w' Q E) E →
  run n (d1 + d2) (m ≫= f) w Q E.
Proof.
  unfold run, mbind, M_bind. destruct (m w) as [[a|e] w1].
  - intros [Hf H1]. destruct (f a w1) as [[b|e] w2].
    + destruct Hf as [HQ H2]. split; [done|]. intros Hn.
      rewrite Nat.sub_add_distr. auto.
    + destruct Hf as [HE H2]. split; [done|]. intros Hn Hle.
      apply H2; [auto|lia].
  - intros [HE H1]. split; [done|]. intros Hn Hle. apply H1; [done|lia].
Qed.

(** A computation that never raises and stores nothing. *)
Lemma run_pure (n t d : nat) (m : M A) (a : A) (w : World)
    (Q : A → World → Prop) (E : exn → World → Prop) :
  m w = (Ok a, advance t d w) → Q a (advance t d w) → run n d m w Q E.
Proof.
  intros Hm HQ. unfold run. rewrite Hm. split; [done|].
  apply ids_fresh_advance.
Qed.

Lemma run_mono (n d d' : nat) (m : M A) (w : World)
    (Q Q' : A → World → Prop) (E E' : exn → World → Prop) :
  run n d m w Q E → d ≤ d' →
  (∀ a w', Q a w' → Q' a w') → (∀ e w', E e w' → E' e w') →
  run n d' m w Q' E'.
Proof.
  unfold run. destruct (m w) as [[a|e] w']; intros [H1 H2] Hle HQ HE.
  - split; [auto|]. intros Hn. apply (ids_fresh_le (n - d)); [auto|lia].
  - split; [auto|]. intros Hn Hle'. apply H2; [done|lia].
Qed.

End run_rules.

Lemma run_seq {A B} (n d1 d2 d : nat) (m : M A) (f : A → M B) (w : World)
    (Q : B → World → Prop) (E : exn → World → Prop) :
  d1 + d2 ≤ d →
  run n d1 m w (λ a w', run (n - d1) d2 (f a) w' Q E) E →
  run n d (m ≫= f) w Q E.
Proof.
  intros Hle H. apply (run_mono n (d1 + d2) d _ w Q Q E E); [|done..].
  by apply run_bind.
Qed.

(** ** Inserting a row *)

Lemma run_message_crud_create (n : nat)
    (uid msg_id sender0 intent0 content0 : string) (meta0 : option Meta)
    (w : World) :
  run n 16 (message_crud_create uid msg_id sender0 intent0 content0 meta0) w
    (λ row w', db_step 1 w w' [] [row]
               ∧ Message.id row = "msg-" +:+ uuid_at 0 w
               ∧ (Message.id row ∉ Message.id <$> messages w)
               ∧ Message.user_id row = uid ∧ Message.msgId row = msg_id
               ∧ Message.sender row = sender0 ∧ Message.intent row = intent0
               ∧ Message.content row = content0
               ∧ Message.meta row = default ∅ meta0
               ∧ Message.timestamp row = (clock w (ticks w) / 1000)%N)
    (λ e w', e = IntegrityError "messages" ∧ db_step 1 w w' [] []
             ∧ "msg-" +:+ uuid_at 0 w ∈ Message.id <$> messages w).
Proof.
  unfold run, message_crud_create.
  rewrite (bind_ok _ _ _ _ _ (uuid4_hex8_run w)).
  rewrite (bind_ok _ _ _ _ _ (now_ms_run _)).
  rewrite advance_advance, uuid_at_drawn.
  unfold mbind, M_bind, db_add_message.
  cbn [Message.id messages advance clock ticks Nat.add].
  destruct (decide _) as [Hin|Hnew].
  - split; [split; [done|]; split; [apply db_step_advance|done]|].
    intros Hn Hle. exfalso. apply ids_fresh_spec in Hn as (_ & Hmsg & _).
    apply (Hmsg 0); [lia|done].
  - split.
    + split; [|by repeat split].
      unfold db_step. cbn. by rewrite app_nil_r.
    + intros Hn. apply (ids_fresh_step n 16 w); [done..| |].
      * cbn [messages with_messages]. intros x Hx.
        rewrite fmap_app, elem_of_app in Hx. destruct Hx as [Hx|Hx]; [by left|].
        right. exists 0. split; [lia|].
        by apply list_elem_of_singleton in Hx.
      * intros x Hx. by left.
Qed.

Lemma run_memory_crud_create (n : nat) (uid : string) (image : option string)
    (w : World) :
  run n 16 (memory_crud_create uid image None None None) w
    (λ m w', db_step 1 w w' [m] []
             ∧ Memory.id m = "mem-" +:+ uuid_at 0 w
             ∧ (Memory.id m ∉ Memory.id <$> memories w)
             ∧ Memory.user_id m = uid ∧ Memory.image_url m = image
             ∧ Memory.title m = None ∧ Memory.description m = None
             ∧ Memory.labels m = [] ∧ Memory.is_deleted m = false)
    (λ e w', e = IntegrityError "memories" ∧ db_step 1 w w' [] []
             ∧ "mem-" +:+ uuid_at 0 w ∈ Memory.id <$> memories w).
Proof.
  unfold run, memory_crud_create.
  rewrite (bind_ok _ _ _ _ _ (uuid4_hex8_run w)).
  rewrite (bind_ok _ _ _ _ _ (now_ms_run _)).
  rewrite advance_advance, uuid_at_drawn.
  unfold mbind, M_bind, db_add_memory.
  cbn [Memory.id memories advance clock ticks Nat.add].
  destruct (decide _) as [Hin|Hnew].
  - split; [split; [done|]; split; [apply db_step_advance|done]|].
    intros Hn Hle. exfalso. apply ids_fresh_spec in Hn as (_ & _ & Hmem).
    apply (Hmem 0); [lia|done].
  - split.
    + split; [|by repeat split].
      unfold db_step. cbn. by rewrite app_nil_r.
    + intros Hn. apply (ids_fresh_step n 16 w); [done..| |].
      * intros x Hx. by left.
      * cbn [memories with_memories]. intros x Hx.
        rewrite fmap_app, elem_of_app in Hx. destruct Hx as [Hx|Hx]; [by left|].
        right. exists 0. split; [lia|].
        by apply list_elem_of_singleton in Hx.
Qed.

(* ===================================================================== *)
(** * The context transition *)
(* ===================================================================== *)

Lemma send_chat_message_ok (cs : Contexts) (uid : string)
    (req : ChatMessageRequest) (w : World) (r : ChatMessageResponse)
    (cs' : Contexts) (w' : World) :
  send_chat_message cs uid req w = (Response r, cs', w') →
  process_message uid req (Some (get_conversation_context cs uid)) w
    = (Ok r, w')
  ∧ cs' = update_context cs uid req (intent r).
Proof.
  unfold send_chat_message, get_conversation_context.
  destruct (process_message _ _ _ _) as [[r0|e] w0]; [|done].
  by intros [= -> <- ->].
Qed.

Lemma update_context_other (cs : Contexts) (uid other : string)
    (req : ChatMessageRequest) (i : string) :
  other ≠ uid → update_context cs uid req i !! other = cs !! other.
Proof.
  intros Hne. unfold update_context. repeat case_decide.
  - by rewrite lookup_insert_ne.
  - by rewrite lookup_delete_ne.
  - done.
Qed.

(** C2: the store after a turn is a function of the response's intent
    (with the request's memoryId and the prior store).  A continuation
    intent is written to [expected_intent] of the user's entry, together
    with the memoryId the request carried, the other keys staying; a
    completion intent deletes the user's entry; any other intent leaves
    the store as it was.  Other users' entries are never touched.  A
    memoryId that is absent or empty counts as not carried. *)
Theorem context_transition (cs : Contexts) (uid : string)
    (req : ChatMessageRequest) (i : string) :
  let cs' := update_context cs uid req i in
  let prior := get_conversation_context cs uid in
  let after := get_conversation_context cs' uid in
  (∀ w r cs'' w',
     send_chat_message cs uid req w = (Response r, cs'', w') →
     intent r = i → cs'' = cs') ∧
  (∀ other, other ≠ uid → cs' !! other = cs !! other) ∧
  (i ∈ [ "save_memory"; "add_description"; "edit_memory"; "confirm_delete";
         "update_password" ] →
   cs' !! uid = Some after ∧
   after !! "expected_intent" = Some i ∧
   (∀ mid, memoryId req = Some mid → mid ≠ "" →
      after !! "memory_id" = Some mid) ∧
   (Py.truthy (memoryId req) = false →
      after !! "memory_id" = prior !! "memory_id") ∧
   (∀ k, k ≠ "expected_intent" → k ≠ "memory_id" →
      after !! k = prior !! k)) ∧
  (i ∈ [ "memory_saved"; "memory_deleted"; "memory_updated"; "name_changed";
         "avatar_updated"; "password_updated" ] →
   cs' !! uid = None ∧ after = ∅) ∧
  (i ∉ [ "save_memory"; "add_description"; "edit_memory"; "confirm_delete";
         "update_password" ] →
   i ∉ [ "memory_saved"; "memory_deleted"; "memory_updated"; "name_changed";
         "avatar_updated"; "password_updated" ] →
   cs' = cs).
Proof.
  intros cs' prior after. split; [|split; [|split; [|split]]].
  - intros w r cs'' w' Hrun <-.
    by apply send_chat_message_ok in Hrun as [_ ->].
  - intros other Hne. by apply update_context_other.
  - intros Hi. unfold after, get_conversation_context, cs', update_context.
    fold continuation_intents in Hi. rewrite decide_True by done.
    rewrite lookup_insert_eq. simpl. fold prior.
    split; [done|]. destruct (memoryId req) as [[|c mid]|] eqn:E; simpl.
    + rewrite lookup_insert_eq. split; [done|]. split; [by intros ? [= <-]|].
      split; [intros _; by rewrite lookup_insert_ne|].
      intros k Hk _. by rewrite lookup_insert_ne.
    + rewrite lookup_insert_ne by done. rewrite lookup_insert_eq.
      split; [done|]. split; [intros ? [= <-] _; by rewrite lookup_insert_eq|].
      split; [done|]. intros k Hk1 Hk2. by rewrite !lookup_insert_ne.
    + rewrite lookup_insert_eq. split; [done|]. split; [done|].
      split; [intros _; by rewrite lookup_insert_ne|].
      intros k Hk _. by rewrite lookup_insert_ne.
  - intros Hi. unfold after, get_conversation_context, cs', update_context.
    fold completion_intents in Hi.
    rewrite decide_False.
    + rewrite decide_True by done. by rewrite lookup_delete_eq.
    + intros Hc. revert Hi Hc. unfold completion_intents, continuation_intents.
      rewrite !elem_of_cons, !elem_of_nil. intros Hi Hc.
      repeat destruct Hi as [->|Hi]; try done;
        repeat destruct Hc as [Hc|Hc]; done.
  - intros H1 H2. unfold cs', update_context.
    fold continuation_intents in H1. fold completion_intents in H2.
    by rewrite !decide_False.
Qed.

Lemma context_transition_witness :
  get_conversation_context
    (update_context ∅ "u1" (say "I want to save a memory") "save_memory")
    "u1" !! "expected_intent" = Some "save_memory".
Proof.
  refine (proj1 (proj2 (proj1 (proj2 (proj2
    (context_transition ∅ "u1" (say "I want to save a memory")
       "save_memory"))) _))).
  by_decide.
Defined.

Lemma update_context_unarmed (cs : Contexts) (uid i : string)
    (req : ChatMessageRequest) :
  i ∉ continuation_intents → i ∉ completion_intents →
  update_context cs uid req i = cs.
Proof. intros H1 H2. unfold update_context. by rewrite !decide_False. Qed.

(* ===================================================================== *)
(** * The handlers *)
(* ===================================================================== *)

Lemma dispatch_other (i uid : string) (req : ChatMessageRequest)
    (ctx : option Context) :
  i ∉ dispatched_intents →
  dispatch i uid req ctx = handle_normal_chat uid req.
Proof.
  intros H. unfold dispatch.
  repeat (case_decide;
          [exfalso; apply H; subst i; unfold dispatched_intents;
           rewrite !elem_of_cons; auto 10|]).
  done.
Qed.


(** A computation that reads the world and leaves it as it is. *)
Lemma run_read {A} (n : nat) (m : M A) (a : A) (w : World)
    (Q : A → World → Prop) (E : exn → World → Prop) :
  m w = (Ok a, w) → Q a w → run n 0 m w Q E.
Proof.
  intros Hm HQ. unfold run. rewrite Hm. split; [done|]. by rewrite Nat.sub_0_r.
Qed.

Lemma run_generate_response (n : nat) (i : string)
    (user_data context : option Context) (w : World)
    (E : exn → World → Prop) :
  run n 4 (generate_response i user_data context) w
    (λ r w', db_step 2 w w' [] []
             ∧ intent r = i ∧ sender r = "ai"
             ∧ content r = render_content i user_data context
             ∧ meta r = intent_meta i)
    E.
Proof.
  eapply run_pure; [apply generate_response_run|].
  split; [apply db_step_advance|done].
Qed.

Lemma run_save_ai_message (n : nat) (uid : string) (r : ChatMessageResponse)
    (w : World) :
  run n 16 (save_ai_message uid r) w
    (λ r' w', r' = r
              ∧ ∃ a, db_step 1 w w' [] [a] ∧ ai_row uid r a
                     ∧ Message.timestamp a = (clock w (ticks w) / 1000)%N)
    (λ e w', e = IntegrityError "messages" ∧ db_step 1 w w' [] []).
Proof.
  unfold save_ai_message.
  apply (run_seq n 16 0); [lia|].
  eapply run_mono; [apply run_message_crud_create|lia|..]; cbv beta.
  - intros row w' (Hstep & _ & _ & Hu & Hid & Hs & Hi & Hc & Hm & Ht).
    apply run_ret. split; [done|]. exists row. split; [done|].
    split; [|done]. unfold ai_row. by rewrite Hu, Hid, Hs, Hi, Hc, Hm.
  - by intros e w' (He & Hstep & _).
Qed.

Lemma run_create_user_message (n : nat) (uid : string)
    (req : ChatMessageRequest) (w : World) :
  run n 20 (message_crud_create_user_message uid (text req) "user"
              (Some {[ "imageUrl" := opt_str (imageUrl req) ]})) w
    (λ u w', db_step 2 w w' [] [u] ∧ user_row uid req u
             ∧ Message.timestamp u = (clock w (1 + ticks w) / 1000)%N)
    (λ e w', e = IntegrityError "messages" ∧ db_step 2 w w' [] []).
Proof.
  unfold message_crud_create_user_message.
  apply (run_seq n 4 16); [lia|].
  eapply run_pure; [apply generate_message_id_run|].
  pose proof (db_step_advance 1 4 w) as Hadv.
  eapply run_mono; [apply run_message_crud_create|lia|..]; cbv beta.
  - intros row w' (Hstep & _ & _ & Hu & Hid & Hs & Hi & Hc & Hm & Ht).
    split; [apply (db_step_trans 1 1 _ _ _ [] [] [] [row] Hadv Hstep)|].
    split; [|exact Ht].
    unfold user_row. rewrite Hu, Hid, Hs, Hi, Hc, Hm.
    repeat split. by eexists _, _.
  - intros e w' (He & Hstep & _). split; [done|].
    apply (db_step_trans 1 1 _ _ _ [] [] [] [] Hadv Hstep).
Qed.

(** A handler's reply: computed without touching the messages, then
    stored and returned. *)
Lemma replies_intro (n d t : nat) (uid i : string) (req : ChatMessageRequest)
    (compute : M ChatMessageResponse) (w : World)
    (P : ChatMessageResponse → list Memory.t → Prop) :
  d ≤ 20 → t ≤ 3 →
  run n d compute w
    (λ r w1, ∃ mems, db_step t w w1 mems [] ∧ length mems ≤ 1
                     ∧ intent r = response_intent_of i req ∧ P r mems)
    (λ e w', ∃ t mems,
       t ≤ 4 ∧ db_step t w w' mems [] ∧ length mems ≤ 1
       ∧ ((∃ table, e = IntegrityError table)
          ∨ (e = MemoryNotFoundError "Memory not found"
             ∧ t = 0 ∧ mems = [] ∧ i = "edit_memory"
             ∧ ∃ mid, memoryId req = Some mid ∧ mid ≠ ""
                      ∧ ¬ memory_exists w mid))) →
  replies n uid i req
    (ai_response ← compute; save_ai_message uid ai_response) w P.
Proof.
  intros Hd Ht H. unfold replies.
  apply (run_seq n d 16); [lia|].
  eapply run_mono; [exact H|lia| |auto]. cbv beta.
  intros r w1 (mems & Hstep & Hl & Hi & HP).
  eapply run_mono; [apply run_save_ai_message|lia|..]; cbv beta.
  - intros r' w2 (-> & a & Hstep2 & Ha & Hts).
    exists t, mems, a. split; [done|].
    pose proof (db_step_trans _ _ _ _ _ _ _ _ _ Hstep Hstep2) as H3.
    rewrite app_nil_r, Nat.add_1_r in H3. split; [done|]. split; [done|].
    split; [done|]. split; [|done].
    destruct Hstep as (_ & _ & Hc & Htk & _). by rewrite Hts, Hc, Htk.
  - intros e w2 (-> & Hstep2).
    exists (S t), mems.
    pose proof (db_step_trans _ _ _ _ _ _ _ _ _ Hstep Hstep2) as H3.
    rewrite !app_nil_r, Nat.add_1_r in H3.
    split; [lia|]. split; [done|]. split; [done|]. left. by eexists.
Qed.

Lemma replies_mono (n : nat) (uid i : string) (req : ChatMessageRequest)
    (h : M ChatMessageResponse) (w : World)
    (P P' : ChatMessageResponse → list Memory.t → Prop) :
  replies n uid i req h w P →
  (∀ r mems, P r mems → P' r mems) →
  replies n uid i req h w P'.
Proof.
  intros H HP. unfold replies in *.
  eapply run_mono; [exact H|lia| |auto]. cbv beta.
  intros r w' (t & mems & a & ? & ? & ? & ? & ? & ? & ?).
  exists t, mems, a. auto 10.
Qed.

(** A handler that answers with the template of [j] and nothing else. *)
Lemma replies_prompt (n : nat) (uid i j : string) (req : ChatMessageRequest)
    (user_data : option Context) (w : World) :
  response_intent_of i req = j →
  replies n uid i req
    (ai_response ← generate_response j user_data None;
     save_ai_message uid ai_response) w
    (λ r mems, mems = [] ∧ meta r = intent_meta j
               ∧ content r = render_content j user_data None).
Proof.
  intros Hj. apply (replies_intro n 4 2); [lia..|].
  eapply run_mono;
    [apply (run_generate_response _ _ _ _ _ (λ _ _, False))|lia| |done].
  cbv beta. intros r w1 (Hstep & Hi & _ & Hc & Hm). exists [].
  split; [done|]. split; [cbn; lia|]. by rewrite Hi, Hj.
Qed.

Lemma run_ext {A} (n d : nat) (m m' : M A) (w : World)
    (Q : A → World → Prop) (E : exn → World → Prop) :
  m' w = m w → run n d m w Q E → run n d m' w Q E.
Proof. unfold run. by intros ->. Qed.

Lemma replies_read {A} (n : nat) (uid i : string) (req : ChatMessageRequest)
    (m : M A) (a : A) (f : A → M ChatMessageResponse) (w : World)
    (P : ChatMessageResponse → list Memory.t → Prop) :
  m w = (Ok a, w) →
  replies n uid i req (f a) w P → replies n uid i req (m ≫= f) w P.
Proof.
  intros Hm H. unfold replies in *.
  eapply run_ext; [apply (bind_ok _ _ _ _ _ Hm)|exact H].
Qed.

Lemma replies_ext (n : nat) (uid i : string) (req : ChatMessageRequest)
    (h h' : M ChatMessageResponse) (w : World)
    (P : ChatMessageResponse → list Memory.t → Prop) :
  h' w = h w → replies n uid i req h w P → replies n uid i req h' w P.
Proof. unfold replies. apply run_ext. Qed.

Lemma bind_assoc_ret {A B C} (m : M A) (g : A → B) (f : B → M C) (w : World) :
  (a ← m; f (g a)) w = (b ← (a ← m; mret (g a)); f b) w.
Proof.
  unfold mbind, M_bind, mret, M_ret. by destruct (m w) as [[a|e] w1].
Qed.

Lemma render_chat (user_data context : option Context) :
  render_content "chat" user_data context = "".
Proof. vm_compute. reflexivity. Qed.

Lemma replies_normal_chat (n : nat) (uid i : string)
    (req : ChatMessageRequest) (w : World) :
  i ∉ dispatched_intents →
  replies n uid i req (handle_normal_chat uid req) w
    (λ r mems, mems = [] ∧ content r = "").
Proof.
  intros Hi. unfold handle_normal_chat.
  apply (replies_read _ _ _ _ _ _ _ _ _ (user_crud_get_by_id_run uid w)).
  eapply replies_mono.
  { apply (replies_prompt _ uid i "chat" req).
    unfold response_intent_of. rewrite !decide_False; [done|done|..].
    - intros ->. apply Hi. by_decide.
    - intros ->. apply Hi. by_decide. }
  cbv beta. intros r mems (-> & _ & Hc). split; [done|].
  rewrite Hc. apply render_chat.
Qed.

Lemma replies_update_name (n : nat) (uid : string)
    (req : ChatMessageRequest) (ctx : option Context) (w : World) :
  replies n uid "update_name" req (handle_update_name uid req ctx) w
    (λ r mems, mems = [] ∧ meta r = ∅
               ∧ content r = render_content "update_name"
                   (Some {[ "current_name" :=
                              match find_user w uid with
                              | Some u => User.name u
                              | None => "User"
                              end ]}) None).
Proof.
  unfold handle_update_name.
  apply (replies_read _ _ _ _ _ _ _ _ _ (user_crud_get_by_id_run uid w)).
  eapply replies_mono.
  { by apply (replies_prompt _ uid "update_name" "update_name" req). }
  cbv beta. by intros r mems (-> & -> & ->).
Qed.

Lemma replies_search_memory (n : nat) (uid : string)
    (req : ChatMessageRequest) (w : World) :
  replies n uid "search_memory" req (handle_search_memory uid req) w
    (λ r mems, mems = []
               ∧ content r = render_content "search_memory" None None
               ∧ meta r =
                 match take 5 (merge_sort created_first
                         (matching_memories w uid (Py.lower (text req)))) with
                 | first :: _ => Memory.to_dict first
                 | [] => ∅
                 end).
Proof.
  unfold handle_search_memory.
  apply (replies_read _ _ _ _ _ _ _ _ _
           (memory_crud_search_run uid (Py.lower (text req)) 5 w)).
  set (hits := take 5 _).
  set (found := λ r : ChatMessageResponse,
         match hits with
         | first :: _ => update_meta (Memory.to_dict first) r
         | [] => r
         end).
  apply (replies_ext _ _ _ _ _ _ _ _
           (bind_assoc_ret (generate_response "search_memory" None None)
              found (save_ai_message uid) w)).
  apply (replies_intro _ 4 2); [lia..|].
  apply (run_seq _ 4 0); [lia|].
  eapply run_mono;
    [apply (run_generate_response _ _ _ _ _ (λ _ _, False))|lia| |done].
  cbv beta. intros r w1 (Hstep & Hi & _ & Hc & Hm). apply run_ret.
  exists []. split; [done|]. split; [cbn; lia|].
  unfold found. destruct hits as [|first rest]; [by rewrite Hi, Hc, Hm|].
  cbn [intent meta content update_meta]. rewrite Hi, Hc, Hm.
  split; [done|]. split; [done|]. split; [done|]. apply (right_id ∅ (∪)).
Qed.

Lemma replies_delete_memory (n : nat) (uid : string)
    (req : ChatMessageRequest) (ctx : option Context) (w : World) :
  replies n uid "delete_memory" req (handle_delete_memory uid req ctx) w
    (λ r mems, mems = []
               ∧ ∀ mid, memoryId req = Some mid → mid ≠ "" →
                   meta r !! "memoryId" = Some (VStr mid)).
Proof.
  unfold handle_delete_memory.
  apply (replies_intro _ 4 2); [lia..|].
  destruct (memoryId req) as [[|c mid]|]; cbn [Py.truthy negb].
  - eapply run_mono;
      [apply (run_generate_response _ _ _ _ _ (λ _ _, False))|lia| |done].
    cbv beta. intros r w1 (Hstep & Hi & _). exists [].
    split; [done|]. split; [cbn; lia|]. split; [by rewrite Hi|].
    split; [done|]. by intros ? [= <-].
  - apply (run_seq _ 4 0); [lia|].
    eapply run_mono;
      [apply (run_generate_response _ _ _ _ _ (λ _ _, False))|lia| |done].
    cbv beta. intros r w1 (Hstep & Hi & _). apply run_ret. exists [].
    split; [done|]. split; [cbn; lia|]. split; [exact Hi|].
    split; [done|]. intros ? [= <-] _.
    cbn [meta set_meta default from_option id]. by rewrite lookup_insert_eq.
  - eapply run_mono;
      [apply (run_generate_response _ _ _ _ _ (λ _ _, False))|lia| |done].
    cbv beta. intros r w1 (Hstep & Hi & _). exists [].
    split; [done|]. split; [cbn; lia|]. split; [by rewrite Hi|]. done.
Qed.

(** The edit handler looks the memory up before it answers. *)
Lemma replies_edit_memory (n : nat) (uid : string)
    (req : ChatMessageRequest) (ctx : option Context) (w : World) :
  replies n uid "edit_memory" req (handle_edit_memory uid req ctx) w
    (λ r mems, mems = []
               ∧ ∀ mid, memoryId req = Some mid → mid ≠ "" →
                   memory_exists w mid
                   ∧ meta r = <["memoryId" := VStr mid]>
                                (intent_meta "edit_memory")).
Proof.
  unfold handle_edit_memory.
  apply (replies_intro _ 4 2); [lia..|].
  destruct (memoryId req) as [[|c mid]|] eqn:Hreq;
    cbn [Py.truthy negb default from_option id].
  - eapply run_mono;
      [apply (run_generate_response _ _ _ _ _ (λ _ _, False))|lia| |done].
    cbv beta. intros r w1 (Hstep & Hi & _). exists [].
    split; [done|]. split; [cbn; lia|]. split; [by rewrite Hi|].
    split; [done|]. by intros ? [= <-].
  - apply (run_seq _ 0 4); [lia|].
    eapply run_read; [apply memory_crud_get_by_id_run|].
    pose proof (get_by_id_found w (String c mid)) as Hfound.
    destruct (head _) as [m|].
    + apply (run_seq _ 4 0); [lia|].
      eapply run_mono;
        [apply (run_generate_response _ _ _ _ _ (λ _ _, False))|lia| |done].
      cbv beta. intros r w1 (Hstep & Hi & _ & _ & Hm). apply run_ret.
      exists [].
      split; [done|]. split; [cbn; lia|]. split; [exact Hi|].
      split; [done|]. intros ? [= <-] _.
      split; [apply Hfound; by eexists|]. cbn [meta set_meta]. by rewrite Hm.
    + unfold run, raise. cbv beta iota. split; [|by intros _ _ table].
      exists 0, [].
      split; [lia|]. split; [apply db_step_refl|]. split; [cbn; lia|].
      right. split; [done|]. split; [done|]. split; [done|]. split; [done|].
      exists (String c mid). split; [done|]. split; [done|].
      intros H. apply Hfound in H. by destruct H.
  - eapply run_mono;
      [apply (run_generate_response _ _ _ _ _ (λ _ _, False))|lia| |done].
    cbv beta. intros r w1 (Hstep & Hi & _). exists [].
    split; [done|]. split; [cbn; lia|]. split; [by rewrite Hi|]. done.
Qed.

Lemma replies_save_memory (n : nat) (uid : string)
    (req : ChatMessageRequest) (ctx : option Context) (w : World) :
  replies n uid "save_memory" req (handle_save_memory uid req ctx) w
    (save_reply uid req).
Proof.
  unfold handle_save_memory, save_reply.
  destruct (imageUrl req) as [[|c url]|] eqn:Hreq;
    cbn [Py.truthy default from_option id].
  - eapply replies_mono.
    { apply (replies_prompt _ uid "save_memory" "save_memory" req).
      unfold response_intent_of. by rewrite decide_True, Hreq. }
    cbv beta. intros r mems (-> & -> & _). done.
  - apply (replies_intro _ 20 3); [lia..|].
    apply (run_seq _ 16 4); [lia|].
    eapply run_mono; [apply run_memory_crud_create|lia|..]; cbv beta.
    + intros m w1 (Hstep & _ & _ & Hu & Himg & Ht & Hd & Hl & _).
      apply (run_seq _ 4 0); [lia|].
      eapply run_mono;
        [apply (run_generate_response _ _ _ _ _ (λ _ _, False))|lia| |done].
      cbv beta. intros r w2 (Hstep2 & Hi & _ & _ & Hm). apply run_ret.
      exists [m].
      pose proof (db_step_trans _ _ _ _ _ _ _ _ _ Hstep Hstep2) as H3.
      split; [exact H3|]. split; [cbn; lia|].
      split.
      { cbn [intent set_meta]. rewrite Hi. unfold response_intent_of.
        by rewrite decide_True, Hreq. }
      exists m. cbn [meta set_meta].
      rewrite lookup_insert_ne by done. rewrite !lookup_insert_eq.
      by repeat split.
    + intros e w1 (-> & Hstep & _). exists 1, [].
      split; [lia|]. split; [done|]. split; [cbn; lia|]. left. by eexists.
  - eapply replies_mono.
    { apply (replies_prompt _ uid "save_memory" "save_memory" req).
      unfold response_intent_of. by rewrite decide_True, Hreq. }
    cbv beta. intros r mems (-> & -> & _). done.
Qed.

(** What any branch of the dispatcher ends in. *)
Lemma replies_dispatch (n : nat) (i uid : string) (req : ChatMessageRequest)
    (ctx : option Context) (w : World) :
  replies n uid i req (dispatch i uid req ctx) w (λ _ _, True).
Proof.
  unfold dispatch.
  destruct (decide (i = "save_memory")) as [->|H1].
  { eapply replies_mono; [apply replies_save_memory|done]. }
  destruct (decide (i = "search_memory")) as [->|H2].
  { eapply replies_mono; [apply replies_search_memory|done]. }
  destruct (decide (i = "delete_memory")) as [->|H3].
  { eapply replies_mono; [apply replies_delete_memory|done]. }
  destruct (decide (i = "edit_memory")) as [->|H4].
  { eapply replies_mono; [apply replies_edit_memory|done]. }
  destruct (decide (i = "update_name")) as [->|H5].
  { eapply replies_mono; [apply replies_update_name|done]. }
  destruct (decide (i = "update_avatar")) as [->|H6].
  { eapply replies_mono;
      [by apply (replies_prompt _ uid "update_avatar" "update_avatar")|done]. }
  destruct (decide (i = "update_password")) as [->|H7].
  { eapply replies_mono;
      [by apply (replies_prompt _ uid "update_password" "update_password")
      |done]. }
  eapply replies_mono; [apply replies_normal_chat|done].
  unfold dispatched_intents. rewrite !elem_of_cons, elem_of_nil. tauto.
Qed.

Lemma db_step_memory_exists (t : nat) (w w1 : World) (gs : list Message.t)
    (mid : string) :
  db_step t w w1 [] gs → memory_exists w1 mid ↔ memory_exists w mid.
Proof.
  intros (_ & _ & _ & _ & Hm & _). unfold memory_exists.
  rewrite Hm, app_nil_r. done.
Qed.

(** Every turn starts by storing the inbound message; the handler runs
    in the world that follows. *)
Lemma process_message_run (n : nat) (uid : string) (req : ChatMessageRequest)
    (ctx : option Context) (w : World)
    (P : ChatMessageResponse → list Memory.t → Prop) :
  (∀ u w1, db_step 2 w w1 [] [u] →
     replies (n - 20) uid (detect_intent (text req) ctx) req
       (dispatch (detect_intent (text req) ctx) uid req ctx) w1 P) →
  run n 56 (process_message uid req ctx) w
    (λ r w', ∃ t mems u a,
       t ≤ 3 ∧ db_step (3 + t) w w' mems [u; a] ∧ length mems ≤ 1
       ∧ user_row uid req u ∧ ai_row uid r a
       ∧ Message.timestamp u = (clock w (1 + ticks w) / 1000)%N
       ∧ Message.timestamp a = (clock w (2 + t + ticks w) / 1000)%N
       ∧ intent r = response_intent_of (detect_intent (text req) ctx) req
       ∧ P r mems)
    (λ e w', ∃ t mems msgs,
       t ≤ 6 ∧ db_step t w w' mems msgs ∧ length mems ≤ 1
       ∧ (msgs = [] ∨ ∃ u, msgs = [u] ∧ user_row uid req u)
       ∧ ((∃ table, e = IntegrityError table)
          ∨ (e = MemoryNotFoundError "Memory not found"
             ∧ mems = [] ∧ msgs ≠ []
             ∧ detect_intent (text req) ctx = "edit_memory"
             ∧ ∃ mid, memoryId req = Some mid ∧ mid ≠ ""
                      ∧ ¬ memory_exists w mid))).
Proof.
  intros Hh. unfold process_message.
  apply (run_seq n 20 36); [lia|].
  eapply run_mono; [apply run_create_user_message|lia|..]; cbv beta.
  - intros u w1 (Hstep & Hu & Hts).
    eapply run_mono; [apply (Hh u w1 Hstep)|lia|..]; cbv beta.
    + intros r w' (t & mems & a & Ht & Hstep2 & Hl & Ha & Hta & Hi & HP).
      exists t, mems, u, a. split; [done|].
      pose proof (db_step_trans _ _ _ _ _ _ _ _ _ Hstep Hstep2) as H3.
      split; [exact H3|]. split; [done|]. split; [done|]. split; [done|].
      split; [done|]. split; [|done].
      destruct Hstep as (_ & _ & Hc & Htk & _). rewrite Hta, Hc, Htk.
      do 2 f_equal. lia.
    + intros e w' (t & mems & Ht & Hstep2 & Hl & He).
      exists (2 + t), mems, [u].
      pose proof (db_step_trans _ _ _ _ _ _ _ _ _ Hstep Hstep2) as H3.
      split; [lia|]. split; [exact H3|]. split; [done|].
      split; [right; by exists u|].
      destruct He as [He|(-> & _ & -> & Hi & mid & Hmid & Hne & Hno)];
        [by left|right].
      split; [done|]. split; [done|]. split; [done|]. split; [done|].
      exists mid. split; [done|]. split; [done|].
      by rewrite <- (db_step_memory_exists 2 w w1 [u] mid Hstep).
  - intros e w' (-> & Hstep). exists 2, [], [].
    split; [lia|]. split; [done|]. split; [cbn; lia|].
    split; [by left|]. left. by eexists.
Qed.

Lemma send_chat_message_unfold (cs : Contexts) (uid : string)
    (req : ChatMessageRequest) (w : World) :
  send_chat_message cs uid req w
  = match process_message uid req
            (Some (get_conversation_context cs uid)) w with
    | (Ok response, w') =>
        (Response response, update_context cs uid req (intent response), w')
    | (Raise e, w') => (HTTPException 500 e, cs, w')
    end.
Proof. reflexivity. Qed.

(** The endpoint passes on what [process_message] ends in. *)
Lemma send_chat_message_cases (cs : Contexts) (uid : string)
    (req : ChatMessageRequest) (w : World)
    (Q : ChatMessageResponse → World → Prop) (E : exn → World → Prop) :
  match process_message uid req (Some (get_conversation_context cs uid)) w with
  | (Ok a, w') => Q a w'
  | (Raise e, w') => E e w'
  end →
  match send_chat_message cs uid req w with
  | (Response r, cs', w') =>
      cs' = update_context cs uid req (intent r) ∧ Q r w'
  | (HTTPException code e, cs', w') =>
      code = 500%N ∧ cs' = cs ∧ E e w'
  end.
Proof.
  intros H. rewrite (send_chat_message_unfold cs uid req w).
  destruct (process_message uid req _ w) as [[r|e] w'].
  - split; [reflexivity|]. exact H.
  - split; [reflexivity|]. split; [reflexivity|]. exact H.
Qed.

(** A run that ends in a refused row did not have fresh ids to draw. *)
Lemma run_cases {A} (n d : nat) (m : M A) (w : World)
    (Q : A → World → Prop) (E : exn → World → Prop) :
  d ≤ n →
  run n d m w Q E →
  match m w with
  | (Ok a, w') => Q a w'
  | (Raise e, w') =>
      E e w' ∧ (ids_fresh n w → ∀ table, e ≠ IntegrityError table)
  end.
Proof.
  intros Hle. unfold run. destruct (m w) as [[r|e] w'].
  - intros [H _]. exact H.
  - intros [H Hfresh]. split; [exact H|].
    intros Hn. apply Hfresh; [exact Hn|exact Hle].
Qed.

(** A whole turn of the endpoint, whichever way it ends.  A turn that
    fails on a refused row did not have fresh ids to draw. *)
Lemma send_chat_message_run (cs : Contexts) (uid : string)
    (req : ChatMessageRequest) (w : World)
    (P : ChatMessageResponse → list Memory.t → Prop) :
  let ctx := Some (get_conversation_context cs uid) in
  let classified := detect_intent (text req) ctx in
  (∀ u w1, db_step 2 w w1 [] [u] →
     replies 36 uid classified req (dispatch classified uid req ctx) w1 P) →
  match send_chat_message cs uid req w with
  | (Response r, cs', w') =>
      cs' = update_context cs uid req (intent r)
      ∧ ∃ t mems u a,
          t ≤ 3 ∧ db_step (3 + t) w w' mems [u; a] ∧ length mems ≤ 1
          ∧ user_row uid req u ∧ ai_row uid r a
          ∧ Message.timestamp u = (clock w (1 + ticks w) / 1000)%N
          ∧ Message.timestamp a = (clock w (2 + t + ticks w) / 1000)%N
          ∧ intent r = response_intent_of classified req
          ∧ P r mems
  | (HTTPException code e, cs', w') =>
      code = 500%N ∧ cs' = cs
      ∧ ∃ t mems msgs,
          t ≤ 6 ∧ db_step t w w' mems msgs ∧ length mems ≤ 1
          ∧ (msgs = [] ∨ ∃ u, msgs = [u] ∧ user_row uid req u)
          ∧ (((∃ table, e = IntegrityError table) ∧ ¬ ids_fresh turn_draws w)
             ∨ (e = MemoryNotFoundError "Memory not found"
                ∧ mems = [] ∧ msgs ≠ []
                ∧ classified = "edit_memory"
                ∧ ∃ mid, memoryId req = Some mid ∧ mid ≠ ""
                         ∧ ¬ memory_exists w mid))
  end.
Proof.
  intros ctx classified Hh.
  pose proof (run_cases turn_draws 56 _ w _ _ (le_n 56)
                (process_message_run turn_draws uid req ctx w P Hh)) as H.
  apply (send_chat_message_cases cs uid req w
    (λ r w', ∃ t mems u a,
       t ≤ 3 ∧ db_step (3 + t) w w' mems [u; a] ∧ length mems ≤ 1
       ∧ user_row uid req u ∧ ai_row uid r a
       ∧ Message.timestamp u = (clock w (1 + ticks w) / 1000)%N
       ∧ Message.timestamp a = (clock w (2 + t + ticks w) / 1000)%N
       ∧ intent r = response_intent_of classified req
       ∧ P r mems)
    (λ e w', ∃ t mems msgs,
       t ≤ 6 ∧ db_step t w w' mems msgs ∧ length mems ≤ 1
       ∧ (msgs = [] ∨ ∃ u, msgs = [u] ∧ user_row uid req u)
       ∧ (((∃ table, e = IntegrityError table) ∧ ¬ ids_fresh turn_draws w)
          ∨ (e = MemoryNotFoundError "Memory not found"
             ∧ mems = [] ∧ msgs ≠ []
             ∧ classified = "edit_memory"
             ∧ ∃ mid, memoryId req = Some mid ∧ mid ≠ ""
                      ∧ ¬ memory_exists w mid)))).
  fold ctx.
  destruct (process_message uid req ctx w) as [[r|e] w']; [exact H|].
  destruct H as [(t & mems & msgs & Ht & Hstep & Hl & Hmsgs & He) Hfresh].
  exists t, mems, msgs.
  split; [exact Ht|]. split; [exact Hstep|]. split; [exact Hl|].
  split; [exact Hmsgs|].
  destruct He as [[table ->]|He]; [left|right; exact He].
  split; [by eexists|]. intros Hn. exact (Hfresh Hn table eq_refl).
Qed.

(** A whole turn, whatever the message is classified as. *)
Lemma send_chat_message_outcome (cs : Contexts) (uid : string)
    (req : ChatMessageRequest) (w : World) :
  let classified :=
    detect_intent (text req) (Some (get_conversation_context cs uid)) in
  match send_chat_message cs uid req w with
  | (Response r, cs', w') =>
      cs' = update_context cs uid req (intent r)
      ∧ ∃ t mems u a,
          t ≤ 3 ∧ db_step (3 + t) w w' mems [u; a] ∧ length mems ≤ 1
          ∧ user_row uid req u ∧ ai_row uid r a
          ∧ Message.timestamp u = (clock w (1 + ticks w) / 1000)%N
          ∧ Message.timestamp a = (clock w (2 + t + ticks w) / 1000)%N
          ∧ intent r = response_intent_of classified req
          ∧ True
  | (HTTPException code e, cs', w') =>
      code = 500%N ∧ cs' = cs
      ∧ ∃ t mems msgs,
          t ≤ 6 ∧ db_step t w w' mems msgs ∧ length mems ≤ 1
          ∧ (msgs = [] ∨ ∃ u, msgs = [u] ∧ user_row uid req u)
          ∧ (((∃ table, e = IntegrityError table) ∧ ¬ ids_fresh turn_draws w)
             ∨ (e = MemoryNotFoundError "Memory not found"
                ∧ mems = [] ∧ msgs ≠ []
                ∧ classified = "edit_memory"
                ∧ ∃ mid, memoryId req = Some mid ∧ mid ≠ ""
                         ∧ ¬ memory_exists w mid))
  end.
Proof.
  apply (send_chat_message_run cs uid req w (λ _ _, True)).
  intros u w1 _. apply replies_dispatch.
Qed.

(** The same for [process_message] under any context. *)
Lemma process_message_outcome (uid : string) (req : ChatMessageRequest)
    (ctx : option Context) (w : World) :
  match process_message uid req ctx w with
  | (Ok r, w') =>
      ∃ t mems u a,
        t ≤ 3 ∧ db_step (3 + t) w w' mems [u; a] ∧ length mems ≤ 1
        ∧ user_row uid req u ∧ ai_row uid r a
        ∧ Message.timestamp u = (clock w (1 + ticks w) / 1000)%N
        ∧ Message.timestamp a = (clock w (2 + t + ticks w) / 1000)%N
        ∧ intent r = response_intent_of (detect_intent (text req) ctx) req
        ∧ True
  | (Raise e, w') =>
      (∃ t mems msgs,
         t ≤ 6 ∧ db_step t w w' mems msgs ∧ length mems ≤ 1
         ∧ (msgs = [] ∨ ∃ u, msgs = [u] ∧ user_row uid req u)
         ∧ ((∃ table, e = IntegrityError table)
            ∨ (e = MemoryNotFoundError "Memory not found"
               ∧ mems = [] ∧ msgs ≠ []
               ∧ detect_intent (text req) ctx = "edit_memory"
               ∧ ∃ mid, memoryId req = Some mid ∧ mid ≠ ""
                        ∧ ¬ memory_exists w mid)))
      ∧ (ids_fresh turn_draws w → ∀ table, e ≠ IntegrityError table)
  end.
Proof.
  apply (run_cases turn_draws 56 _ w _ _ (le_n 56)).
  apply (process_message_run turn_draws uid req ctx w (λ _ _, True)).
  intros u w1 _. apply replies_dispatch.
Qed.

Lemma response_intent_not_continuation (i : string) (req : ChatMessageRequest) :
  i ∉ dispatched_intents → response_intent_of i req = "chat".
Proof.
  intros Hi. unfold response_intent_of.
  rewrite !decide_False; [done|done|..].
  - intros ->. apply Hi. by_decide.
  - intros ->. apply Hi. by_decide.
Qed.

(** What a turn whose reply is a continuation intent leaves in the
    context of its user. *)
Lemma update_context_armed (cs : Contexts) (uid i : string)
    (req : ChatMessageRequest) :
  i ∈ continuation_intents →
  get_conversation_context (update_context cs uid req i) uid
    !! "expected_intent" = Some i.
Proof.
  intros Hin. unfold get_conversation_context, update_context.
  rewrite decide_True by done. rewrite lookup_insert_eq.
  cbn [default from_option id].
  destruct (Py.truthy (memoryId req)).
  - rewrite lookup_insert_ne by done. by rewrite lookup_insert_eq.
  - by rewrite lookup_insert_eq.
Qed.




(** A turn classified [edit_memory] that names a memory: it is answered
    when the memory exists; it fails with [MemoryNotFoundError] when it
    does not, and with [IntegrityError] only on a taken id. *)
Lemma edit_memory_turn (cs : Contexts) (uid mid : string)
    (req : ChatMessageRequest) (w : World) :
  detect_intent (text req) (Some (get_conversation_context cs uid))
    = "edit_memory" →
  memoryId req = Some mid → mid ≠ "" →
  match send_chat_message cs uid req w with
  | (Response r, cs', _) =>
      cs' = update_context cs uid req "edit_memory"
      ∧ memory_exists w mid
      ∧ intent r = "edit_memory"
      ∧ meta r = <["memoryId" := VStr mid]> (intent_meta "edit_memory")
  | (HTTPException code e, cs', _) =>
      code = 500%N ∧ cs' = cs
      ∧ ((e = MemoryNotFoundError "Memory not found" ∧ ¬ memory_exists w mid)
         ∨ ((∃ table, e = IntegrityError table) ∧ ¬ ids_fresh turn_draws w))
  end.
Proof.
  intros Hdet Hmid Hne.
  pose proof (send_chat_message_run cs uid req w
    (λ r mems, mems = [] ∧ ∀ mid, memoryId req = Some mid → mid ≠ "" →
       memory_exists w mid
       ∧ meta r = <["memoryId" := VStr mid]> (intent_meta "edit_memory")))
    as H.
  cbv zeta in H. rewrite Hdet in H.
  assert (∀ u w1, db_step 2 w w1 [] [u] →
            replies 36 uid "edit_memory" req
              (dispatch "edit_memory" uid req
                 (Some (get_conversation_context cs uid))) w1
              (λ r mems, mems = [] ∧ ∀ mid, memoryId req = Some mid →
                 mid ≠ "" →
                 memory_exists w mid
                 ∧ meta r
                   = <["memoryId" := VStr mid]> (intent_meta "edit_memory")))
    as Hh.
  { intros u w1 Hstep.
    apply (replies_mono _ _ _ _ _ _ _ _
             (replies_edit_memory 36 uid req _ w1)).
    intros r mems [-> Hm]. split; [reflexivity|].
    intros mid' Hmid' Hne'. destruct (Hm mid' Hmid' Hne') as [Hex Hmeta].
    split; [|exact Hmeta].
    exact (proj1 (db_step_memory_exists 2 w w1 [u] mid' Hstep) Hex). }
  specialize (H Hh). clear Hh Hdet.
  destruct (send_chat_message cs uid req w) as [[[r|code e] cs'] w'].
  - destruct H as (-> & t & mems & u & a & _ & _ & _ & _ & _ & _ & _
                   & Hi & _ & Hm).
    destruct (Hm mid Hmid Hne) as [Hex Hmeta].
    assert (intent r = "edit_memory") as Hi'.
    { rewrite Hi. unfold response_intent_of.
      rewrite !decide_False by discriminate.
      rewrite decide_True by by_decide. reflexivity. }
    rewrite Hi'. auto.
  - destruct H as (-> & -> & t & mems & msgs & _ & _ & _ & _ & Hcause).
    split; [reflexivity|]. split; [reflexivity|].
    destruct Hcause as [[He Hn]|(-> & _ & _ & _ & mid' & Hmid' & _ & Hno)].
    + right. auto.
    + left. rewrite Hmid in Hmid'. injection Hmid' as <-. auto.
Qed.

(** A [delete_memory] turn with a memoryId is answered by
    [confirm_delete], whether or not the memory exists. *)
Lemma delete_memory_turn (cs : Contexts) (uid mid : string)
    (req : ChatMessageRequest) (w : World) :
  detect_intent (text req) (Some (get_conversation_context cs uid))
    = "delete_memory" →
  memoryId req = Some mid → mid ≠ "" →
  match send_chat_message cs uid req w with
  | (Response r, cs', _) =>
      cs' = update_context cs uid req "confirm_delete"
      ∧ intent r = "confirm_delete"
      ∧ meta r !! "memoryId" = Some (VStr mid)
  | (HTTPException code e, cs', _) =>
      code = 500%N ∧ (∃ table, e = IntegrityError table) ∧ cs' = cs
      ∧ ¬ ids_fresh turn_draws w
  end.
Proof.
  intros Hdet Hmid Hne.
  pose proof (send_chat_message_run cs uid req w
    (λ r mems, mems = [] ∧ ∀ mid, memoryId req = Some mid → mid ≠ "" →
       meta r !! "memoryId" = Some (VStr mid))) as H.
  cbv zeta in H. rewrite Hdet in H.
  assert (∀ u w1, db_step 2 w w1 [] [u] →
            replies 36 uid "delete_memory" req
              (dispatch "delete_memory" uid req
                 (Some (get_conversation_context cs uid))) w1
              (λ r mems, mems = [] ∧ ∀ mid, memoryId req = Some mid →
                 mid ≠ "" → meta r !! "memoryId" = Some (VStr mid))) as Hh
    by (intros u w1 _; apply replies_delete_memory).
  specialize (H Hh). clear Hh Hdet.
  destruct (send_chat_message cs uid req w) as [[[r|code e] cs'] w'].
  - destruct H as (-> & t & mems & u & a & _ & _ & _ & _ & _ & _ & _
                   & Hi & _ & Hm).
    assert (intent r = "confirm_delete") as Hi'.
    { rewrite Hi. unfold response_intent_of.
      rewrite decide_False by discriminate.
      rewrite decide_True by reflexivity. reflexivity. }
    rewrite Hi'. auto.
  - destruct H as (-> & -> & t & mems & msgs & _ & _ & _ & _ & Hcause).
    split; [reflexivity|].
    destruct Hcause as [[He Hn]|(_ & _ & _ & Hd & _)]; [auto|discriminate Hd].
Qed.

(** C6: the two handlers on the id of a memory that does not exist.
    The edit turn fails with [MemoryNotFoundError] and the context store
    stays as it was.  The delete turn does not look the memory up: it
    answers [confirm_delete] and the unknown id is written into the
    user's context. *)
Theorem delete_memory_unknown_id :
  ¬ memory_exists world0 "mem-404" ∧
  detect_intent (text edit_unknown) (Some ∅) = "edit_memory" ∧
  (∃ w', send_chat_message ∅ "u1" edit_unknown world0
         = (HTTPException 500 (MemoryNotFoundError "Memory not found"),
            ∅, w')) ∧
  detect_intent (text delete_unknown) (Some ∅) = "delete_memory" ∧
  (∃ r w', send_chat_message ∅ "u1" delete_unknown world0
           = (Response r,
              {[ "u1" := {[ "expected_intent" := "confirm_delete";
                            "memory_id" := "mem-404" ]} ]},
              w')
           ∧ intent r = "confirm_delete"
           ∧ meta r !! "memoryId" = Some (VStr "mem-404")).
Proof.
  assert (ids_fresh turn_draws world0) as Hfresh by by_decide.
  split; [|split; [|split; [|split]]].
  - intros (m & Hm & _). by apply elem_of_nil in Hm.
  - by_decide.
  - pose proof (edit_memory_turn ∅ "u1" "mem-404" edit_unknown world0
                  ltac:(by_decide) eq_refl ltac:(discriminate)) as H.
    destruct (send_chat_message ∅ "u1" edit_unknown world0)
      as [[[r|code e] cs'] w'].
    + destruct H as (_ & (m & Hm & _) & _). by apply elem_of_nil in Hm.
    + destruct H as (-> & -> & [[-> _]|[_ Hn]]); [|by destruct (Hn Hfresh)].
      exists w'. reflexivity.
  - by_decide.
  - pose proof (delete_memory_turn ∅ "u1" "mem-404" delete_unknown world0
                  ltac:(by_decide) eq_refl ltac:(discriminate)) as H.
    destruct (send_chat_message ∅ "u1" delete_unknown world0)
      as [[[r|code e] cs'] w'].
    + destruct H as (-> & Hi & Hm). exists r, w'.
      split; [reflexivity|exact (conj Hi Hm)].
    + destruct H as (_ & _ & _ & Hn). by destruct (Hn Hfresh).
Qed.

(* ===================================================================== *)
(** * The template catalog *)
(* ===================================================================== *)

(** A template that is a single string is rendered as it is when no
    slot data is supplied. *)
Lemma fixed_template_rendered (i t : string) (w : World) :
  intent_responses !! i = Some (Fixed t) →
  wp (generate_response i None None) w (λ r _, content r = t).
Proof.
  intros Hi. eapply wp_mono; [apply wp_generate_response|].
  intros r w' (_ & Hc & _). rewrite Hc. unfold render_content.
  by rewrite Hi.
Qed.

(** C7: what rendering the [chat] intent yields.  The entry of [chat]
    is the list of three variants, and the renderer writes content only
    for an entry that is a single string: the content of a [chat]
    response is the empty string, which is none of the variants. *)
Theorem chat_renders_empty (user_data context : option Context) (w : World) :
  intent_responses !! "chat" = Some (Variants chat_variants) ∧
  ∃ r w', generate_response "chat" user_data context w = (Ok r, w')
          ∧ content r = ""
          ∧ content r ∉ chat_variants.
Proof.
  split; [vm_compute; reflexivity|].
  destruct (wp_generate_response "chat" user_data context w)
    as (r & w' & Hrun & _ & Hc & _).
  exists r, w'. split; [done|].
  assert (content r = "") as -> by (rewrite Hc; reflexivity).
  split; [done|]. unfold chat_variants. rewrite !elem_of_cons, elem_of_nil.
  intros [?|[?|[?|?]]]; done.
Qed.

(* ===================================================================== *)
(** * Intents without a handler *)
(* ===================================================================== *)

Lemma send_chat_message_other (cs : Contexts) (uid other : string)
    (req : ChatMessageRequest) (w : World) :
  other ≠ uid →
  (send_chat_message cs uid req w).1.2 !! other = cs !! other.
Proof.
  intros Hne. unfold send_chat_message.
  destruct (process_message _ _ _ _) as [[r|e] w']; simpl; [|done].
  by apply update_context_other.
Qed.

Lemma process_message_undispatched (uid : string) (req : ChatMessageRequest)
    (ctx : option Context) (w : World) :
  detect_intent (text req) ctx ∉ dispatched_intents →
  match process_message uid req ctx w with
  | (Ok r, _) => intent r = "chat"
  | (Raise e, _) =>
      (∃ table, e = IntegrityError table) ∧ ¬ ids_fresh turn_draws w
  end.
Proof.
  intros Hnot.
  pose proof (process_message_outcome uid req ctx w) as H.
  destruct (process_message uid req ctx w) as [[r|e] w'].
  - destruct H as (t & mems & u & a & _ & _ & _ & _ & _ & _ & _ & Hi & _).
    rewrite Hi. by apply response_intent_not_continuation.
  - destruct H as [(t & mems & msgs & _ & _ & _ & _ & Hcause) Hfresh].
    destruct Hcause as [[table ->]|(_ & _ & _ & Hd & _)].
    + split; [by exists table|]. intros Hf. exact (Hfresh Hf table eq_refl).
    + exfalso. apply Hnot. rewrite Hd. by_decide.
Qed.

Lemma send_chat_message_armed (cs : Contexts) (uid : string)
    (req : ChatMessageRequest) (w : World) (c : Context) (e : string) :
  cs !! uid = Some c → c !! "expected_intent" = Some e →
  e ∉ dispatched_intents →
  match send_chat_message cs uid req w with
  | (Response r, cs', _) => intent r = "chat" ∧ cs' = cs
  | (HTTPException code e', cs', _) =>
      code = 500%N ∧ (∃ table, e' = IntegrityError table) ∧ cs' = cs
      ∧ ¬ ids_fresh turn_draws w
  end.
Proof.
  intros Hc He Hnot.
  pose proof (send_chat_message_outcome cs uid req w) as H. cbv zeta in H.
  assert (detect_intent (text req) (Some (get_conversation_context cs uid)) = e)
    as Hdet.
  { unfold detect_intent, get_conversation_context. rewrite Hc.
    change (default ∅ (Some c)) with c. by rewrite ctx_item_lookup, He. }
  rewrite Hdet in H. clear Hdet.
  destruct (send_chat_message cs uid req w) as [[[r|code e'] cs'] w'].
  - destruct H as (-> & t & mems & u & a & _ & _ & _ & _ & _ & _ & _ & Hi & _).
    rewrite response_intent_not_continuation in Hi by exact Hnot.
    split; [exact Hi|]. rewrite Hi. apply update_context_unarmed; by_decide.
  - destruct H as (-> & -> & t & mems & msgs & _ & _ & _ & _ & Hcause).
    split; [reflexivity|].
    destruct Hcause as [[Hi Hn]|(_ & _ & _ & Hd & _)]; [auto|].
    exfalso. apply Hnot. rewrite Hd. by_decide.
Qed.

(** C10: a message whose classified intent is none of the seven
    dispatched ones goes to the normal-chat handler, and the response
    [process_message] returns has intent [chat]; it returns one unless
    the database refuses a row ([IntegrityError]), which needs one of
    the turn's generated ids to be taken already.  Hence a context whose
    expected intent has no handler, such as [add_description] or
    [confirm_delete], comes back unchanged from every turn of its user,
    answered or not, whatever any user sends. *)
Theorem undispatched_intent_is_chat (cs : Contexts) (uid : string)
    (req : ChatMessageRequest) (w : World) (c : Context) (e : string) :
  e ∉ dispatched_intents →
  cs !! uid = Some c →
  c !! "expected_intent" = Some e →
  (∀ ctx, detect_intent (text req) ctx ∉ dispatched_intents →
     dispatch (detect_intent (text req) ctx) uid req ctx
     = handle_normal_chat uid req
     ∧ match process_message uid req ctx w with
       | (Ok r, _) => intent r = "chat"
       | (Raise e', _) =>
           (∃ table, e' = IntegrityError table) ∧ ¬ ids_fresh turn_draws w
       end) ∧
  match send_chat_message cs uid req w with
  | (Response r, cs', _) => intent r = "chat" ∧ cs' = cs
  | (HTTPException code e', cs', _) =>
      code = 500%N ∧ (∃ table, e' = IntegrityError table) ∧ cs' = cs
      ∧ ¬ ids_fresh turn_draws w
  end ∧
  (∀ turns, (run_turns cs w turns).1 !! uid = Some c).
Proof.
  intros Hnot Hc He. split; [|split].
  - intros ctx Hctx.
    split; [by apply dispatch_other|by apply process_message_undispatched].
  - by apply (send_chat_message_armed cs uid req w c e).
  - intros turns. revert cs w Hc.
    induction turns as [|[uid' req'] rest IH]; intros cs w Hc; [done|].
    cbn [run_turns]. destruct (decide (uid' = uid)) as [->|Hne].
    + pose proof (send_chat_message_armed cs uid req' w c e Hc He Hnot) as H.
      destruct (send_chat_message cs uid req' w) as [[[r|code e'] cs'] w'].
      * destruct H as [_ ->]. by apply IH.
      * destruct H as (_ & _ & -> & _). by apply IH.
    + pose proof (send_chat_message_other cs uid' uid req' w) as Hother.
      destruct (send_chat_message cs uid' req' w) as [[res cs'] w'].
      simpl in Hother. apply IH. rewrite Hother by done. done.
Qed.

Lemma undispatched_intent_is_chat_witness :
  match send_chat_message
          {[ "u1" := {[ "expected_intent" := "confirm_delete" ]} ]}
          "u1" (say "yes, delete the photo") world0 with
  | (Response r, cs', _) =>
      intent r = "chat"
      ∧ cs' = {[ "u1" := {[ "expected_intent" := "confirm_delete" ]} ]}
  | (HTTPException _ _, _, _) => False
  end
  ∧ (run_turns {[ "u1" := {[ "expected_intent" := "confirm_delete" ]} ]}
       world0 three_turns).1 !! "u1"
    = Some {[ "expected_intent" := "confirm_delete" ]}.
Proof.
  pose proof (undispatched_intent_is_chat
    {[ "u1" := {[ "expected_intent" := "confirm_delete" ]} ]} "u1"
    (say "yes, delete the photo") world0
    {[ "expected_intent" := "confirm_delete" ]} "confirm_delete"
    ltac:(by_decide) ltac:(by_decide) ltac:(by_decide)) as (_ & H & Hturns).
  split; [|exact (Hturns three_turns)].
  destruct (send_chat_message _ "u1" (say "yes, delete the photo") world0)
    as [[[r|code e] cs'] w'].
  - exact H.
  - destruct H as (_ & _ & _ & Hn). apply Hn. by_decide.
Defined.

(* ===================================================================== *)
(** * Message identifiers *)
(* ===================================================================== *)

Lemma unhex_hex_of_byte (b : byte) : unhex_byte (hex_of_byte b) = Some b.
Proof. by destruct b. Qed.

Lemma hex_of_byte_inj (b1 b2 : byte) :
  hex_of_byte b1 = hex_of_byte b2 → b1 = b2.
Proof.
  intros H. apply (f_equal unhex_byte) in H.
  rewrite !unhex_hex_of_byte in H. congruence.
Qed.

Lemma hex_cons (b : byte) (bs : list byte) :
  ∃ c1 c2, hex_of_byte b = String c1 (String c2 EmptyString)
           ∧ hex (b :: bs) = String c1 (String c2 (hex bs)).
Proof. eexists _, _. split; reflexivity. Qed.

Lemma hex_inj (bs1 bs2 : list byte) : hex bs1 = hex bs2 → bs1 = bs2.
Proof.
  revert bs2. induction bs1 as [|b1 bs1 IH]; intros [|b2 bs2] H.
  - done.
  - destruct (hex_cons b2 bs2) as (c1 & c2 & _ & Heq).
    rewrite Heq in H. discriminate H.
  - destruct (hex_cons b1 bs1) as (c1 & c2 & _ & Heq).
    rewrite Heq in H. discriminate H.
  - destruct (hex_cons b1 bs1) as (c1 & c2 & Hb1 & Heq1).
    destruct (hex_cons b2 bs2) as (d1 & d2 & Hb2 & Heq2).
    rewrite Heq1, Heq2 in H. injection H as -> -> H.
    f_equal; [|by apply IH]. apply hex_of_byte_inj. by rewrite Hb1, Hb2.
Qed.

Lemma length_hex (bs : list byte) : String.length (hex bs) = 2 * length bs.
Proof.
  induction bs as [|b bs IH]; [done|].
  destruct (hex_cons b bs) as (c1 & c2 & _ & ->). simpl. lia.
Qed.

Lemma length_drawn (n : nat) (w : World) : length (drawn n w) = n.
Proof. unfold drawn. by rewrite length_fmap, length_seq. Qed.

(** Identifiers with the same prefix are equal only if they were built
    from the same clock reading and the same random bytes. *)
Lemma format_message_id_inj (prefix : string) (t1 t2 : N)
    (bs1 bs2 : list byte) :
  length bs1 = length bs2 →
  format_message_id prefix t1 (hex bs1) = format_message_id prefix t2 (hex bs2) →
  t1 = t2 ∧ bs1 = bs2.
Proof.
  intros Hlen H. unfold format_message_id in H.
  apply (inj (String.app prefix)) in H.
  apply (inj (String.app "-")) in H.
  assert (String.length (pretty t1) = String.length (pretty t2)) as Hl.
  { apply (f_equal String.length) in H.
    rewrite !str_length_app, !length_hex, Hlen in H. lia. }
  destruct (str_app_inj_length _ _ _ _ Hl H) as [Ht Hr].
  split; [by apply (inj pretty)|].
  apply (inj (String.app "-")) in Hr. by apply hex_inj.
Qed.

(** C8, as the code has it: a msgId is [prefix-milliseconds-hex] with
    eight hexadecimal digits, each call returns one (the renderer takes
    its msgId from the generator with prefix [ai]), and two calls with
    the same prefix return the same msgId exactly when they read the
    same millisecond from the clock and draw the same four random
    bytes. *)
Theorem message_id_collision (prefix : string) (wa wb : World) :
  let ida := format_message_id prefix (clock wa (ticks wa))
               (hex (drawn 4 wa)) in
  let idb := format_message_id prefix (clock wb (ticks wb))
               (hex (drawn 4 wb)) in
  (∃ wa', generate_message_id prefix wa = (Ok ida, wa')) ∧
  (∃ wb', generate_message_id prefix wb = (Ok idb, wb')) ∧
  (∀ i user_data context,
     prefix = "ai" →
     ∃ r wa', generate_response i user_data context wa = (Ok r, wa')
              ∧ msgId r = ida) ∧
  ida = prefix +:+ "-" +:+ pretty (clock wa (ticks wa)) +:+ "-"
        +:+ hex (drawn 4 wa) ∧
  String.length (hex (drawn 4 wa)) = 8 ∧
  (ida = idb ↔
   clock wa (ticks wa) = clock wb (ticks wb) ∧ drawn 4 wa = drawn 4 wb).
Proof.
  intros ida idb. split; [eexists; apply generate_message_id_run|].
  split; [eexists; apply generate_message_id_run|].
  split.
  { intros i user_data context ->. eexists _, _.
    split; [apply generate_response_run|reflexivity]. }
  split; [done|].
  split; [by rewrite length_hex, length_drawn|]. split.
  - apply format_message_id_inj. by rewrite !length_drawn.
  - intros [Ht Hb]. unfold ida, idb. by rewrite Ht, Hb.
Qed.

(** C8 as stated does not hold: two calls in a row, under a clock that
    has not moved on and a random source that repeats its bytes, return
    the same msgId, from the generator and from the renderer for one
    intent. *)
Lemma message_id_repeats :
  (∃ id w', (id1 ← generate_message_id "ai";
             id2 ← generate_message_id "ai";
             mret (id1, id2)) frozen_world = (Ok (id, id), w')) ∧
  (∃ r1 r2 w', (r1 ← generate_response "chat" None None;
                r2 ← generate_response "chat" None None;
                mret (r1, r2)) frozen_world = (Ok (r1, r2), w')
               ∧ msgId r1 = msgId r2).
Proof.
  split.
  - eexists _, _.
    rewrite (bind_ok _ _ _ _ _ (generate_message_id_run _ _)).
    rewrite (bind_ok _ _ _ _ _ (generate_message_id_run _ _)).
    reflexivity.
  - eexists _, _, _.
    rewrite (bind_ok _ _ _ _ _ (generate_response_run _ _ _ _)).
    rewrite (bind_ok _ _ _ _ _ (generate_response_run _ _ _ _)).
    split; reflexivity.
Qed.

(* ===================================================================== *)
(** * History *)
(* ===================================================================== *)

Global Instance newer_first_total : Total newer_first.
Proof. intros a b. unfold newer_first. lia. Qed.

Global Instance newer_first_trans : Transitive newer_first.
Proof. intros a b c. unfold newer_first. lia. Qed.

(** What holds whatever the timestamps are: the history of a user with
    limit [N] holds [N] of the user's messages (all of them if there are
    fewer), no entry is older than the entry before it, and no message
    left out is newer than one that is returned.  Messages of the same
    second are not ordered by this. *)
Lemma history_by_timestamp (w : World) (user_id : string)
    (limit : nat) :
  let history := get_conversation_history w user_id limit in
  let all := message_to_dict <$> user_messages w user_id in
  length history = min limit (length all) ∧
  Sorted not_after history ∧
  ∃ older,
    older ++ history ≡ₚ all ∧
    ∀ o r, o ∈ older → r ∈ history → not_after o r.
Proof.
  intros history all. unfold history, all, get_conversation_history.
  set (s := merge_sort newer_first (user_messages w user_id)).
  assert (s ≡ₚ user_messages w user_id) as Hperm
    by apply merge_sort_Permutation.
  assert (StronglySorted newer_first s) as Hsorted
    by (apply StronglySorted_merge_sort; apply _).
  split; [|split].
  - rewrite !length_fmap, length_reverse, length_take, <- Hperm. lia.
  - apply (Sorted_fmap _ (flip newer_first)); [by intros x y|].
    apply Sorted_reverse, StronglySorted_Sorted.
    rewrite <- (take_drop limit s) in Hsorted.
    by apply StronglySorted_app_1_l in Hsorted.
  - exists (message_to_dict <$> drop limit s). split.
    + rewrite <- fmap_app. apply fmap_Permutation.
      rewrite reverse_Permutation, (comm (++)), take_drop. done.
    + intros o r Ho Hr.
      apply list_elem_of_fmap in Ho as (mo & -> & Ho).
      apply list_elem_of_fmap in Hr as (mr & -> & Hr).
      rewrite elem_of_reverse in Hr.
      rewrite <- (take_drop limit s) in Hsorted.
      exact (StronglySorted_app_1_elem_of _ _ _ mr mo Hsorted Hr Ho).
Qed.

Lemma user_messages_app (w : World) (u : string) (base extra : list Message.t) :
  messages w = base ++ extra →
  user_messages w u
  = filter (λ m, Message.user_id m = u) base
    ++ filter (λ m, Message.user_id m = u) extra.
Proof. intros H. unfold user_messages. by rewrite H, filter_app. Qed.

Lemma merge_sort_pair {A} (R : relation A) `{!RelDecision R} (x y : A) :
  merge_sort R [x; y] = if decide_rel R x y then [x; y] else [y; x].
Proof.
  unfold merge_sort. cbn [merge_sort_aux merge_list_to_stack merge_stack_flatten].
  cbn [list_merge]. destruct (decide_rel R x y); reflexivity.
Qed.

(** C9: the history of a first turn.  A user without stored messages
    sends a message and is answered within one second, so the question
    and the reply carry the same timestamp.  The reply is the row
    persisted last, but the history cut at one entry is the question,
    and the history of both lists the reply before the question:
    [order_by(timestamp.desc())] leaves rows of one second in insertion
    order, the cut keeps the first of them and [reversed] turns them
    round.  (A turn that raises is not in question here; it raises
    [MemoryNotFoundError] on an edit, or [IntegrityError] on a taken
    id.) *)
Theorem history_reverses_a_turn (uid : string) (req : ChatMessageRequest)
    (ctx : option Context) (w : World) :
  (∀ m, m ∈ messages w → Message.user_id m ≠ uid) →
  (∀ k, k < 6 →
     (clock w (k + ticks w) / 1000 = clock w (ticks w) / 1000)%N) →
  match process_message uid req ctx w with
  | (Ok r, w') =>
      ∃ question reply,
        messages w' = messages w ++ [question; reply]
        ∧ user_row uid req question ∧ ai_row uid r reply
        ∧ Message.timestamp question = Message.timestamp reply
        ∧ get_conversation_history w' uid 1 = [message_to_dict question]
        ∧ get_conversation_history w' uid 2
          = [message_to_dict reply; message_to_dict question]
  | (Raise e, _) =>
      ((∃ table, e = IntegrityError table) ∧ ¬ ids_fresh turn_draws w)
      ∨ (e = MemoryNotFoundError "Memory not found"
         ∧ detect_intent (text req) ctx = "edit_memory")
  end.
Proof.
  intros Hfirst Hsecond.
  pose proof (process_message_outcome uid req ctx w) as H.
  destruct (process_message uid req ctx w) as [[r|e] w'].
  - destruct H as (t & mems & u & a & Ht & Hstep & _ & Hu & Ha & Htu & Hta
                   & _).
    destruct Hstep as (_ & _ & _ & _ & _ & Hg).
    assert (Message.timestamp u = Message.timestamp a) as Hsame.
    { rewrite Htu, Hta.
      rewrite (Hsecond 1) by lia. rewrite (Hsecond (2 + t)) by lia.
      reflexivity. }
    assert (user_messages w' uid = [u; a]) as Hrows.
    { rewrite (user_messages_app w' uid _ _ Hg).
      destruct Hu as (Hu & _). destruct Ha as (Ha & _).
      rewrite !filter_cons, filter_nil, !decide_True by assumption.
      assert (filter (λ m, Message.user_id m = uid) (messages w) = []) as ->;
        [|reflexivity].
      destruct (filter _ (messages w)) as [|m l] eqn:E; [reflexivity|].
      assert (m ∈ filter (λ m, Message.user_id m = uid) (messages w)) as Hin
        by (rewrite E; left).
      apply list_elem_of_filter in Hin as [Hm Hin].
      destruct (Hfirst m Hin Hm). }
    assert (merge_sort newer_first [u; a] = [u; a]) as Hsorted.
    { rewrite merge_sort_pair. unfold decide_rel.
      destruct (newer_first_dec u a) as [_|Hno]; [reflexivity|].
      exfalso. apply Hno. unfold newer_first. rewrite Hsame. reflexivity. }
    exists u, a. split; [exact Hg|]. split; [exact Hu|]. split; [exact Ha|].
    split; [exact Hsame|].
    unfold get_conversation_history. cbv zeta. rewrite Hrows, Hsorted.
    split; reflexivity.
  - destruct H as [(t & mems & msgs & _ & _ & _ & _ & Hcause) Hfresh].
    destruct Hcause as [[table ->]|(-> & _ & _ & Hd & _)].
    + left. split; [by exists table|].
      intros Hf. exact (Hfresh Hf table eq_refl).
    + right. split; [reflexivity|exact Hd].
Qed.

Lemma history_reverses_a_turn_witness :
  match process_message "u1" (say "hello") None world0 with
  | (Ok r, w') =>
      ∃ question reply,
        messages w' = [question; reply]
        ∧ user_row "u1" (say "hello") question ∧ ai_row "u1" r reply
        ∧ Message.timestamp question = Message.timestamp reply
        ∧ get_conversation_history w' "u1" 1 = [message_to_dict question]
        ∧ get_conversation_history w' "u1" 2
          = [message_to_dict reply; message_to_dict question]
  | (Raise _, _) => False
  end.
Proof.
  assert (∀ m, m ∈ messages world0 → Message.user_id m ≠ "u1") as Hfirst.
  { intros m Hm. by apply elem_of_nil in Hm. }
  assert (∀ k, k < 6 →
            (clock world0 (k + ticks world0) / 1000
             = clock world0 (ticks world0) / 1000)%N) as Hsecond.
  { intros k Hk.
    do 6 (destruct k as [|k]; [vm_compute; reflexivity|]). lia. }
  pose proof (history_reverses_a_turn "u1" (say "hello") None world0
                Hfirst Hsecond) as H.
  destruct (process_message "u1" (say "hello") None world0) as [[r|e] w'].
  - exact H.
  - destruct H as [[_ Hn]|[_ Hd]].
    + apply Hn. by_decide.
    + revert Hd. by_decide.
Defined.

(* ===================================================================== *)
(** * Turns seen from the endpoint *)
(* ===================================================================== *)

Lemma response_intent_not_completion (i : string) (req : ChatMessageRequest) :
  response_intent_of i req ∉ completion_intents.
Proof.
  unfold response_intent_of, completion_intents, dispatched_intents.
  repeat case_decide; try case_match; subst;
    rewrite ?elem_of_cons, ?elem_of_nil in *; intros Hc;
    repeat (destruct Hc as [Hc|Hc]); try done;
    match goal with H : _ ∨ _ |- _ =>
      repeat (destruct H as [H|H]); congruence end.
Qed.

Global Instance created_first_total : Total created_first.
Proof. intros a b. unfold created_first. lia. Qed.

Global Instance created_first_trans : Transitive created_first.
Proof. intros a b c. unfold created_first. lia. Qed.





Lemma ctx_item_empty (key : string) : ctx_item key (Some ∅) = None.
Proof. by rewrite ctx_item_lookup, lookup_empty. Qed.


(** X2: what the endpoint can answer.  The intent of a response follows
    from the classified intent and the request alone; it is one of nine
    intents, none of which is a completion intent, so the endpoint
    never removes a user's entry from the context store; a request
    that fails leaves the store as it was. *)
Theorem response_intent_policy (cs : Contexts) (uid : string)
    (req : ChatMessageRequest) (w : World) :
  match send_chat_message cs uid req w with
  | (Response r, cs', _) =>
      intent r = response_intent_of
                   (detect_intent (text req)
                      (Some (get_conversation_context cs uid))) req
      ∧ intent r ∈ [ "chat"; "save_memory"; "add_description";
                     "search_memory"; "confirm_delete"; "edit_memory";
                     "update_name"; "update_avatar"; "update_password" ]
      ∧ (intent r ∉ completion_intents)
      ∧ (is_Some (cs !! uid) → is_Some (cs' !! uid))
  | (HTTPException _ _, cs', _) => cs' = cs
  end.
Proof.
  pose proof (send_chat_message_outcome cs uid req w) as H. cbv zeta in H.
  destruct (send_chat_message cs uid req w) as [[[r|code e] cs'] w'].
  - destruct H as (-> & t & mems & u & a & _ & _ & _ & _ & _ & _ & _ & Hi & _).
    split; [exact Hi|].
    assert (intent r ∉ completion_intents) as Hnc
      by (rewrite Hi; apply response_intent_not_completion).
    split; [|split; [exact Hnc|]].
    + rewrite Hi. unfold response_intent_of, dispatched_intents.
      repeat case_decide; try case_match; subst;
        rewrite ?elem_of_cons, ?elem_of_nil in *; tauto.
    + intros Hsome. unfold update_context.
      case_decide; [by rewrite lookup_insert_eq|].
      by rewrite decide_False.
  - by destruct H as (_ & -> & _).
Qed.

(** One turn of a user whose context expects [e]. *)
Lemma armed_step (cs : Contexts) (uid : string) (req : ChatMessageRequest)
    (w : World) (e : string) :
  get_conversation_context cs uid !! "expected_intent" = Some e →
  ∃ e', get_conversation_context (send_chat_message cs uid req w).1.2 uid
          !! "expected_intent" = Some e'
        ∧ (e' = e
           ∨ (e = "save_memory" ∧ e' = "add_description"
              ∧ Py.truthy (imageUrl req) = true)
           ∨ (e = "delete_memory" ∧ e' = "confirm_delete")).
Proof.
  intros He.
  pose proof (send_chat_message_outcome cs uid req w) as H. cbv zeta in H.
  assert (detect_intent (text req) (Some (get_conversation_context cs uid)) = e)
    as Hdet by (unfold detect_intent; by rewrite ctx_item_lookup, He).
  rewrite Hdet in H.
  destruct (send_chat_message cs uid req w) as [[[r|code e0] cs'] w'];
    cbn [fst snd].
  - destruct H as (-> & t & mems & u & a & _ & _ & _ & _ & _ & _ & _ & Hi & _).
    destruct (decide (intent r ∈ continuation_intents)) as [Hin|Hnot].
    + exists (intent r). split; [by apply update_context_armed|].
      rewrite Hi in Hin |- *. clear Hi. unfold response_intent_of in *.
      destruct (decide (e = "save_memory")) as [->|?].
      { destruct (Py.truthy (imageUrl req)) eqn:Ht; [|by left].
        right. left. done. }
      destruct (decide (e = "delete_memory")) as [->|?].
      { right. right. done. }
      destruct (decide (e ∈ dispatched_intents)); [by left|].
      exfalso. revert Hin. unfold continuation_intents.
      rewrite !elem_of_cons, elem_of_nil. intros Hc.
      repeat (destruct Hc as [Hc|Hc]); done.
    + exists e. split; [|by left]. unfold update_context.
      rewrite decide_False by exact Hnot.
      rewrite decide_False; [done|].
      rewrite Hi. apply response_intent_not_completion.
  - destruct H as (_ & -> & _). exists e. split; [done|by left].
Qed.

(** X3: once a context expects an intent, it keeps expecting one.  After
    a turn the expected intent is the same one, except that
    [save_memory] becomes [add_description] when the request carries an
    image and [delete_memory] becomes [confirm_delete]; any other
    expected intent stays through every sequence of turns, of any
    users. *)
Theorem expected_intent_transitions (cs : Contexts) (uid : string)
    (req : ChatMessageRequest) (w : World) (e : string) :
  get_conversation_context cs uid !! "expected_intent" = Some e →
  (∃ e', get_conversation_context (send_chat_message cs uid req w).1.2 uid
           !! "expected_intent" = Some e'
         ∧ (e' = e
            ∨ (e = "save_memory" ∧ e' = "add_description"
               ∧ Py.truthy (imageUrl req) = true)
            ∨ (e = "delete_memory" ∧ e' = "confirm_delete")))
  ∧ (e ≠ "save_memory" → e ≠ "delete_memory" →
     ∀ turns, get_conversation_context (run_turns cs w turns).1 uid
                !! "expected_intent" = Some e).
Proof.
  intros He. split; [by apply armed_step|].
  intros Hs Hd turns. revert cs w He.
  induction turns as [|[uid' req'] rest IH]; intros cs w He; [done|].
  cbn [run_turns].
  destruct (decide (uid' = uid)) as [->|Hne].
  - destruct (armed_step cs uid req' w e He) as (e' & He' & Hcase).
    destruct (send_chat_message cs uid req' w) as [[res cs'] w'].
    cbn [fst snd] in He'. apply IH.
    destruct Hcase as [->|[(-> & _)|(-> & _)]]; done.
  - pose proof (send_chat_message_other cs uid' uid req' w) as Hother.
    destruct (send_chat_message cs uid' req' w) as [[res cs'] w'].
    cbn [fst snd] in Hother. apply IH.
    unfold get_conversation_context in *. by rewrite Hother.
Qed.

Lemma expected_intent_transitions_witness :
  get_conversation_context (run_turns awaiting_password world0 three_turns).1
    "u1" !! "expected_intent"
  = Some "update_password".
Proof.
  refine (proj2 (expected_intent_transitions awaiting_password "u1"
                   (say "hello") world0 "update_password" _) _ _ three_turns).
  - by_decide.
  - by_decide.
  - by_decide.
Defined.







(** X7: after [clear_conversation_context] the classifier reads the text
    alone: the cleared store, an empty context and no context at all
    give the same intent for every text. *)
Theorem cleared_context_reads_text (cs : Contexts) (uid text : string) :
  detect_intent text
    (Some (get_conversation_context (clear_conversation_context cs uid) uid))
  = detect_intent text None
  ∧ detect_intent text (Some ∅) = detect_intent text None.
Proof.
  unfold get_conversation_context, clear_conversation_context.
  rewrite lookup_delete_eq. cbn [default from_option id].
  split; unfold detect_intent, focus_intent; by rewrite !ctx_item_empty.
Qed.

(** X8: without an expected intent and a memory in focus, a text with
    "save" followed on the same line by "memory" (in any letter case)
    is classified [save_memory], whatever else it says. *)
Theorem save_pattern_wins (text : string) (current_context : option Context)
    (a g b : string) :
  no_key "expected_intent" current_context →
  no_key "memory_id" current_context →
  Py.lower text = a +:+ "save" +:+ g +:+ "memory" +:+ b →
  ¬ occurs_in (String newline EmptyString) g →
  detect_intent text current_context = "save_memory".
Proof.
  intros H1 H2 Htext Hg.
  rewrite (detect_intent_no_context _ _ H1 H2).
  assert (Re.search [Lit "save"; DotStar; Lit "memory"] (Py.lower text) = true)
    as Hfound.
  { apply search_spec. exists a, ("save" +:+ g +:+ "memory"), b.
    split; [by rewrite Htext, !str_app_assoc|].
    exists (g +:+ "memory"). split; [done|].
    exists g, "memory". split; [done|]. split.
    - apply not_true_iff_false. intros Hc. by apply contains_spec in Hc.
    - exists "". done. }
  unfold intent_patterns. cbn [scan_patterns any_pattern].
  by rewrite Hfound.
Qed.

Lemma save_pattern_wins_witness :
  detect_intent "Find it and SAVE this as a Memory, please" None
  = "save_memory".
Proof.
  apply (save_pattern_wins _ None "find it and " " this as a " ", please").
  - exact I.
  - exact I.
  - vm_compute. reflexivity.
  - by_decide.
Defined.

(* ===================================================================== *)
(** * The text helpers *)
(* ===================================================================== *)

Lemma length_str_take (n : nat) (s : string) :
  String.length (str_take n s) = min n (String.length s).
Proof.
  revert s. induction n as [|n IH]; intros [|c s]; cbn; [done..|].
  by rewrite IH.
Qed.

Lemma str_take_all (n : nat) (s : string) :
  String.length s ≤ n → str_take n s = s.
Proof.
  revert s. induction n as [|n IH]; intros [|c s] H; cbn in *;
    [done|lia|done|].
  rewrite IH; [done|lia].
Qed.

Lemma length_slice_to (k : Z) (s : string) :
  String.length (slice_to k s)
  = if (0 <=? k)%Z then min (Z.to_nat k) (String.length s)
    else String.length s - Z.to_nat (- k).
Proof.
  unfold slice_to. destruct (0 <=? k)%Z; rewrite length_str_take; lia.
Qed.

(** X9: for a limit of at least three, [truncate_text] returns a text
    no longer than the limit: the text itself when it fits, and
    otherwise its first [max_length - 3] characters followed by three
    dots, which is exactly [max_length] long; truncating twice is
    truncating once. *)
Theorem truncate_text_fits (text : string) (max_length : Z) :
  (3 ≤ max_length)%Z →
  (Z.of_nat (String.length (truncate_text text max_length)) ≤ max_length)%Z
  ∧ ((Z.of_nat (String.length text) ≤ max_length)%Z →
     truncate_text text max_length = text)
  ∧ ((max_length < Z.of_nat (String.length text))%Z →
     truncate_text text max_length
     = str_take (Z.to_nat (max_length - 3)) text +:+ "..."
     ∧ Z.of_nat (String.length (truncate_text text max_length)) = max_length)
  ∧ truncate_text (truncate_text text max_length) max_length
    = truncate_text text max_length.
Proof.
  intros H3.
  assert ((max_length < Z.of_nat (String.length text))%Z →
     truncate_text text max_length
     = str_take (Z.to_nat (max_length - 3)) text +:+ "..."
     ∧ Z.of_nat (String.length (truncate_text text max_length)) = max_length)
    as Hcut.
  { intros Hlong. unfold truncate_text, slice_to.
    rewrite (proj2 (Z.leb_gt _ _)) by done.
    rewrite (proj2 (Z.leb_le 0 (max_length - 3))) by lia.
    split; [done|]. rewrite str_length_app, length_str_take. cbn. lia. }
  assert ((Z.of_nat (String.length text) ≤ max_length)%Z →
     truncate_text text max_length = text) as Hkeep.
  { intros Hshort. unfold truncate_text.
    by rewrite (proj2 (Z.leb_le _ _)). }
  assert (Z.of_nat (String.length (truncate_text text max_length))
          ≤ max_length)%Z as Hfit.
  { destruct (Z.le_gt_cases (Z.of_nat (String.length text)) max_length)
      as [Hs|Hl].
    - by rewrite Hkeep.
    - destruct (Hcut Hl) as [_ ->]. lia. }
  split; [done|]. split; [done|]. split; [done|].
  unfold truncate_text at 1. by rewrite (proj2 (Z.leb_le _ _)).
Qed.

Lemma truncate_text_fits_witness :
  truncate_text "a walk along the river at dawn" 12 = "a walk al...".
Proof.
  destruct (truncate_text_fits "a walk along the river at dawn" 12)
    as (_ & _ & Hcut & _); [lia|].
  destruct Hcut as [-> _]; [cbn; lia|]. reflexivity.
Defined.

(** X10: for a limit below three, [truncate_text] breaks its limit: a
    text longer than the limit comes back longer than the limit, with
    the three dots and whatever the negative slice keeps. *)
Theorem truncate_text_small_limit (text : string) (max_length : Z) :
  (max_length < 3)%Z →
  (max_length < Z.of_nat (String.length text))%Z →
  (max_length < Z.of_nat (String.length (truncate_text text max_length)))%Z
  ∧ 3 ≤ String.length (truncate_text text max_length).
Proof.
  intros Hsmall Hlong. unfold truncate_text.
  rewrite (proj2 (Z.leb_gt _ _)) by done.
  rewrite str_length_app. cbn [String.length]. lia.
Qed.

Lemma truncate_text_small_limit_witness :
  (2 < Z.of_nat (String.length (truncate_text "abcd" 2)))%Z
  ∧ 3 ≤ String.length (truncate_text "abcd" 2).
Proof. apply truncate_text_small_limit; cbn; lia. Defined.

Lemma class_run_spec (limit : nat) (s : string) :
  ∃ core, s = core +:+ (class_run limit s).2
          ∧ String.length core = (class_run limit s).1
          ∧ (class_run limit s).1 ≤ limit
          ∧ str_all is_word core = true.
Proof.
  revert s. induction limit as [|k IH]; intros s.
  - exists "". destruct s; cbn; auto with lia.
  - destruct s as [|c s]; [exists ""; cbn; auto with lia|].
    cbn [class_run]. destruct (is_word c) eqn:Hc.
    + destruct (IH s) as (core & Hs & Hl & Hk & Hall).
      destruct (class_run k s) as [n rest]. cbn [fst snd] in *.
      exists (String c core). rewrite str_app_cons, <- Hs. cbn.
      rewrite Hc, Hall, Hl. auto with lia.
    + exists "". cbn. auto with lia.
Qed.

(** The run of class characters is the whole prefix when what follows
    does not start with one. *)
Lemma class_run_app (limit : nat) (core rest : string) :
  str_all is_word core = true →
  String.length core ≤ limit →
  (rest = EmptyString ∨ rest = String newline EmptyString) →
  class_run limit (core +:+ rest) = (String.length core, rest).
Proof.
  revert limit. induction core as [|c core IH]; intros limit Hall Hlen Hrest.
  - rewrite str_app_nil_l. destruct limit; destruct Hrest as [-> | ->]; done.
  - cbn in Hall, Hlen. apply andb_true_iff in Hall as [Hc Hall].
    destruct limit as [|k]; [lia|]. rewrite str_app_cons. cbn [class_run].
    rewrite Hc, (IH k) by (done || lia). done.
Qed.

(** X11: [validate_username] accepts exactly the names of three to
    twenty letters, digits and underscores, and the same names
    followed by one newline, which [$] lets through. *)
Theorem validate_username_spec (username : string) :
  validate_username username = true
  ↔ ∃ core,
      (username = core ∨ username = core +:+ String newline EmptyString)
      ∧ 3 ≤ String.length core ≤ 20
      ∧ str_all is_word core = true.
Proof.
  unfold validate_username. split.
  - destruct (class_run_spec 20 username) as (core & Hs & Hl & Hk & Hall).
    destruct (class_run 20 username) as [n rest]. cbn [fst snd] in *.
    intros [Hn Hrest]%andb_true_iff. apply Nat.leb_le in Hn.
    exists core. split; [|split; [lia|done]].
    apply orb_true_iff in Hrest as [Hr|Hr]; apply bool_decide_eq_true in Hr;
      subst rest; [left|right]; [by rewrite str_app_nil_r in Hs|done].
  - intros (core & Hu & [H3 H20] & Hall).
    assert (∃ rest, username = core +:+ rest
                    ∧ (rest = "" ∨ rest = String newline "")) as (rest & -> & Hr).
    { destruct Hu as [->| ->]; [exists ""|exists (String newline "")];
        rewrite ?str_app_nil_r; auto. }
    rewrite class_run_app by done.
    apply andb_true_iff. split; [by apply Nat.leb_le|].
    apply orb_true_iff. destruct Hr as [->| ->]; [left|right];
      by apply bool_decide_eq_true.
Qed.

Lemma str_any_map_sanitize (s : string) :
  str_any is_slash (str_map sanitize_char s) = false.
Proof.
  induction s as [|c s IH]; [done|]. cbn. rewrite IH, orb_false_r.
  unfold sanitize_char, is_slash.
  destruct (is_word c || Ascii.eqb c "." || Ascii.eqb c "-") eqn:E; [|done].
  destruct (Ascii.eqb_spec c "/") as [->|]; [|done]. done.
Qed.

Lemma str_any_take (P : ascii → bool) (n : nat) (s : string) :
  str_any P s = false → str_any P (str_take n s) = false.
Proof.
  revert s. induction n as [|n IH]; intros [|c s]; cbn; try done.
  intros [-> Hs]%orb_false_iff. by rewrite IH.
Qed.

Lemma basename_no_slash (s : string) :
  str_any is_slash s = false → basename s = s.
Proof.
  destruct s as [|c s]; [done|]. cbn.
  intros [Hc Hs]%orb_false_iff. by rewrite Hs, Hc.
Qed.

Lemma sanitize_char_idempotent (c : ascii) :
  sanitize_char (sanitize_char c) = sanitize_char c.
Proof.
  unfold sanitize_char.
  destruct (is_word c || Ascii.eqb c "." || Ascii.eqb c "-") eqn:E;
    [by rewrite E|done].
Qed.

Lemma str_map_take (f : ascii → ascii) (n : nat) (s : string) :
  str_map f (str_take n s) = str_take n (str_map f s).
Proof.
  revert s. induction n as [|n IH]; intros [|c s]; cbn; try done.
  by rewrite IH.
Qed.

Lemma str_map_sanitize_idempotent (s : string) :
  str_map sanitize_char (str_map sanitize_char s) = str_map sanitize_char s.
Proof.
  induction s as [|c s IH]; [done|]. cbn.
  by rewrite sanitize_char_idempotent, IH.
Qed.

(** X12: a sanitized file name has at most 255 characters and no path
    separator, and sanitizing it again changes nothing. *)
Theorem sanitize_filename_safe (filename : string) :
  String.length (sanitize_filename filename) ≤ 255
  ∧ str_any is_slash (sanitize_filename filename) = false
  ∧ sanitize_filename (sanitize_filename filename)
    = sanitize_filename filename.
Proof.
  unfold sanitize_filename. cbv zeta.
  set (b := basename filename).
  assert (str_any is_slash (str_take 255 (str_map sanitize_char b)) = false)
    as Hns by apply str_any_take, str_any_map_sanitize.
  split; [rewrite length_str_take; lia|]. split; [done|].
  rewrite (basename_no_slash _ Hns).
  rewrite str_map_take, str_map_sanitize_idempotent.
  apply str_take_all. rewrite length_str_take. lia.
Qed.

Lemma lower_char_not_upper (c : ascii) :
  is_upper (Py.lower_char c) = false.
Proof. by destruct c as [[] [] [] [] [] [] [] []]. Qed.

Lemma str_all_rev_app (P : ascii → bool) (s acc : string) :
  str_all P (String.rev_app s acc) = str_all P s && str_all P acc.
Proof.
  revert acc. induction s as [|c s IH]; intros acc; [done|].
  cbn [String.rev_app str_all]. rewrite IH. cbn [str_all].
  by destruct (P c), (str_all P s), (str_all P acc).
Qed.

(** Every word [split] returns is made of characters of the text that
    are not white space. *)
Lemma split_from_words (P : ascii → bool) (cur s : string) :
  str_all P cur = true →
  str_all (λ c, P c || is_space c) s = true →
  ∀ word, word ∈ split_from cur s → str_all P word = true.
Proof.
  revert cur. induction s as [|c s IH]; intros cur Hcur Hs word.
  - cbn [split_from]. destruct cur as [|d cur]; [by intros ?%elem_of_nil|].
    intros ->%list_elem_of_singleton. unfold String.rev.
    by rewrite str_all_rev_app, Hcur.
  - cbn [split_from]. cbn [str_all] in Hs.
    apply andb_true_iff in Hs as [Hc Hs].
    destruct (is_space c) eqn:Hsp.
    + rewrite elem_of_app. intros [Hin|Hin]; [|by apply (IH "")].
      destruct cur as [|d cur]; [by apply elem_of_nil in Hin|].
      apply list_elem_of_singleton in Hin as ->. unfold String.rev.
      by rewrite str_all_rev_app, Hcur.
    + apply IH; [|done]. cbn [str_all]. rewrite Hcur.
      rewrite orb_false_r in Hc. by rewrite Hc.
Qed.

Lemma clean_lower_chars (text : string) :
  str_all (λ c, is_label_char c || is_space c) (clean (Py.lower text)) = true.
Proof.
  induction text as [|c text IH]; [done|].
  cbn [Py.lower clean str_all]. rewrite IH, andb_true_r.
  unfold is_label_char.
  destruct (is_word (Py.lower_char c) || is_space (Py.lower_char c)) eqn:E.
  - rewrite lower_char_not_upper. cbn [negb]. by rewrite andb_true_r.
  - reflexivity.
Qed.

(** X13: [extract_labels_from_text] returns at most ten labels, no label
    twice; each label has more than three characters and is no stop
    word, and for an ASCII text it consists of lower-case letters,
    digits and underscores. *)
Theorem extract_labels_bounded (text : string) :
  length (extract_labels_from_text text) ≤ 10
  ∧ NoDup (extract_labels_from_text text)
  ∧ ∀ label, label ∈ extract_labels_from_text text →
      3 < String.length label
      ∧ (label ∉ stop_words)
      ∧ (str_all is_ascii text = true → str_all is_label_char label = true).
Proof.
  unfold extract_labels_from_text. cbv zeta.
  set (words := split (clean (Py.lower text))).
  split; [rewrite length_take; lia|]. split.
  - apply (sublist_NoDup _ (remove_dups (filter (λ word,
        3 < String.length word ∧ word ∉ stop_words) words)));
      [apply NoDup_remove_dups|apply sublist_take].
  - intros label Hin. apply subseteq_take in Hin.
    rewrite elem_of_remove_dups, list_elem_of_filter in Hin.
    destruct Hin as [[Hlen Hstop] Hw]. split; [done|]. split; [done|].
    intros _.
    apply (split_from_words is_label_char "" (clean (Py.lower text)));
      [done|apply clean_lower_chars|done].
Qed.

Lemma extract_labels_bounded_witness :
  str_all is_label_char "birthday" = true.
Proof.
  refine (proj2 (proj2 (proj2 (proj2 (extract_labels_bounded
            "Grandma's 80th BIRTHDAY party, with the whole family!"))
            "birthday" _)) _).
  - by_decide.
  - reflexivity.
Defined.

(* ===================================================================== *)
(** * The message table, the memory table and the memory API *)
(* ===================================================================== *)

(** X14: [count_user_messages] after a turn.  A turn whose handler
    returns adds two to the count of the user who sent it; a turn that
    raises adds one or nothing, and one when the handler raised
    [MemoryNotFoundError]; no turn changes the count of another user. *)
Theorem turn_message_count (uid other : string) (req : ChatMessageRequest)
    (ctx : option Context) (w : World) :
  let count := λ w u, length (user_messages w u) in
  message_crud_count_user_messages other w = (Ok (count w other), w)
  ∧ match process_message uid req ctx w with
    | (Ok _, w') =>
        count w' other = if decide (other = uid) then count w other + 2
                         else count w other
    | (Raise e, w') =>
        (other ≠ uid → count w' other = count w other)
        ∧ (count w' uid = count w uid ∨ count w' uid = count w uid + 1)
        ∧ (e = MemoryNotFoundError "Memory not found" →
           count w' uid = count w uid + 1)
        ∧ (count w' uid = count w uid →
           (∃ table, e = IntegrityError table) ∧ ¬ ids_fresh turn_draws w)
    end.
Proof.
  intros count. split; [reflexivity|].
  pose proof (process_message_outcome uid req ctx w) as H.
  destruct (process_message uid req ctx w) as [[r|e] w'].
  - destruct H as (t & mems & u & a & _ & Hstep & _ & (Huid & _) & (Haid & _)
                   & _).
    destruct Hstep as (_ & _ & _ & _ & _ & Hg).
    unfold count. rewrite (user_messages_app w' other _ _ Hg).
    rewrite length_app. fold (user_messages w other).
    rewrite !filter_cons, filter_nil, Huid, Haid.
    destruct (decide (other = uid)) as [->|Hne].
    + rewrite !decide_True by done. cbn. lia.
    + rewrite !decide_False by congruence. cbn. lia.
  - destruct H as [(t & mems & msgs & _ & Hstep & _ & Hmsgs & Hcause) Hfresh].
    destruct Hstep as (_ & _ & _ & _ & _ & Hg).
    assert (∀ who, count w' who
                   = count w who
                     + length (filter (λ m, Message.user_id m = who) msgs))
      as Hcount.
    { intros who. unfold count. rewrite (user_messages_app w' who _ _ Hg).
      by rewrite length_app. }
    assert (msgs ≠ [] → count w' uid = count w uid + 1) as Hone.
    { intros Hne. rewrite Hcount.
      destruct Hmsgs as [->|(u & -> & Huid & _)]; [done|].
      rewrite filter_cons, filter_nil, decide_True by done. reflexivity. }
    split; [|split; [|split]].
    + intros Hne. rewrite Hcount.
      destruct Hmsgs as [->|(u & -> & Huid & _)]; [cbn; lia|].
      rewrite filter_cons, filter_nil, decide_False by congruence. cbn. lia.
    + destruct msgs as [|m msgs]; [left|right; by apply Hone].
      rewrite Hcount. cbn. lia.
    + intros ->. apply Hone.
      destruct Hcause as [[table Ht]|(_ & _ & Hne & _)];
        [discriminate Ht|exact Hne].
    + intros Hsame.
      destruct Hcause as [[table ->]|(_ & _ & Hne & _)].
      * split; [by exists table|].
        intros Hf. exact (Hfresh Hf table eq_refl).
      * apply Hone in Hne. lia.
Qed.

(** ** The message table *)

Lemma message_crud_get_by_id_run (mid : string) (w : World) :
  message_crud_get_by_id mid w
  = (Ok (head (filter (λ m, Message.id m = mid) (messages w))), w).
Proof. reflexivity. Qed.

Lemma head_filter_none {A} (P : A → Prop) `{!∀ x, Decision (P x)}
    (l : list A) :
  head (filter P l) = None ↔ ∀ x, x ∈ l → ¬ P x.
Proof.
  split.
  - intros Hhead x Hin HP.
    assert (Hx : x ∈ filter P l) by (by apply list_elem_of_filter).
    destruct (filter P l); [by apply elem_of_nil in Hx|done].
  - intros Hall. destruct (filter P l) as [|x l'] eqn:E; [done|].
    assert (Hx : x ∈ filter P l) by (rewrite E; left).
    apply list_elem_of_filter in Hx as [HP Hin]. by destruct (Hall x Hin).
Qed.

Lemma head_filter_some {A} (P : A → Prop) `{!∀ x, Decision (P x)}
    (l : list A) (x : A) :
  head (filter P l) = Some x → P x ∧ x ∈ l.
Proof.
  intros Hhead. apply head_Some_elem_of in Hhead.
  by apply list_elem_of_filter in Hhead.
Qed.

(** X15: [MessageCRUD.delete] removes the rows with the given id and
    nothing else: it answers [True] exactly when there was one, after
    which the id is not found and a second deletion answers [False];
    for an unknown id it answers [False] and the database is
    unchanged.  It never raises. *)
Theorem message_delete_then_lookup (mid : string) (w : World) :
  match message_crud_delete mid w with
  | (Ok true, w') =>
      (∃ m, m ∈ messages w ∧ Message.id m = mid)
      ∧ (∀ m, m ∈ messages w' ↔ m ∈ messages w ∧ Message.id m ≠ mid)
      ∧ messages w' `sublist_of` messages w
      ∧ message_crud_get_by_id mid w' = (Ok None, w')
      ∧ message_crud_delete mid w' = (Ok false, w')
      ∧ memories w' = memories w ∧ users w' = users w
  | (Ok false, w') =>
      w' = w ∧ ∀ m, m ∈ messages w → Message.id m ≠ mid
  | (Raise _, _) => False
  end.
Proof.
  unfold message_crud_delete.
  rewrite (bind_ok _ _ _ _ _ (message_crud_get_by_id_run mid w)).
  destruct (head (filter _ (messages w))) as [m|] eqn:E.
  - apply head_filter_some in E as [Hid Hin].
    change ((db_delete_message m ≫= λ _, mret true) w)
      with (Ok true, with_messages w
              (filter (λ m', Message.id m' ≠ Message.id m) (messages w))).
    rewrite Hid.
    set (w' := with_messages w _).
    assert (Hnone : head (filter (λ m', Message.id m' = mid) (messages w'))
                    = None).
    { apply head_filter_none. intros x Hx.
      apply list_elem_of_filter in Hx as [Hx _]. done. }
    split; [by exists m|]. split.
    { intros x. unfold w'. cbn [messages with_messages].
      rewrite list_elem_of_filter. tauto. }
    split; [apply sublist_filter|].
    split; [by rewrite message_crud_get_by_id_run, Hnone|].
    split; [|done].
    rewrite (bind_ok _ _ _ _ _ (message_crud_get_by_id_run mid w')).
    by rewrite Hnone.
  - split; [done|]. intros m Hin Hid.
    by apply (proj1 (head_filter_none _ _) E m Hin).
Qed.

(** ** The memory table *)

Lemma memory_crud_get_by_id_with_run (mid : string) (incl : bool) (w : World) :
  memory_crud_get_by_id_with mid incl w
  = (Ok (head (filter (λ m, Memory.id m = mid
                            ∧ (incl = true ∨ Memory.is_deleted m = false))
                      (memories w))), w).
Proof. reflexivity. Qed.

(** The default of [include_deleted] gives the lookup the chat
    handlers use. *)
Lemma memory_crud_get_by_id_default (mid : string) (w : World) :
  memory_crud_get_by_id_with mid false w = memory_crud_get_by_id mid w.
Proof.
  rewrite memory_crud_get_by_id_with_run, memory_crud_get_by_id_run.
  do 3 f_equal. apply list_filter_iff. intros m. intuition discriminate.
Qed.

Lemma unique_row (l : list Memory.t) (a b : Memory.t) :
  NoDup (Memory.id <$> l) → a ∈ l → b ∈ l → Memory.id a = Memory.id b → a = b.
Proof.
  induction l as [|x l IH]; intros Hnd Ha Hb Hid.
  - by apply elem_of_nil in Ha.
  - rewrite fmap_cons in Hnd. apply NoDup_cons in Hnd as [Hx Hnd].
    apply elem_of_cons in Ha as [->|Ha]; apply elem_of_cons in Hb as [->|Hb].
    + done.
    + destruct Hx. rewrite Hid. by apply list_elem_of_fmap_2.
    + destruct Hx. rewrite <- Hid. by apply list_elem_of_fmap_2.
    + by apply IH.
Qed.

(** Rewriting the rows of one key with a change that keeps the key. *)
Lemma update_rows (l : list Memory.t) (mid : string) (f : Memory.t → Memory.t) :
  (∀ r, Memory.id (f r) = Memory.id r) →
  let g := λ r, if decide (Memory.id r = mid) then f r else r in
  Memory.id <$> (g <$> l) = Memory.id <$> l
  ∧ (∀ r, Memory.id r ≠ mid → r ∈ g <$> l ↔ r ∈ l)
  ∧ (∀ r, r ∈ g <$> l → Memory.id r = mid →
       ∃ x, x ∈ l ∧ Memory.id x = mid ∧ r = f x)
  ∧ (∀ x, x ∈ l → Memory.id x = mid → f x ∈ g <$> l).
Proof.
  intros Hf g.
  assert (Hg : ∀ r, Memory.id (g r) = Memory.id r).
  { intros r. unfold g. by destruct (decide _). }
  split.
  { rewrite <- list_fmap_compose. apply list_fmap_ext. intros _ r _. apply Hg. }
  split.
  { intros r Hr. rewrite list_elem_of_fmap. split.
    - intros (x & -> & Hx). rewrite Hg in Hr. unfold g.
      by rewrite decide_False.
    - intros Hin. exists r. split; [|done]. unfold g. by rewrite decide_False. }
  split.
  { intros r Hin Hr. apply list_elem_of_fmap in Hin as (x & -> & Hx).
    rewrite Hg in Hr. exists x. unfold g. by rewrite decide_True. }
  intros x Hx Hid. apply list_elem_of_fmap. exists x. split; [|done].
  unfold g. by rewrite decide_True.
Qed.

Lemma deletion_id (dt : string) (m : Memory.t) :
  Memory.id (deletion dt m) = Memory.id m.
Proof. unfold deletion. by destruct (decide _). Qed.

Lemma deletion_field (dt : string) (m : Memory.t) :
  if decide (dt = "photo")
  then Memory.image_url (deletion dt m) = None
       ∧ Memory.is_deleted (deletion dt m) = Memory.is_deleted m
  else Memory.is_deleted (deletion dt m) = true.
Proof. unfold deletion. by destruct (decide _). Qed.

Lemma memory_crud_delete_run (mid dt : string) (w : World) :
  memory_crud_delete mid dt w
  = match head (filter (λ m, Memory.id m = mid) (memories w)) with
    | None => (Ok false, w)
    | Some m =>
        if decide (deletion dt m = m) then (Ok true, w)
        else (Ok true,
              with_memories (advance 1 0 w)
                ((λ r, if decide (Memory.id r = Memory.id m)
                       then touch (clock w (ticks w) / 1000)%N (deletion dt r)
                       else r) <$> memories w))
    end.
Proof.
  unfold memory_crud_delete.
  rewrite (bind_ok _ _ _ _ _ (memory_crud_get_by_id_with_run mid true w)).
  rewrite (list_filter_iff _ (λ m, Memory.id m = mid))
    by (intros m; intuition auto).
  destruct (head _) as [m|]; [|done].
  cbv zeta. fold (deletion dt).
  destruct (decide _); [done|].
  by rewrite (bind_ok _ _ _ _ _ (now_ms_run w)).
Qed.

(** X16: [MemoryCRUD.delete] never removes a row.  With unique ids, a
    deletion that answers [True] found the row (deleted or not), keeps
    the ids of the table and every row of another id, and leaves the
    row without image for the type ["photo"] (as visible as before) and
    marked deleted for any other type; for an unknown id it answers
    [False] and changes nothing. *)
Theorem memory_delete_is_soft (mid dt : string) (w : World) :
  memory_ids_unique w →
  match memory_crud_delete mid dt w with
  | (Ok true, w') =>
      (∃ m, memory_row w mid m)
      ∧ Memory.id <$> memories w' = Memory.id <$> memories w
      ∧ (∀ m, Memory.id m ≠ mid → m ∈ memories w' ↔ m ∈ memories w)
      ∧ (∀ m, memory_row w' mid m →
           if decide (dt = "photo") then Memory.image_url m = None
           else Memory.is_deleted m = true)
      ∧ (dt = "photo" → memory_exists w' mid ↔ memory_exists w mid)
      ∧ messages w' = messages w ∧ users w' = users w
  | (Ok false, w') =>
      w' = w ∧ ∀ m, m ∈ memories w → Memory.id m ≠ mid
  | (Raise _, _) => False
  end.
Proof.
  intros Hkey. rewrite memory_crud_delete_run.
  destruct (head _) as [m|] eqn:E.
  2:{ split; [done|]. intros m Hin Hid.
      by apply (proj1 (head_filter_none _ _) E m Hin). }
  apply head_filter_some in E as [Hid Hin].
  pose proof (deletion_field dt) as Hfield.
  destruct (decide (deletion dt m = m)) as [Hsame|Hchange].
  - split; [by exists m|]. split; [done|]. split; [done|]. split; [|done].
    intros r [Hr Hrid].
    assert (r = m) as ->
      by (apply (unique_row (memories w));
          [exact Hkey|exact Hr|exact Hin|congruence]).
    specialize (Hfield m). rewrite Hsame in Hfield.
    destruct (decide (dt = "photo")); [by destruct Hfield|done].
  - rewrite Hid.
    destruct (update_rows (memories w) mid
                (λ r, touch (clock w (ticks w) / 1000)%N (deletion dt r)))
      as (Hids & Hother & Hthis & Hin').
    { intros r. apply deletion_id. }
    split; [by exists m|]. split; [exact Hids|]. split; [exact Hother|].
    split.
    { intros r [Hr Hrid]. destruct (Hthis r Hr Hrid) as (x & _ & _ & ->).
      specialize (Hfield x).
      destruct (decide (dt = "photo")); [by destruct Hfield|done]. }
    split; [|done].
    intros ->. split.
    + intros (r & Hr & Hrid & Hdel).
      destruct (Hthis r Hr Hrid) as (x & Hx & Hxid & ->).
      exists x. by repeat split.
    + intros (x & Hx & Hxid & Hdel).
      exists (touch (clock w (ticks w) / 1000)%N (deletion "photo" x)).
      split; [by apply Hin'|]. by split.
Qed.

Lemma head_filter_fmap {A} (P : A → Prop) `{!∀ x, Decision (P x)}
    (g : A → A) (l : list A) :
  (∀ x, P (g x) ↔ P x) →
  head (filter P (g <$> l)) = g <$> head (filter P l).
Proof.
  intros Hg. induction l as [|a l IH]; [done|].
  rewrite fmap_cons, !filter_cons.
  destruct (decide (P (g a))) as [Hga|Hga], (decide (P a)) as [Ha|Ha].
  - done.
  - destruct Ha. by apply Hg.
  - destruct Hga. by apply Hg.
  - exact IH.
Qed.

Lemma deletion_again (dt : string) (t : N) (m : Memory.t) :
  deletion dt (touch t (deletion dt m)) = touch t (deletion dt m).
Proof. unfold deletion. by destruct (decide _). Qed.

(** Deleting once more finds the row again and has nothing to write. *)
Lemma memory_crud_delete_again (mid dt : string) (w w' : World) :
  memory_crud_delete mid dt w = (Ok true, w') →
  memory_crud_delete mid dt w' = (Ok true, w').
Proof.
  rewrite memory_crud_delete_run.
  destruct (head _) as [m|] eqn:E; [|done].
  destruct (decide (deletion dt m = m)) as [Hsame|Hchange].
  - intros [= <-]. rewrite memory_crud_delete_run, E. by rewrite decide_True.
  - intros [= <-]. rewrite memory_crud_delete_run.
    cbn [memories with_memories].
    rewrite head_filter_fmap, E.
    2:{ intros x. destruct (decide _); [|done]. cbn. by rewrite deletion_id. }
    cbn [fmap option_fmap option_map].
    apply head_filter_some in E as [Hid _].
    rewrite (decide_True (P := Memory.id m = Memory.id m)) by done.
    by rewrite decide_True by apply deletion_again.
Qed.

(** What the rows of the key look like after a deletion. *)
Lemma deleted_rows (mid dt : string) (w w' : World) :
  memory_ids_unique w →
  memory_crud_delete mid dt w = (Ok true, w') →
  ∀ r, memory_row w' mid r →
    if decide (dt = "photo") then Memory.image_url r = None
    else Memory.is_deleted r = true.
Proof.
  intros Hkey. rewrite memory_crud_delete_run.
  destruct (head _) as [m|] eqn:E; [|done].
  apply head_filter_some in E as [Hid Hin].
  pose proof (deletion_field dt) as Hfield.
  destruct (decide (deletion dt m = m)) as [Hsame|Hchange].
  - intros [= <-] r [Hr Hrid].
    assert (r = m) as ->
      by (apply (unique_row (memories w));
          [exact Hkey|exact Hr|exact Hin|congruence]).
    specialize (Hfield m). rewrite Hsame in Hfield.
    destruct (decide (dt = "photo")); [by destruct Hfield|done].
  - intros [= <-] r [Hr Hrid]. rewrite Hid in Hr.
    destruct (update_rows (memories w) mid
                (λ r, touch (clock w (ticks w) / 1000)%N (deletion dt r)))
      as (_ & _ & Hthis & _).
    { intros x. apply deletion_id. }
    destruct (Hthis r Hr Hrid) as (x & _ & _ & ->).
    specialize (Hfield x).
    destruct (decide (dt = "photo")); [by destruct Hfield|done].
Qed.

Lemma memory_crud_user_owns_memory_run (uid mid : string) (w : World) :
  memory_crud_user_owns_memory uid mid w
  = (Ok match head (filter (λ m, Memory.id m = mid
                                 ∧ Memory.is_deleted m = false)
                           (memories w)) with
        | Some m => bool_decide (Memory.user_id m = uid)
        | None => false
        end, w).
Proof. reflexivity. Qed.

Lemma memory_service_get_memory_run (mid : string) (w : World) :
  memory_service_get_memory mid w
  = match head (filter (λ m, Memory.id m = mid ∧ Memory.is_deleted m = false)
                       (memories w)) with
    | Some m => (Ok (Memory.to_dict m), w)
    | None => (Raise (not_found mid), w)
    end.
Proof.
  unfold memory_service_get_memory.
  rewrite (bind_ok _ _ _ _ _ (memory_crud_get_by_id_run mid w)).
  by destruct (head _).
Qed.

Lemma memory_service_delete_memory_run (mid dt : string) (w : World) :
  memory_service_delete_memory mid dt w
  = match memory_crud_delete mid dt w with
    | (Ok true, w') =>
        (Ok (list_to_map
               [ ("success", VBool true);
                 ("message",
                   VStr (if decide (dt = "memory")
                         then "Memory deleted successfully"
                         else "Photo deleted successfully"));
                 ("memoryId", VStr mid) ]), w')
    | (Ok false, w') => (Raise (not_found mid), w')
    | (Raise e, w') => (Raise e, w')
    end.
Proof.
  unfold memory_service_delete_memory, mbind, M_bind.
  by destruct (memory_crud_delete mid dt w) as [[[|]|e] w'].
Qed.

Lemma no_row_not_found (mid : string) (w : World) :
  (∀ m, memory_row w mid m → Memory.is_deleted m = true) →
  memory_service_get_memory mid w = (Raise (not_found mid), w).
Proof.
  intros Hrows. rewrite memory_service_get_memory_run.
  destruct (head _) as [m|] eqn:E; [|done].
  apply head_filter_some in E as [[Hid Hdel] Hin].
  rewrite (Hrows m) in Hdel; [done|by split].
Qed.

(** X17: after [MemoryService.delete_memory] with a type other than
    ["photo"], [get_memory] raises "Memory <id> not found", while the
    same deletion succeeds again with the same answer; the deletion
    itself raises only when no row has the id, and then [get_memory]
    raises too. *)
Theorem deleted_memory_not_found (mid dt : string) (w : World) :
  memory_ids_unique w →
  dt ≠ "photo" →
  match memory_service_delete_memory mid dt w with
  | (Ok d, w') =>
      d !! "success" = Some (VBool true)
      ∧ d !! "memoryId" = Some (VStr mid)
      ∧ memory_service_get_memory mid w' = (Raise (not_found mid), w')
      ∧ memory_service_delete_memory mid dt w' = (Ok d, w')
  | (Raise e, w') =>
      e = not_found mid ∧ w' = w
      ∧ memory_service_get_memory mid w = (Raise (not_found mid), w)
  end.
Proof.
  intros Hkey Hdt. rewrite memory_service_delete_memory_run.
  destruct (memory_crud_delete mid dt w) as [[[|]|e] w'] eqn:E.
  - split; [reflexivity|]. split; [reflexivity|]. split.
    + apply no_row_not_found. intros m Hm.
      pose proof (deleted_rows mid dt w w' Hkey E m Hm) as Hdel.
      by rewrite decide_False in Hdel.
    + rewrite memory_service_delete_memory_run.
      by rewrite (memory_crud_delete_again mid dt w w' E).
  - rewrite memory_crud_delete_run in E.
    destruct (head _) as [m|] eqn:Em.
    { by destruct (decide _). }
    injection E as <-. split; [done|]. split; [done|].
    apply no_row_not_found. intros m [Hin Hid].
    by destruct (proj1 (head_filter_none _ _) Em m Hin).
  - rewrite memory_crud_delete_run in E.
    destruct (head _) as [m|]; [by destruct (decide _)|done].
Qed.

(** ** The memory API *)

Lemma memory_api_get_memory_run (uid mid : string) (w : World) :
  memory_api_get_memory uid mid w
  = match head (filter (λ m, Memory.id m = mid ∧ Memory.is_deleted m = false)
                       (memories w)) with
    | Some m =>
        if bool_decide (Memory.user_id m = uid)
        then (Returned (Memory.to_dict m), w)
        else (Raised 403 "You don't have permission to access this memory", w)
    | None => (Raised 403 "You don't have permission to access this memory", w)
    end.
Proof.
  unfold memory_api_get_memory.
  rewrite memory_crud_user_owns_memory_run, memory_service_get_memory_run.
  destruct (head _) as [m|]; [|done]. by destruct (bool_decide _).
Qed.

Lemma memory_api_delete_memory_run (uid mid dt : string) (w : World) :
  memory_api_delete_memory uid mid dt w
  = match head (filter (λ m, Memory.id m = mid ∧ Memory.is_deleted m = false)
                       (memories w)) with
    | Some m =>
        if bool_decide (Memory.user_id m = uid)
        then match memory_service_delete_memory mid dt w with
             | (Ok result, w') => (Returned result, w')
             | (Raise e, w') => (reraise e, w')
             end
        else (Raised 403 "You don't have permission to delete this memory", w)
    | None => (Raised 403 "You don't have permission to delete this memory", w)
    end.
Proof.
  unfold memory_api_delete_memory.
  rewrite memory_crud_user_owns_memory_run.
  destruct (head _) as [m|]; [|done]. by destruct (bool_decide _).
Qed.

(** A memory the ownership check has seen is there for the deletion. *)
Lemma visible_row_deleted (mid dt : string) (w : World) (m : Memory.t) :
  head (filter (λ m, Memory.id m = mid ∧ Memory.is_deleted m = false)
               (memories w)) = Some m →
  ∃ w', memory_crud_delete mid dt w = (Ok true, w').
Proof.
  intros Hm. apply head_filter_some in Hm as [[Hid _] Hin].
  rewrite memory_crud_delete_run.
  destruct (head _) as [m'|] eqn:E.
  - destruct (decide _); eauto.
  - by destruct (proj1 (head_filter_none _ _) E m Hin).
Qed.

(** X18: the endpoint [get_memory] never answers 404.  It returns the
    dictionary of the caller's own undeleted memory, and answers 403
    otherwise: when the memory belongs to another user and also when it
    does not exist. *)
Theorem memory_api_get_memory_never_404 (uid mid : string) (w : World) :
  match memory_api_get_memory uid mid w with
  | (Returned d, w') =>
      w' = w
      ∧ ∃ m, m ∈ memories w ∧ Memory.id m = mid ∧ Memory.user_id m = uid
             ∧ Memory.is_deleted m = false ∧ d = Memory.to_dict m
  | (Raised status detail, w') =>
      w' = w ∧ status = 403%N
      ∧ detail = "You don't have permission to access this memory"
      ∧ (¬ memory_exists w mid
         ∨ ∃ m, m ∈ memories w ∧ Memory.id m = mid
                ∧ Memory.is_deleted m = false ∧ Memory.user_id m ≠ uid)
  | (Failed _, _) => False
  end.
Proof.
  rewrite memory_api_get_memory_run.
  destruct (head _) as [m|] eqn:E.
  - apply head_filter_some in E as [[Hid Hdel] Hin].
    destruct (bool_decide _) eqn:Hown.
    + apply bool_decide_eq_true in Hown. split; [done|]. by exists m.
    + apply bool_decide_eq_false in Hown.
      split; [done|]. split; [done|]. split; [done|]. right. by exists m.
  - split; [done|]. split; [done|]. split; [done|]. left.
    intros (m & Hin & Hid & Hdel).
    by apply (proj1 (head_filter_none _ _) E m Hin).
Qed.

(** X19: deleting a memory through the API works once.  With unique ids
    and a type other than ["photo"], a successful deletion was asked by
    the owner of an undeleted memory, and afterwards every caller, the
    owner included, gets 403 from [get_memory] and from
    [delete_memory]; a refused deletion changes nothing. *)
Theorem memory_api_delete_once (uid mid dt : string) (w : World) :
  memory_ids_unique w →
  dt ≠ "photo" →
  match memory_api_delete_memory uid mid dt w with
  | (Returned d, w') =>
      (∃ m, m ∈ memories w ∧ Memory.id m = mid ∧ Memory.user_id m = uid
            ∧ Memory.is_deleted m = false)
      ∧ d !! "message"
        = Some (VStr (if decide (dt = "memory")
                      then "Memory deleted successfully"
                      else "Photo deleted successfully"))
      ∧ ∀ caller,
          memory_api_get_memory caller mid w'
          = (Raised 403 "You don't have permission to access this memory", w')
          ∧ memory_api_delete_memory caller mid dt w'
            = (Raised 403 "You don't have permission to delete this memory",
               w')
  | (Raised status detail, w') =>
      w' = w ∧ status = 403%N
      ∧ detail = "You don't have permission to delete this memory"
  | (Failed _, _) => False
  end.
Proof.
  intros Hkey Hdt. rewrite memory_api_delete_memory_run.
  destruct (head _) as [m|] eqn:E; [|done].
  destruct (bool_decide _) eqn:Hown; [|done].
  apply bool_decide_eq_true in Hown.
  destruct (visible_row_deleted mid dt w m E) as [w' Hdel].
  rewrite memory_service_delete_memory_run, Hdel.
  apply head_filter_some in E as [[Hid Hvis] Hin].
  split; [by exists m|]. split; [reflexivity|].
  assert (Hnone : head (filter (λ m, Memory.id m = mid
                                     ∧ Memory.is_deleted m = false)
                               (memories w')) = None).
  { apply head_filter_none. intros r Hr [Hrid Hrdel].
    pose proof (deleted_rows mid dt w w' Hkey Hdel r (conj Hr Hrid)) as Hd.
    rewrite decide_False in Hd by done. congruence. }
  intros caller.
  by rewrite memory_api_get_memory_run, memory_api_delete_memory_run, Hnone.
Qed.

(** X20: deleting the photo through the API keeps the memory.  The owner
    could read the memory before and can read it afterwards, without
    image and with the same description, title, labels and creation
    date. *)
Theorem photo_delete_keeps_memory (uid mid : string) (w : World) :
  memory_ids_unique w →
  match memory_api_delete_memory uid mid "photo" w with
  | (Returned d, w') =>
      d !! "message" = Some (VStr "Photo deleted successfully")
      ∧ ∃ m m',
          memory_api_get_memory uid mid w = (Returned (Memory.to_dict m), w)
          ∧ memory_api_get_memory uid mid w'
            = (Returned (Memory.to_dict m'), w')
          ∧ Memory.image_url m' = None
          ∧ Memory.description m' = Memory.description m
          ∧ Memory.title m' = Memory.title m
          ∧ Memory.labels m' = Memory.labels m
          ∧ Memory.created_at m' = Memory.created_at m
  | (Raised status detail, w') => w' = w ∧ status = 403%N
  | (Failed _, _) => False
  end.
Proof.
  intros Hkey. rewrite memory_api_delete_memory_run.
  destruct (head _) as [m|] eqn:E; [|done].
  destruct (bool_decide _) eqn:Hown; [|done].
  rewrite memory_service_delete_memory_run, memory_crud_delete_run.
  pose proof E as Hm. apply head_filter_some in Hm as [[Hid Hvis] Hin].
  destruct (head (filter (λ m, Memory.id m = mid) _)) as [m0|] eqn:E0.
  2:{ by destruct (proj1 (head_filter_none _ _) E0 m Hin). }
  apply head_filter_some in E0 as [Hid0 Hin0].
  assert (m0 = m) as ->
    by (apply (unique_row (memories w));
        [exact Hkey|exact Hin0|exact Hin|congruence]).
  change (deletion "photo") with clear_image.
  destruct (decide (clear_image m = m)) as [Hsame|Hchange].
  - split; [reflexivity|]. exists m, m.
    rewrite memory_api_get_memory_run, E, Hown.
    split; [done|]. split; [done|]. split; [by rewrite <- Hsame|done].
  - split; [reflexivity|].
    exists m, (touch (clock w (ticks w) / 1000)%N (clear_image m)).
    split; [by rewrite memory_api_get_memory_run, E, Hown|].
    split; [|done].
    rewrite memory_api_get_memory_run. cbn [memories with_memories advance].
    rewrite head_filter_fmap, E.
    2:{ intros x. by destruct (decide _). }
    cbn [fmap option_fmap option_map].
    rewrite decide_True by done.
    change (Memory.user_id (touch _ (clear_image m))) with (Memory.user_id m).
    by rewrite Hown.
Qed.

(** ** Listing a user's memories *)

Lemma memory_crud_get_user_memories_run (uid : string) (skip limit : nat)
    (w : World) :
  memory_crud_get_user_memories uid skip limit false w
  = (Ok (take limit (drop skip
          (merge_sort created_first
            (filter (λ m, Memory.user_id m = uid ∧ Memory.is_deleted m = false)
                    (memories w))))), w).
Proof.
  unfold memory_crud_get_user_memories.
  rewrite (bind_ok _ _ _ _ _ (eq_refl : get_world w = (Ok w, w))).
  unfold mret, M_ret. do 5 f_equal.
  apply list_filter_iff. intros m. intuition discriminate.
Qed.

(** X21: a page of [get_user_memories] has
    [min limit (count_user_memories - skip)] memories, newest first,
    all of them undeleted memories of the user; the first page is what
    [get_recent_memories] returns, and the service returns the
    dictionaries of the page. *)
Theorem user_memories_page (uid : string) (skip limit : nat) (w : World) :
  match memory_crud_get_user_memories uid skip limit false w,
        memory_crud_count_user_memories uid w with
  | (Ok page, w1), (Ok n, w2) =>
      w1 = w ∧ w2 = w
      ∧ length page = limit `min` (n - skip)
      ∧ StronglySorted created_first page
      ∧ (∀ m, m ∈ page →
           m ∈ memories w ∧ Memory.user_id m = uid
           ∧ Memory.is_deleted m = false)
      ∧ (skip = 0 → memory_crud_get_recent_memories uid limit w = (Ok page, w))
      ∧ memory_service_get_user_memories uid skip limit w
        = (Ok (Memory.to_dict <$> page), w)
  | _, _ => False
  end.
Proof.
  rewrite memory_crud_get_user_memories_run.
  change (memory_crud_count_user_memories uid w)
    with (Ok (length (filter (λ m, Memory.user_id m = uid
                                   ∧ Memory.is_deleted m = false)
                             (memories w))) : result nat, w).
  cbv iota beta.
  set (mine := filter _ (memories w)).
  pose proof (merge_sort_Permutation created_first mine) as Hperm.
  pose proof (StronglySorted_merge_sort created_first mine) as Hsorted.
  split; [done|]. split; [done|]. split.
  { rewrite length_take, length_drop. by rewrite Hperm. }
  split.
  { rewrite <- (take_drop skip (merge_sort created_first mine)) in Hsorted.
    apply StronglySorted_app_1_r in Hsorted.
    rewrite <- (take_drop limit (drop skip _)) in Hsorted.
    by apply StronglySorted_app_1_l in Hsorted. }
  split.
  { intros m Hm.
    apply subseteq_take, subseteq_drop in Hm.
    rewrite Hperm in Hm. apply list_elem_of_filter in Hm. tauto. }
  split.
  { intros ->. reflexivity. }
  unfold memory_service_get_user_memories.
  by rewrite (bind_ok _ _ _ _ _
                (memory_crud_get_user_memories_run uid skip limit w)).
Qed.

Lemma album_keys : memory_ids_unique album.
Proof. unfold memory_ids_unique. by_decide. Qed.

Lemma memory_delete_is_soft_witness :
  match memory_crud_delete "mem-0001" "memory" album with
  | (Ok true, w') => ∀ m, memory_row w' "mem-0001" m → Memory.is_deleted m = true
  | _ => False
  end.
Proof.
  pose proof (memory_delete_is_soft "mem-0001" "memory" album album_keys)
    as H.
  destruct (memory_crud_delete "mem-0001" "memory" album) as [[[|]|e] w'].
  - destruct H as (_ & _ & _ & H & _). exact H.
  - destruct H as (_ & H). apply (H beach); [left|reflexivity].
  - exact H.
Defined.

Lemma deleted_memory_not_found_witness :
  match memory_service_delete_memory "mem-0001" "memory" album with
  | (Ok d, w') =>
      d !! "success" = Some (VBool true)
      ∧ d !! "memoryId" = Some (VStr "mem-0001")
      ∧ memory_service_get_memory "mem-0001" w'
        = (Raise (not_found "mem-0001"), w')
      ∧ memory_service_delete_memory "mem-0001" "memory" w' = (Ok d, w')
  | (Raise e, w') =>
      e = not_found "mem-0001" ∧ w' = album
      ∧ memory_service_get_memory "mem-0001" album
        = (Raise (not_found "mem-0001"), album)
  end.
Proof.
  apply (deleted_memory_not_found "mem-0001" "memory" album).
  - unfold memory_ids_unique. by_decide.
  - by_decide.
Defined.

Lemma memory_api_delete_once_witness :
  match memory_api_delete_memory "u1" "mem-0001" "memory" album with
  | (Returned d, w') =>
      (∃ m, m ∈ memories album ∧ Memory.id m = "mem-0001"
            ∧ Memory.user_id m = "u1" ∧ Memory.is_deleted m = false)
      ∧ d !! "message"
        = Some (VStr (if decide ("memory" = "memory")
                      then "Memory deleted successfully"
                      else "Photo deleted successfully"))
      ∧ ∀ caller,
          memory_api_get_memory caller "mem-0001" w'
          = (Raised 403 "You don't have permission to access this memory", w')
          ∧ memory_api_delete_memory caller "mem-0001" "memory" w'
            = (Raised 403 "You don't have permission to delete this memory",
               w')
  | (Raised status detail, w') =>
      w' = album ∧ status = 403%N
      ∧ detail = "You don't have permission to delete this memory"
  | (Failed _, _) => False
  end.
Proof.
  apply (memory_api_delete_once "u1" "mem-0001" "memory" album).
  - unfold memory_ids_unique. by_decide.
  - by_decide.
Defined.

Lemma photo_delete_keeps_memory_witness :
  match memory_api_delete_memory "u1" "mem-0001" "photo" album with
  | (Returned d, w') =>
      d !! "message" = Some (VStr "Photo deleted successfully")
      ∧ ∃ m m',
          memory_api_get_memory "u1" "mem-0001" album
          = (Returned (Memory.to_dict m), album)
          ∧ memory_api_get_memory "u1" "mem-0001" w'
            = (Returned (Memory.to_dict m'), w')
          ∧ Memory.image_url m' = None
          ∧ Memory.description m' = Memory.description m
          ∧ Memory.title m' = Memory.title m
          ∧ Memory.labels m' = Memory.labels m
          ∧ Memory.created_at m' = Memory.created_at m
  | (Raised status detail, w') => w' = album ∧ status = 403%N
  | (Failed _, _) => False
  end.
Proof.
  apply (photo_delete_keeps_memory "u1" "mem-0001" album).
  unfold memory_ids_unique. by_decide.
Defined.

(** ** Creating and finding messages *)

Lemma message_crud_get_by_msg_id_run (msg_id : string) (w : World) :
  message_crud_get_by_msg_id msg_id w
  = (Ok (head (filter (λ m, Message.msgId m = msg_id) (messages w))), w).
Proof. reflexivity. Qed.

Lemma filter_fresh {A} (P : A → Prop) `{!∀ x, Decision (P x)}
    (l : list A) (x : A) :
  P x → (∀ y, y ∈ l → ¬ P y) →
  filter P (l ++ [x]) = [x] ∧ filter (λ y, ¬ P y) (l ++ [x]) = l.
Proof.
  intros Hx Hl. rewrite !filter_app, !filter_cons, !filter_nil.
  rewrite decide_True by done. rewrite decide_False by tauto.
  rewrite app_nil_r. split.
  - assert (filter P l = []) as ->; [|done].
    destruct (filter P l) as [|y l'] eqn:E; [done|].
    assert (Hy : y ∈ filter P l) by (rewrite E; left).
    apply list_elem_of_filter in Hy as [Hy Hin]. by destruct (Hl y Hin).
  - clear Hx. induction l as [|y l IH]; [done|].
    rewrite filter_cons, decide_True by (apply Hl; left).
    f_equal. apply IH. intros z Hz. apply Hl. by right.
Qed.

(** X22: [create_ai_message] stores a row only under an id no row has:
    it draws the msgId (prefix "ai", the clock and four random bytes)
    and then the row id.  If the id is free, one row with sender "ai" is
    appended, [get_by_id] finds it, deleting it restores the table, and
    [get_by_msg_id] finds it if no older row has the msgId.  If the id
    is taken, the insert raises [IntegrityError] and the table is as it
    was. *)
Theorem ai_message_round_trip (uid content0 intent0 : string)
    (meta0 : option Meta) (w : World) :
  match message_crud_create_ai_message uid content0 intent0 meta0 w with
  | (Ok row, w') =>
      messages w' = messages w ++ [row]
      ∧ Message.id row = "msg-" +:+ uuid_at 4 w
      ∧ (∀ m, m ∈ messages w → Message.id m ≠ Message.id row)
      ∧ Message.sender row = "ai"
      ∧ Message.msgId row
        = format_message_id "ai" (clock w (ticks w)) (hex (drawn 4 w))
      ∧ message_crud_get_by_id (Message.id row) w' = (Ok (Some row), w')
      ∧ (∃ w'', message_crud_delete (Message.id row) w' = (Ok true, w'')
                ∧ messages w'' = messages w)
      ∧ ((∀ m, m ∈ messages w → Message.msgId m ≠ Message.msgId row) →
         message_crud_get_by_msg_id (Message.msgId row) w'
         = (Ok (Some row), w'))
  | (Raise e, w') =>
      e = IntegrityError "messages"
      ∧ messages w' = messages w
      ∧ "msg-" +:+ uuid_at 4 w ∈ Message.id <$> messages w
  end.
Proof.
  unfold message_crud_create_ai_message.
  pose proof (run_cases 16 16 _ (advance 1 4 w) _ _ (le_n 16)
                (run_message_crud_create 16 uid
                   (format_message_id "ai" (clock w (ticks w))
                      (hex (drawn 4 w)))
                   "ai" intent0 content0 meta0 (advance 1 4 w))) as H.
  cbv beta in H.
  rewrite (uuid_at_shift 0 4 w (advance 1 4 w) eq_refl eq_refl) in H.
  change (0 + 4) with 4 in H.
  change (messages (advance 1 4 w)) with (messages w) in H.
  destruct (message_crud_create uid _ "ai" intent0 content0 meta0
              (advance 1 4 w)) as [[row|e] w'] eqn:Hrun.
  - rewrite (bind_ok _ _ _ _ _ (generate_message_id_run "ai" w)), Hrun.
    clear Hrun.
    destruct H as (Hstep & Hid & Hnew & _ & Hmsg & Hsender & _).
    destruct Hstep as (_ & _ & _ & _ & _ & Hmsgs).
    change (messages (advance 1 4 w)) with (messages w) in Hmsgs.
    assert (∀ m, m ∈ messages w → Message.id m ≠ Message.id row) as Hfresh.
    { intros m Hm Heq. apply Hnew. rewrite <- Heq.
      apply list_elem_of_fmap. by exists m. }
    destruct (filter_fresh (λ m, Message.id m = Message.id row)
                (messages w) row eq_refl Hfresh) as [Hone Hrest].
    split; [exact Hmsgs|]. split; [exact Hid|]. split; [exact Hfresh|].
    split; [exact Hsender|]. split; [exact Hmsg|]. split; [|split].
    + by rewrite message_crud_get_by_id_run, Hmsgs, Hone.
    + unfold message_crud_delete.
      rewrite (bind_ok _ _ _ _ _ (message_crud_get_by_id_run _ w')).
      rewrite Hmsgs, Hone. cbn [head].
      eexists. split; [reflexivity|].
      cbn [messages with_messages]. by rewrite Hmsgs.
    + intros Hfree. rewrite message_crud_get_by_msg_id_run, Hmsgs.
      by rewrite (proj1 (filter_fresh
                           (λ m, Message.msgId m = Message.msgId row)
                           (messages w) row eq_refl Hfree)).
  - rewrite (bind_ok _ _ _ _ _ (generate_message_id_run "ai" w)), Hrun.
    clear Hrun.
    destruct H as [(-> & Hstep & Hin) _].
    destruct Hstep as (_ & _ & _ & _ & _ & Hmsgs).
    rewrite app_nil_r in Hmsgs. auto.
Qed.
